(** * Resume-wizard: the credential vault, the Home page and the preview

    A shallow embedding of [src/lib/crypto.ts] (the vault: [toBase64],
    [fromBase64], [deriveKey], [encryptText], [decryptText]), of
    [src/components/home.tsx] (the storage and key handlers:
    [handleFileUpload], the load effect, [clearLastSavedResume], the key
    buttons and the persistence toggle; and [handleTailorResume], with the
    Gemini client as a service that replies) and of the preview of
    [src/components/ResumeEditor.tsx] ([renderPreview], with latex.js as a
    function from the source to its HTML).  A handler that waits (for a
    [FileReader], for the vault) is two pieces, what it does before and what
    it does after, so that other events can come in between.

    The platform interfaces the code calls are modelled from their standards:
    [TextEncoder]/[TextDecoder] (WHATWG Encoding), [btoa]/[atob] (WHATWG
    forgiving base64), [JSON.stringify]/[JSON.parse] (ECMA-404, ECMA-262),
    the string methods [trim], [split], [startsWith], [includes] and the
    two patterns given to [replace] and [test] (ECMA-262), PBKDF2 over HMAC
    (RFC 8018, RFC 2104).  SHA-256 and AES-GCM stay abstract, behind the
    interface [SubtleCrypto]; the number of arguments the engine lets a call
    take is a parameter, [Engine].  The storage is one that takes every
    write. *)

From Stdlib Require Import ZArith NArith List Bool Lia String Ascii.
From Stdlib.Strings Require Import Byte.
From Stdlib Require DecimalPos DecimalFacts.
From stdpp Require Import gmap strings.
Import ListNotations.
Set Warnings "-register-all".

(* ===================================================================== *)
(** * Part I: the model                                                    *)
(* ===================================================================== *)

(** ** JavaScript values shared by both files *)

(** A JavaScript string is a sequence of UTF-16 code units. *)
Definition jsstring : Type := list Z.

(** A string literal of the source, as code units (ASCII only). *)
Definition js (s : string) : jsstring :=
  map (fun a => Z.of_N (N_of_ascii a)) (list_ascii_of_string s).

(** What the modelled code can throw. *)
Inductive exn : Type :=
| InvalidEncryptedPayload  (* new Error('Invalid encrypted payload') *)
| SyntaxError              (* JSON.parse on text that is not JSON *)
| InvalidCharacterError    (* DOMException of atob and btoa *)
| OperationError           (* DOMException of crypto.subtle.decrypt *)
| RangeError               (* a call with more arguments than the engine takes *)
| TypeError.               (* ToString of an object whose toString is no function *)

(** The result of a call: a value, an exception, or [Unmodelled] where the
    call leaves the model (a number used as a base64 field goes through
    binary64 and Number::toString, which are not embedded). *)
Inductive outcome (A : Type) : Type :=
| Returns (a : A)
| Throws (e : exn)
| Unmodelled.
Arguments Returns {A} a.
Arguments Throws {A} e.
Arguments Unmodelled {A}.

#[global] Instance outcome_ret : MRet outcome := fun A a => Returns a.
#[global] Instance outcome_bind : MBind outcome := fun A B k m =>
  match m with
  | Returns a => k a
  | Throws e => Throws e
  | Unmodelled => Unmodelled
  end.

(** ** Bytes of a [Uint8Array] *)

Module Bytes.
Local Open Scope Z_scope.

Definition to_Z (b : byte) : Z := Z.of_N (Byte.to_N b).

(** Storing a number in a [Uint8Array] keeps it modulo 256. *)
Definition of_Z (z : Z) : byte :=
  match Byte.of_N (Z.to_N (z mod 256)) with
  | Some b => b
  | None => x00
  end.

Definition xor (a b : byte) : byte := of_Z (Z.lxor (to_Z a) (to_Z b)).

Definition zeros (n : nat) : list byte := repeat x00 n.

End Bytes.

(** ** [TextEncoder.encode] and [TextDecoder.decode] (UTF-8) *)

Module Utf8.
Local Open Scope Z_scope.

Definition is_high (c : Z) : bool := (0xD800 <=? c) && (c <=? 0xDBFF).
Definition is_low (c : Z) : bool := (0xDC00 <=? c) && (c <=? 0xDFFF).

(** Code units to scalar values: a surrogate pair is one code point, a lone
    surrogate becomes U+FFFD (the conversion to a USVString). *)
Fixpoint to_scalars (s : jsstring) : list Z :=
  match s with
  | [] => []
  | c :: tl =>
      if is_high c then
        match tl with
        | d :: tl' =>
            if is_low d
            then (0x10000 + (c - 0xD800) * 0x400 + (d - 0xDC00)) :: to_scalars tl'
            else 0xFFFD :: to_scalars tl
        | [] => [0xFFFD]
        end
      else if is_low c then 0xFFFD :: to_scalars tl
      else c :: to_scalars tl
  end.

(** The UTF-8 encoder, one scalar value at a time. *)
Definition encode_scalar (cp : Z) : list Z :=
  if cp <? 0x80 then [cp]
  else if cp <? 0x800 then [0xC0 + cp / 64; 0x80 + cp mod 64]
  else if cp <? 0x10000 then
    [0xE0 + cp / 4096; 0x80 + (cp / 64) mod 64; 0x80 + cp mod 64]
  else
    [0xF0 + cp / 262144; 0x80 + (cp / 4096) mod 64;
     0x80 + (cp / 64) mod 64; 0x80 + cp mod 64].

(** [enc.encode(s)] *)
Definition encode (s : jsstring) : list byte :=
  map Bytes.of_Z (flat_map encode_scalar (to_scalars s)).

(** The state of the UTF-8 decoder: between characters, or inside one with
    the code point so far, the continuation bytes still needed and the bounds
    of the next byte. *)
Inductive dstate : Type :=
| Idle
| Pending (cp : Z) (more : nat) (lo hi : Z).

(** A byte read between characters. *)
Definition step_idle (b : Z) : dstate * list Z :=
  if b <=? 0x7F then (Idle, [b])
  else if (0xC2 <=? b) && (b <=? 0xDF) then (Pending (b mod 32) 0 0x80 0xBF, [])
  else if (0xE0 <=? b) && (b <=? 0xEF) then
    (Pending (b mod 16) 1
       (if b =? 0xE0 then 0xA0 else 0x80) (if b =? 0xED then 0x9F else 0xBF), [])
  else if (0xF0 <=? b) && (b <=? 0xF4) then
    (Pending (b mod 8) 2
       (if b =? 0xF0 then 0x90 else 0x80) (if b =? 0xF4 then 0x8F else 0xBF), [])
  else (Idle, [0xFFFD]).

(** One byte: a continuation byte in bounds extends the code point; any
    other byte ends the character with U+FFFD and is read again between
    characters. [more] counts the continuation bytes needed after this one. *)
Definition step (st : dstate) (b : Z) : dstate * list Z :=
  match st with
  | Idle => step_idle b
  | Pending cp more lo hi =>
      if (lo <=? b) && (b <=? hi) then
        match more with
        | O => (Idle, [cp * 64 + b mod 64])
        | S more' => (Pending (cp * 64 + b mod 64) more' 0x80 0xBF, [])
        end
      else
        let (st', out) := step_idle b in (st', 0xFFFD :: out)
  end.

(** The decoder over a whole buffer; a character cut short by the end of the
    input is U+FFFD. *)
Fixpoint decode_from (st : dstate) (bs : list Z) : list Z :=
  match bs with
  | [] => match st with Idle => [] | Pending _ _ _ _ => [0xFFFD] end
  | b :: bs' => let (st', out) := step st b in out ++ decode_from st' bs'
  end.

(** A decoder made with [new TextDecoder()] drops a leading byte order
    mark ([ignoreBOM] is false). *)
Definition strip_bom (cps : list Z) : list Z :=
  match cps with
  | c :: r => if c =? 0xFEFF then r else cps
  | [] => []
  end.

(** A scalar value as code units. *)
Definition utf16 (cp : Z) : jsstring :=
  if cp <? 0x10000 then [cp]
  else [0xD800 + (cp - 0x10000) / 0x400; 0xDC00 + (cp - 0x10000) mod 0x400].

(** [dec.decode(buf)] *)
Definition decode (bs : list byte) : jsstring :=
  flat_map utf16 (strip_bom (decode_from Idle (map Bytes.to_Z bs))).

(** What survives [decode (encode s)]: the string with its lone surrogates
    replaced and a leading U+FEFF dropped. *)
Definition normalise (s : jsstring) : jsstring :=
  flat_map utf16 (strip_bom (to_scalars s)).

(** Well-formed UTF-16: code units in range, every surrogate paired. *)
Fixpoint well_formed (s : jsstring) : bool :=
  match s with
  | [] => true
  | c :: tl =>
      if is_high c then
        match tl with
        | d :: tl' => is_low d && well_formed tl'
        | [] => false
        end
      else negb (is_low c) && (0 <=? c) && (c <? 0x10000) && well_formed tl
  end.

(** The string does not start with U+FEFF. *)
Definition no_bom (s : jsstring) : bool :=
  match s with
  | c :: _ => negb (c =? 0xFEFF)
  | [] => true
  end.

End Utf8.

(** ** [btoa] and [atob] *)

Module Base64.
Local Open Scope Z_scope.

(** The character of a 6-bit value: [A-Z], [a-z], [0-9], [+], [/]. *)
Definition alphabet (i : Z) : Z :=
  if i <? 26 then 65 + i
  else if i <? 52 then 97 + (i - 26)
  else if i <? 62 then 48 + (i - 52)
  else if i =? 62 then 43
  else 47.

(** The 6-bit value of a character, if it is one of the 64. *)
Definition value (c : Z) : option Z :=
  if (65 <=? c) && (c <=? 90) then Some (c - 65)
  else if (97 <=? c) && (c <=? 122) then Some (c - 97 + 26)
  else if (48 <=? c) && (c <=? 57) then Some (c - 48 + 52)
  else if c =? 43 then Some 62
  else if c =? 47 then Some 63
  else None.

Definition pad : Z := 61. (* = *)

(** Three bytes become four characters; a last group of one or two bytes is
    padded with [=]. *)
Fixpoint encode (s : list Z) : jsstring :=
  match s with
  | [] => []
  | [a] => [alphabet (a / 4); alphabet (a mod 4 * 16); pad; pad]
  | [a; b] =>
      [alphabet (a / 4); alphabet (a mod 4 * 16 + b / 16);
       alphabet (b mod 16 * 4); pad]
  | a :: b :: c :: rest =>
      alphabet (a / 4) :: alphabet (a mod 4 * 16 + b / 16)
      :: alphabet (b mod 16 * 4 + c / 64) :: alphabet (c mod 64) :: encode rest
  end.

(** [btoa(s)]: throws on a code unit above 255. *)
Definition btoa (s : jsstring) : outcome jsstring :=
  if forallb (fun c => (0 <=? c) && (c <=? 255)) s
  then Returns (encode s)
  else Throws InvalidCharacterError.

Definition is_ascii_whitespace (c : Z) : bool :=
  (c =? 9) || (c =? 10) || (c =? 12) || (c =? 13) || (c =? 32).

(** One or two [=] at the end of a string whose length is a multiple of
    four are dropped. *)
Definition strip_padding (s : jsstring) : jsstring :=
  if (length s mod 4 =? 0)%nat then
    match rev s with
    | c1 :: r1 =>
        if c1 =? pad then
          match r1 with
          | c2 :: r2 => if c2 =? pad then rev r2 else rev r1
          | [] => []
          end
        else s
    | [] => s
    end
  else s.

(** Four characters give three bytes; a last group of two or three gives
    one or two, its spare bits dropped; a last group of one (a length that
    is 1 modulo 4) and a character outside the alphabet are errors. *)
Fixpoint decode (s : jsstring) : option (list Z) :=
  match s with
  | [] => Some []
  | [_] => None
  | [c1; c2] =>
      v1 ← value c1; v2 ← value c2;
      Some [v1 * 4 + v2 / 16]
  | [c1; c2; c3] =>
      v1 ← value c1; v2 ← value c2; v3 ← value c3;
      Some [v1 * 4 + v2 / 16; v2 mod 16 * 16 + v3 / 4]
  | c1 :: c2 :: c3 :: c4 :: rest =>
      v1 ← value c1; v2 ← value c2; v3 ← value c3; v4 ← value c4;
      bs ← decode rest;
      Some (v1 * 4 + v2 / 16 :: v2 mod 16 * 16 + v3 / 4 :: v3 mod 4 * 64 + v4 :: bs)
  end.

(** [atob(s)], the forgiving base64 decoder. *)
Definition atob (s : jsstring) : outcome jsstring :=
  let s1 := List.filter (fun c => negb (is_ascii_whitespace c)) s in
  match decode (strip_padding s1) with
  | Some bs => Returns bs
  | None => Throws InvalidCharacterError
  end.

End Base64.

(** ** [JSON.parse] and [JSON.stringify] *)

Module Json.
Local Open Scope Z_scope.

(** A JSON value. A number is kept as the decimal it was written as,
    [m * 10 ^ e], not rounded to binary64. An object keeps its members in
    source order, repeated keys included. *)
Inductive json : Type :=
| JNull
| JBool (b : bool)
| JNum (m e : Z)
| JStr (s : jsstring)
| JArr (elems : list json)
| JObj (members : list (jsstring * json)).

(** *** The lexer *)

Inductive token : Type :=
| TLBrace | TRBrace | TLBracket | TRBracket | TColon | TComma
| TValue (v : json).

(** Where the automaton of the number grammar stands: an optional minus,
    then a zero or a digit string that does not start with zero, then an
    optional fraction (a dot and digits), then an optional exponent (e or E,
    an optional sign, digits). *)
Inductive numstate : Type :=
| NMinus | NZero | NInt | NDot | NFrac | NE | NESign | NExp.

(** The number read so far: sign, digits of the integer and fraction parts
    as one integer, number of fraction digits, sign and value of the
    exponent. *)
Record number : Type := {
  neg : bool; mantissa : Z; scale : Z; eneg : bool; exponent : Z
}.

Inductive lstate : Type :=
| LDefault
| LString (acc : jsstring)                 (* inside a string; [acc] is reversed *)
| LEscape (acc : jsstring)                 (* after a backslash *)
| LUnicode (acc : jsstring) (v : Z) (more : nat)  (* inside \uXXXX *)
| LNumber (st : numstate) (n : number)
| LWord (rest : jsstring) (v : json).      (* inside true, false or null *)

Definition is_digit (c : Z) : bool := (48 <=? c) && (c <=? 57).

Definition hex_value (c : Z) : option Z :=
  if is_digit c then Some (c - 48)
  else if (97 <=? c) && (c <=? 102) then Some (c - 87)
  else if (65 <=? c) && (c <=? 70) then Some (c - 55)
  else None.

(** A character read between tokens. *)
Definition lex_default (c : Z) : option (lstate * list token) :=
  if (c =? 32) || (c =? 9) || (c =? 10) || (c =? 13) then Some (LDefault, [])
  else if c =? 123 then Some (LDefault, [TLBrace])
  else if c =? 125 then Some (LDefault, [TRBrace])
  else if c =? 91 then Some (LDefault, [TLBracket])
  else if c =? 93 then Some (LDefault, [TRBracket])
  else if c =? 58 then Some (LDefault, [TColon])
  else if c =? 44 then Some (LDefault, [TComma])
  else if c =? 34 then Some (LString [], [])
  else if c =? 45 then Some (LNumber NMinus (Build_number true 0 0 false 0), [])
  else if c =? 48 then Some (LNumber NZero (Build_number false 0 0 false 0), [])
  else if is_digit c
  then Some (LNumber NInt (Build_number false (c - 48) 0 false 0), [])
  else if c =? 116 then Some (LWord (js "rue") (JBool true), [])
  else if c =? 102 then Some (LWord (js "alse") (JBool false), [])
  else if c =? 110 then Some (LWord (js "ull") JNull, [])
  else None.

(** The next state of the number automaton, if the character continues the
    number. *)
Definition num_next (st : numstate) (c : Z) : option numstate :=
  let exp := (c =? 101) || (c =? 69) in
  match st with
  | NMinus => if c =? 48 then Some NZero else if is_digit c then Some NInt else None
  | NZero => if c =? 46 then Some NDot else if exp then Some NE else None
  | NInt =>
      if is_digit c then Some NInt
      else if c =? 46 then Some NDot else if exp then Some NE else None
  | NDot => if is_digit c then Some NFrac else None
  | NFrac => if is_digit c then Some NFrac else if exp then Some NE else None
  | NE =>
      if (c =? 43) || (c =? 45) then Some NESign
      else if is_digit c then Some NExp else None
  | NESign => if is_digit c then Some NExp else None
  | NExp => if is_digit c then Some NExp else None
  end.

(** The number after a character that took the automaton to [st]. *)
Definition num_read (st : numstate) (c : Z) (n : number) : number :=
  match st with
  | NInt =>
      Build_number (neg n) (mantissa n * 10 + (c - 48)) (scale n) (eneg n) (exponent n)
  | NFrac =>
      Build_number (neg n) (mantissa n * 10 + (c - 48)) (scale n + 1) (eneg n)
        (exponent n)
  | NESign => Build_number (neg n) (mantissa n) (scale n) (c =? 45) (exponent n)
  | NExp =>
      Build_number (neg n) (mantissa n) (scale n) (eneg n) (exponent n * 10 + (c - 48))
  | NMinus | NZero | NDot | NE => n
  end.

(** The value of a number that ends here, if it can end here. *)
Definition num_finish (st : numstate) (n : number) : option json :=
  match st with
  | NZero | NInt | NFrac | NExp =>
      Some (JNum (if neg n then - mantissa n else mantissa n)
              ((if eneg n then - exponent n else exponent n) - scale n))
  | NMinus | NDot | NE | NESign => None
  end.

Definition unescape (c : Z) : option Z :=
  if c =? 34 then Some 34        (* quote *)
  else if c =? 92 then Some 92   (* backslash *)
  else if c =? 47 then Some 47   (* slash *)
  else if c =? 98 then Some 8    (* b *)
  else if c =? 102 then Some 12  (* f *)
  else if c =? 110 then Some 10  (* n *)
  else if c =? 114 then Some 13  (* r *)
  else if c =? 116 then Some 9   (* t *)
  else None.

(** One character. A number ends at the first character that does not
    continue it, and that character is read again between tokens. *)
Definition lex_step (st : lstate) (c : Z) : option (lstate * list token) :=
  match st with
  | LDefault => lex_default c
  | LString acc =>
      if c =? 34 then Some (LDefault, [TValue (JStr (rev acc))])
      else if c =? 92 then Some (LEscape acc, [])
      else if c <? 32 then None
      else Some (LString (c :: acc), [])
  | LEscape acc =>
      if c =? 117 then Some (LUnicode acc 0 3, [])
      else x ← unescape c; Some (LString (x :: acc), [])
  | LUnicode acc v more =>
      h ← hex_value c;
      match more with
      | O => Some (LString (v * 16 + h :: acc), [])
      | S more' => Some (LUnicode acc (v * 16 + h) more', [])
      end
  | LNumber ns n =>
      match num_next ns c with
      | Some ns' => Some (LNumber ns' (num_read ns' c n), [])
      | None =>
          v ← num_finish ns n;
          '(st', out) ← lex_default c;
          Some (st', TValue v :: out)
      end
  | LWord rest v =>
      match rest with
      | e :: rest' =>
          if c =? e
          then match rest' with
               | [] => Some (LDefault, [TValue v])
               | _ :: _ => Some (LWord rest' v, [])
               end
          else None
      | [] => None
      end
  end.

(** The tokens of a text, from a lexer state. *)
Fixpoint lex_from (st : lstate) (s : jsstring) : option (list token) :=
  match s with
  | [] =>
      match st with
      | LDefault => Some []
      | LNumber ns n => v ← num_finish ns n; Some [TValue v]
      | _ => None
      end
  | c :: s' =>
      '(st', out) ← lex_step st c;
      rest ← lex_from st' s';
      Some (out ++ rest)
  end.

(** *** The parser: an automaton with a stack of open containers *)

Inductive frame : Type :=
| FArr (elems : list json)                          (* reversed *)
| FObj (members : list (jsstring * json)) (key : jsstring).

Inductive mode : Type :=
| MValue                                   (* a value must follow *)
| MArrFirst                                (* after [ *)
| MAfterElem (elems : list json)           (* after an element of an array *)
| MObjFirst                                (* after { *)
| MKey (members : list (jsstring * json))  (* after a comma in an object *)
| MColon (members : list (jsstring * json)) (key : jsstring)
| MAfterMember (members : list (jsstring * json))
| MDone (v : json).

(** A value is complete: it goes to the container on top of the stack. *)
Definition complete (v : json) (stack : list frame) : mode * list frame :=
  match stack with
  | [] => (MDone v, [])
  | FArr elems :: stack' => (MAfterElem (v :: elems), stack')
  | FObj members key :: stack' => (MAfterMember ((key, v) :: members), stack')
  end.

Definition begin_value (t : token) (stack : list frame)
  : option (mode * list frame) :=
  match t with
  | TValue v => Some (complete v stack)
  | TLBracket => Some (MArrFirst, stack)
  | TLBrace => Some (MObjFirst, stack)
  | _ => None
  end.

Definition parse_step (m : mode) (stack : list frame) (t : token)
  : option (mode * list frame) :=
  match m with
  | MValue => begin_value t stack
  | MArrFirst =>
      match t with
      | TRBracket => Some (complete (JArr []) stack)
      | _ => begin_value t (FArr [] :: stack)
      end
  | MAfterElem elems =>
      match t with
      | TComma => Some (MValue, FArr elems :: stack)
      | TRBracket => Some (complete (JArr (rev elems)) stack)
      | _ => None
      end
  | MObjFirst =>
      match t with
      | TRBrace => Some (complete (JObj []) stack)
      | TValue (JStr k) => Some (MColon [] k, stack)
      | _ => None
      end
  | MKey members =>
      match t with
      | TValue (JStr k) => Some (MColon members k, stack)
      | _ => None
      end
  | MColon members k =>
      match t with
      | TColon => Some (MValue, FObj members k :: stack)
      | _ => None
      end
  | MAfterMember members =>
      match t with
      | TComma => Some (MKey members, stack)
      | TRBrace => Some (complete (JObj (rev members)) stack)
      | _ => None
      end
  | MDone _ => None
  end.

Fixpoint parse_from (m : mode) (stack : list frame) (ts : list token)
  : option json :=
  match ts with
  | [] => match m with MDone v => Some v | _ => None end
  | t :: ts' => '(m', stack') ← parse_step m stack t; parse_from m' stack' ts'
  end.

(** [JSON.parse(text)] *)
Definition parse (text : jsstring) : outcome json :=
  match ts ← lex_from LDefault text; parse_from MValue [] ts with
  | Some v => Returns v
  | None => Throws SyntaxError
  end.

(** *** [JSON.stringify] *)

Definition hex_digit (n : Z) : Z := if n <? 10 then 48 + n else 87 + n.

(** The escape of one code unit as [u] and four lowercase hex digits. *)
Definition unicode_escape (c : Z) : jsstring :=
  [92; 117; hex_digit (c / 4096); hex_digit (c / 256 mod 16);
   hex_digit (c / 16 mod 16); hex_digit (c mod 16)].

Definition escape_unit (c : Z) : jsstring :=
  if c =? 8 then [92; 98]
  else if c =? 9 then [92; 116]
  else if c =? 10 then [92; 110]
  else if c =? 12 then [92; 102]
  else if c =? 13 then [92; 114]
  else if c =? 34 then [92; 34]
  else if c =? 92 then [92; 92]
  else if c <? 32 then unicode_escape c
  else [c].

(** The body of a quoted string: control characters, the quote, the
    backslash and lone surrogates are escaped. *)
Fixpoint quote_body (s : jsstring) : jsstring :=
  match s with
  | [] => []
  | c :: tl =>
      if Utf8.is_high c then
        match tl with
        | d :: tl' =>
            if Utf8.is_low d then c :: d :: quote_body tl'
            else unicode_escape c ++ quote_body tl
        | [] => unicode_escape c
        end
      else if Utf8.is_low c then unicode_escape c ++ quote_body tl
      else escape_unit c ++ quote_body tl
  end.

Definition quote (s : jsstring) : jsstring := 34 :: quote_body s ++ [34].

Fixpoint digits (u : Decimal.uint) : jsstring :=
  match u with
  | Decimal.Nil => []
  | Decimal.D0 u' => 48 :: digits u'
  | Decimal.D1 u' => 49 :: digits u'
  | Decimal.D2 u' => 50 :: digits u'
  | Decimal.D3 u' => 51 :: digits u'
  | Decimal.D4 u' => 52 :: digits u'
  | Decimal.D5 u' => 53 :: digits u'
  | Decimal.D6 u' => 54 :: digits u'
  | Decimal.D7 u' => 55 :: digits u'
  | Decimal.D8 u' => 56 :: digits u'
  | Decimal.D9 u' => 57 :: digits u'
  end.

(** An integer in decimal. *)
Definition decimal (z : Z) : jsstring :=
  match Z.to_int z with
  | Decimal.Pos u => digits u
  | Decimal.Neg u => 45 :: digits u
  end.

(** The integer a number is, if it is one. *)
Definition num_integer (m e : Z) : option Z :=
  if 0 <=? e then Some (m * 10 ^ e)
  else if m mod 10 ^ (- e) =? 0 then Some (m / 10 ^ (- e))
  else None.

(** Number::toString, for the numbers the model prints: integers up to
    2^53 in absolute value, which binary64 holds exactly and prints in
    plain decimal. *)
Definition number_to_string (m e : Z) : option jsstring :=
  z ← num_integer m e;
  if Z.abs z <=? 2 ^ 53 then Some (decimal z) else None.

(** [JSON.stringify(v)]; [None] when [v] holds a number the model does not
    print. *)
Fixpoint stringify (v : json) : option jsstring :=
  match v with
  | JNull => Some (js "null")
  | JBool true => Some (js "true")
  | JBool false => Some (js "false")
  | JNum m e => number_to_string m e
  | JStr s => Some (quote s)
  | JArr elems =>
      body ← (fix go (l : list json) : option jsstring :=
                match l with
                | [] => Some []
                | x :: r =>
                    sx ← stringify x;
                    sr ← go r;
                    Some (match r with [] => sx | _ :: _ => sx ++ 44 :: sr end)
                end) elems;
      Some (91 :: body ++ [93])
  | JObj members =>
      body ← (fix go (l : list (jsstring * json)) : option jsstring :=
                match l with
                | [] => Some []
                | (k, x) :: r =>
                    sx ← stringify x;
                    sr ← go r;
                    Some (quote k ++ 58 ::
                          match r with [] => sx | _ :: _ => sx ++ 44 :: sr end)
                end) members;
      Some (123 :: body ++ [125])
  end.

(** *** Reading a parsed value *)

Fixpoint eqb (a b : jsstring) : bool :=
  match a, b with
  | [], [] => true
  | x :: a', y :: b' => (x =? y) && eqb a' b'
  | _, _ => false
  end.

(** The member an object ends up with for a key: the last one written. *)
Fixpoint lookup (k : jsstring) (members : list (jsstring * json)) : option json :=
  match members with
  | [] => None
  | (k', v) :: rest =>
      match lookup k rest with
      | Some later => Some later
      | None => if eqb k' k then Some v else None
      end
  end.

(** [v.k] for a key that no prototype defines ([salt], [iv], [data]):
    [None] is [undefined]. *)
Definition prop (v : json) (k : jsstring) : option json :=
  match v with
  | JObj members => lookup k members
  | _ => None
  end.

(** Whether binary64 holds the nonzero decimal [m * 10 ^ e] as zero. The
    least positive number is 2^-1074, and the nearest number to a decimal of
    size at most 2^-1075 is zero (at 2^-1075 itself by the tie to even). *)
Definition underflows (m e : Z) : bool :=
  (e <? 0) && (Z.abs m * 2 ^ 1075 <=? 10 ^ (- e)).

(** ToBoolean. A number is false when it is zero, which a decimal is when
    it is written as zero or is rounded to zero by [JSON.parse]. (The
    standard lets an engine round a literal of more than 20 significant
    digits as if it were cut after the twentieth; engines round the literal
    itself, and so does this.) Every value is decided. *)
Definition truthy (v : json) : option bool :=
  match v with
  | JNull => Some false
  | JBool b => Some b
  | JNum m e => Some (negb ((m =? 0) || underflows m e))
  | JStr s => Some (match s with [] => false | _ :: _ => true end)
  | JArr _ | JObj _ => Some true
  end.

(** Whether ToString returns. An object made by [JSON.parse] with a member
    named [toString] has that member in place of [Object.prototype.toString];
    it is no function, and neither is what [valueOf] gives a primitive, so
    the conversion throws a TypeError. An array converts its elements. *)
Fixpoint stringable (v : json) : bool :=
  match v with
  | JArr elems =>
      (fix all (l : list json) : bool :=
         match l with
         | [] => true
         | x :: r => stringable x && all r
         end) elems
  | JObj members =>
      match lookup (js "toString") members with
      | Some _ => false
      | None => true
      end
  | _ => true
  end.

(** ToString; [None] when it throws ([stringable] is false) or meets a
    number the model does not print. *)
Fixpoint to_string (v : json) : option jsstring :=
  match v with
  | JNull => Some (js "null")
  | JBool true => Some (js "true")
  | JBool false => Some (js "false")
  | JNum m e => number_to_string m e
  | JStr s => Some s
  | JArr elems =>
      (fix join (l : list json) : option jsstring :=
         match l with
         | [] => Some []
         | x :: r =>
             sx ← match x with JNull => Some [] | _ => to_string x end;
             sr ← join r;
             Some (match r with [] => sx | _ :: _ => sx ++ 44 :: sr end)
         end) elems
  | JObj members =>
      match lookup (js "toString") members with
      | Some _ => None
      | None => Some (js "[object Object]")
      end
  end.

End Json.

(** ** The Web Crypto provider *)

(** What the vault asks of [crypto.subtle], taken to be present (a secure
    context): the hash behind PBKDF2, and AES-GCM over raw key bits, an iv
    and data. [aes_gcm_encrypt] returns the ciphertext followed by the tag;
    [aes_gcm_decrypt] returns [None] where [crypto.subtle.decrypt] rejects
    with an OperationError. *)
Class SubtleCrypto : Type := {
  sha256 : list byte -> list byte;
  aes_gcm_encrypt : list byte -> list byte -> list byte -> list byte;
  aes_gcm_decrypt : list byte -> list byte -> list byte -> option (list byte)
}.

(** What the proofs ask of a provider: digests of 32 bytes; under a 256-bit
    key and a 96-bit iv, decryption undoes encryption and the ciphertext is
    the plaintext's length plus a 128-bit tag. (AES-GCM bounds the length of
    a plaintext far above what a buffer holds; the bound is left out.) *)
Class SubtleCryptoLaws (C : SubtleCrypto) : Prop := {
  sha256_length : forall msg, length (sha256 msg) = 32%nat;
  gcm_decrypt_encrypt : forall key iv pt,
    length key = 32%nat -> length iv = 12%nat ->
    aes_gcm_decrypt key iv (aes_gcm_encrypt key iv pt) = Some pt;
  gcm_tag_length : forall key iv pt,
    length key = 32%nat -> length iv = 12%nat ->
    length (aes_gcm_encrypt key iv pt) = (length pt + 16)%nat
}.

(** What AES-GCM's check of the tag gives for keys of 256 bits and ivs of
    96 bits. What is accepted is the ciphertext and tag that encryption
    makes, under the same key and iv, of the plaintext returned; a
    ciphertext has one tag (the tag is computed from the key, the iv and the
    ciphertext), and a ciphertext with its tag has one iv (the tag holds the
    encryption of a block made from the iv, and the block cipher is a
    permutation). *)
Class GcmAuthentic (C : SubtleCrypto) : Prop := {
  gcm_genuine : forall key iv data pt,
    length key = 32%nat -> length iv = 12%nat ->
    aes_gcm_decrypt key iv data = Some pt ->
    data = aes_gcm_encrypt key iv pt;
  gcm_one_tag : forall key iv body t t',
    length key = 32%nat -> length iv = 12%nat ->
    length t = 16%nat -> length t' = 16%nat ->
    aes_gcm_decrypt key iv (body ++ t) <> None ->
    aes_gcm_decrypt key iv (body ++ t') <> None ->
    t = t';
  gcm_one_iv : forall key iv iv' data,
    length key = 32%nat -> length iv = 12%nat -> length iv' = 12%nat ->
    aes_gcm_decrypt key iv data <> None ->
    aes_gcm_decrypt key iv' data <> None ->
    iv = iv'
}.

(** ** The engine *)

(** The number of arguments a call can take. The language sets no bound;
    every engine has one, and a call with more arguments (here the spread of
    a buffer) throws a RangeError. The engines in use take 65535 arguments;
    [headroom] is what this one takes above that. *)
Class Engine : Type := { headroom : N }.

Definition max_arguments {E : Engine} : N := 65535 + headroom.

(** The secure random source: the bytes it will deliver, in order. *)
Definition entropy : Type := nat -> byte.

(** [crypto.getRandomValues(new Uint8Array(n))] *)
Definition getRandomValues (n : nat) (e : entropy) : list byte * entropy :=
  (map e (seq 0 n), fun i => e (n + i)%nat).

(** ** PBKDF2 with HMAC (RFC 8018, RFC 2104) over the provider's hash *)

Module Kdf.
Section WithProvider.
Context {C : SubtleCrypto}.

Definition block_size : nat := 64.
Definition hash_size : nat := 32.

(** The key of HMAC as one block: a key longer than a block is hashed
    first, and the key is then filled with zero bytes. *)
Definition hmac_key (key : list byte) : list byte :=
  let k := if (block_size <? length key)%nat then sha256 key else key in
  k ++ Bytes.zeros (block_size - length k).

Definition hmac (key msg : list byte) : list byte :=
  let k0 := hmac_key key in
  sha256 (map (Bytes.xor x5c) k0 ++ sha256 (map (Bytes.xor x36) k0 ++ msg)).

(** The block index as four bytes, most significant first. *)
Definition int32be (i : Z) : list byte :=
  [Bytes.of_Z (i / 16777216); Bytes.of_Z (i / 65536); Bytes.of_Z (i / 256);
   Bytes.of_Z i].

(** One round: the next U and the running exclusive or. *)
Definition round (password : list byte) (tu : list byte * list byte)
  : list byte * list byte :=
  let u' := hmac password (snd tu) in (zip_with Bytes.xor (fst tu) u', u').

(** Block [i] of the derived key: U1 xor ... xor Uc. *)
Definition block (password salt : list byte) (c : N) (i : Z) : list byte :=
  let u1 := hmac password (salt ++ int32be i) in
  fst (N.iter (c - 1) (round password) (u1, u1)).

Definition pbkdf2 (password salt : list byte) (c : N) (dkLen : nat) : list byte :=
  take dkLen
    (flat_map (fun i => block password salt c (Z.of_nat i))
       (seq 1 ((dkLen + hash_size - 1) / hash_size))).

End WithProvider.
End Kdf.

(** ** The vault: [src/lib/crypto.ts] *)

Module Vault.
Import Json.
Section WithProvider.
Context {C : SubtleCrypto} {E : Engine}.

(** [btoa(String.fromCharCode(...new Uint8Array(buf)))]: every byte of the
    buffer is an argument of [String.fromCharCode], and a buffer of more
    bytes than the engine takes arguments makes the call throw. *)
Definition toBase64 (buf : list byte) : outcome jsstring :=
  if (N.of_nat (length buf) <=? max_arguments)%N
  then Base64.btoa (map Bytes.to_Z buf)
  else Throws RangeError.

(** [atob], then each character code stored in a [Uint8Array]. *)
Definition fromBase64 (b64 : jsstring) : outcome (list byte) :=
  str ← Base64.atob b64; mret (map Bytes.of_Z str).

(** PBKDF2, SHA-256, 200000 iterations, a 256-bit AES-GCM key; the key is
    its raw bits. There is no check on the salt. *)
Definition deriveKey (password : jsstring) (salt : list byte) : outcome (list byte) :=
  let pwKey := Utf8.encode password in
  Returns (Kdf.pbkdf2 pwKey salt 200000 32).

(** The object [{ v: 1, salt, iv, data }]. *)
Definition payload (salt iv data : jsstring) : json :=
  JObj [(js "v", JNum 1 0); (js "salt", JStr salt); (js "iv", JStr iv);
        (js "data", JStr data)].

Definition stringified (v : json) : outcome jsstring :=
  match stringify v with
  | Some text => Returns text
  | None => Unmodelled
  end.

Definition encryptText (plain password : jsstring) (e : entropy)
  : outcome jsstring * entropy :=
  let '(salt, e1) := getRandomValues 16 e in
  let '(iv, e2) := getRandomValues 12 e1 in
  (key ← deriveKey password salt;
   let cipher := aes_gcm_encrypt key iv (Utf8.encode plain) in
   s ← toBase64 salt;
   i ← toBase64 iv;
   d ← toBase64 cipher;
   stringified (payload s i d),
   e2).

(** [!x] for a property that may be missing: [undefined] is falsy. *)
Definition not_ (x : option json) : option bool :=
  match x with
  | None => Some true
  | Some v => negb <$> truthy v
  end.

(** The argument of [atob], converted to a string. *)
Definition base64_arg (x : option json) : outcome jsstring :=
  match x with
  | None => Returns (js "undefined")
  | Some v =>
      match to_string v with
      | Some s => Returns s
      | None => if stringable v then Unmodelled else Throws TypeError
      end
  end.

(** The guard [!parsed || !parsed.salt || !parsed.iv || !parsed.data],
    left to right: [Some true] when it throws. A parsed value that is not an
    object has none of the three properties. *)
Definition guard (parsed : json) : option bool :=
  match truthy parsed with
  | Some false => Some true
  | _ =>
      match not_ (prop parsed (js "salt")) with
      | Some false =>
          match not_ (prop parsed (js "iv")) with
          | Some false => not_ (prop parsed (js "data"))
          | r => r
          end
      | r => r
      end
  end.

(** Everything after [JSON.parse]. *)
Definition decryptParsed (parsed : json) (password : jsstring) : outcome jsstring :=
  match guard parsed with
  | None => Unmodelled
  | Some true => Throws InvalidEncryptedPayload
  | Some false =>
      salt ← base64_arg (prop parsed (js "salt")) ≫= fromBase64;
      iv ← base64_arg (prop parsed (js "iv")) ≫= fromBase64;
      data ← base64_arg (prop parsed (js "data")) ≫= fromBase64;
      key ← deriveKey password salt;
      match aes_gcm_decrypt key iv data with
      | Some plainBuf => Returns (Utf8.decode plainBuf)
      | None => Throws OperationError
      end
  end.

Definition decryptText (encrypted password : jsstring) : outcome jsstring :=
  parsed ← parse encrypted; decryptParsed parsed password.

End WithProvider.
End Vault.

(** ** The Home page: [src/components/home.tsx] *)

Module Home.
Import Json.

(** The keys of [localStorage]. *)
Definition LAST_RESUME : string := "resume_wizard_last_resume".
Definition API_KEY_ENC : string := "resume_wizard_api_key_enc".
Definition PERSISTENCE : string := "resume_wizard_persistence".

(** A [File]: the parts it was made from and its name, as given. *)
Record File : Type := { file_content : json; file_name : option json }.

(** The state of the component that the storage and key handlers touch.
    [null] is [JNull] for [lastSavedResume] and [None] for the others. *)
Record State : Type := {
  resumeFile : option File;
  lastSavedResume : json;
  persistEnabled : bool;
  apiKey : jsstring;
  encryptedApiKey : option jsstring;
  passphrase : jsstring;
  isApiUnlocked : bool;
  originalContent : json
}.

(** The values of [useState]. *)
Definition initial : State := {|
  resumeFile := None;
  lastSavedResume := JNull;
  persistEnabled := true;
  apiKey := [];
  encryptedApiKey := None;
  passphrase := [];
  isApiUnlocked := false;
  originalContent := JStr []
|}.

Definition setResumeFile (x : option File) (s : State) : State :=
  {| resumeFile := x; lastSavedResume := lastSavedResume s;
     persistEnabled := persistEnabled s; apiKey := apiKey s;
     encryptedApiKey := encryptedApiKey s; passphrase := passphrase s;
     isApiUnlocked := isApiUnlocked s; originalContent := originalContent s |}.

Definition setLastSavedResume (x : json) (s : State) : State :=
  {| resumeFile := resumeFile s; lastSavedResume := x;
     persistEnabled := persistEnabled s; apiKey := apiKey s;
     encryptedApiKey := encryptedApiKey s; passphrase := passphrase s;
     isApiUnlocked := isApiUnlocked s; originalContent := originalContent s |}.

Definition setPersistEnabled (x : bool) (s : State) : State :=
  {| resumeFile := resumeFile s; lastSavedResume := lastSavedResume s;
     persistEnabled := x; apiKey := apiKey s;
     encryptedApiKey := encryptedApiKey s; passphrase := passphrase s;
     isApiUnlocked := isApiUnlocked s; originalContent := originalContent s |}.

Definition setApiKey (x : jsstring) (s : State) : State :=
  {| resumeFile := resumeFile s; lastSavedResume := lastSavedResume s;
     persistEnabled := persistEnabled s; apiKey := x;
     encryptedApiKey := encryptedApiKey s; passphrase := passphrase s;
     isApiUnlocked := isApiUnlocked s; originalContent := originalContent s |}.

Definition setEncryptedApiKey (x : option jsstring) (s : State) : State :=
  {| resumeFile := resumeFile s; lastSavedResume := lastSavedResume s;
     persistEnabled := persistEnabled s; apiKey := apiKey s;
     encryptedApiKey := x; passphrase := passphrase s;
     isApiUnlocked := isApiUnlocked s; originalContent := originalContent s |}.

Definition setPassphrase (x : jsstring) (s : State) : State :=
  {| resumeFile := resumeFile s; lastSavedResume := lastSavedResume s;
     persistEnabled := persistEnabled s; apiKey := apiKey s;
     encryptedApiKey := encryptedApiKey s; passphrase := x;
     isApiUnlocked := isApiUnlocked s; originalContent := originalContent s |}.

Definition setIsApiUnlocked (x : bool) (s : State) : State :=
  {| resumeFile := resumeFile s; lastSavedResume := lastSavedResume s;
     persistEnabled := persistEnabled s; apiKey := apiKey s;
     encryptedApiKey := encryptedApiKey s; passphrase := passphrase s;
     isApiUnlocked := x; originalContent := originalContent s |}.

Definition setOriginalContent (x : json) (s : State) : State :=
  {| resumeFile := resumeFile s; lastSavedResume := lastSavedResume s;
     persistEnabled := persistEnabled s; apiKey := apiKey s;
     encryptedApiKey := encryptedApiKey s; passphrase := passphrase s;
     isApiUnlocked := isApiUnlocked s; originalContent := x |}.

(** The calls of [alert], by their text; a caught error keeps its kind. *)
Inductive alert : Type :=
| EnterApiKeyFirst            (* Enter your API key first *)
| EnterPassphraseToEncrypt    (* Enter a passphrase to encrypt the key *)
| KeyEncryptedAndSaved        (* API key encrypted and saved locally *)
| FailedToEncryptAndSave (e : exn)
| EnterPassphraseToUnlock     (* Enter your passphrase to unlock *)
| FailedToDecrypt (e : exn)   (* Failed to decrypt key: ... *)
| EnterPassphraseToReencrypt  (* Enter your passphrase to re-encrypt *)
| KeySaved                    (* API key saved *)
| FailedToEncrypt (e : exn).

(** The page and what it acts on. [alerts] has the latest first. *)
Record World : Type := {
  state : State;
  storage : gmap string jsstring;
  alerts : list alert;
  random : entropy
}.

Definition update (f : State -> State) (w : World) : World :=
  {| state := f (state w); storage := storage w; alerts := alerts w;
     random := random w |}.

Definition getItem (k : string) (w : World) : option jsstring :=
  storage w !! k.

Definition setItem (k : string) (v : jsstring) (w : World) : World :=
  {| state := state w; storage := <[k := v]> (storage w); alerts := alerts w;
     random := random w |}.

Definition removeItem (k : string) (w : World) : World :=
  {| state := state w; storage := delete k (storage w); alerts := alerts w;
     random := random w |}.

Definition say (a : alert) (w : World) : World :=
  {| state := state w; storage := storage w; alerts := a :: alerts w;
     random := random w |}.

Definition setRandom (e : entropy) (w : World) : World :=
  {| state := state w; storage := storage w; alerts := alerts w; random := e |}.

(** A string or [null] used as a condition. *)
Definition nonempty (x : option jsstring) : bool :=
  match x with
  | Some (_ :: _) => true
  | _ => false
  end.

Definition is_empty (s : jsstring) : bool :=
  match s with [] => true | _ :: _ => false end.

(** Whether React puts a value on the page as a child: text and numbers
    are shown, [null] and booleans are left out, an array is shown element
    by element, and an object throws (objects are not valid as a React
    child). *)
Fixpoint child (v : json) : bool :=
  match v with
  | JObj _ => false
  | JArr elems =>
      (fix all (l : list json) : bool :=
         match l with
         | [] => true
         | x :: r => child x && all r
         end) elems
  | _ => true
  end.

(** Whether the page renders in a state. The card of the last saved resume
    has [lastSavedResume.name] as a child and makes a [Date] of
    [lastSavedResume.savedAt], which converts an object to a primitive;
    everything else that is shown is a string or a number. A render that
    throws takes the page down: there is no error boundary. *)
Definition renders (s : State) : bool :=
  match truthy (lastSavedResume s) with
  | Some true =>
      match prop (lastSavedResume s) (js "name") with
      | Some name => child name
      | None => true
      end
      && match prop (lastSavedResume s) (js "savedAt") with
         | Some savedAt => stringable savedAt
         | None => true
         end
  | _ => true
  end.

Section WithProvider.
Context {C : SubtleCrypto} {E : Engine}.

(** [handleFileUpload] up to [reader.readAsText(file)]. *)
Definition chooseFile (name text : jsstring) (w : World) : World :=
  update (setResumeFile (Some {| file_content := JStr text;
                                 file_name := Some (JStr name) |})) w.

(** [reader.onload], which runs when the file has been read: [persist] is
    the [persistEnabled] of the render whose handler took the file, [now]
    the time. *)
Definition onload (name text : jsstring) (persist : bool) (now : Z)
    (w : World) : option World :=
  let w2 := update (setOriginalContent (JStr text)) w in
  if persist then
    let item := JObj [(js "name", JStr name); (js "content", JStr text);
                      (js "savedAt", JNum now 0)] in
    text' ← stringify item;
    Some (update (setLastSavedResume item) (setItem LAST_RESUME text' w2))
  else Some w2.

(** [handleFileUpload] with the reader done before anything else happens:
    the chosen file, if any, its text and the time. *)
Definition handleFileUpload (file : option (jsstring * jsstring)) (now : Z)
    (w : World) : option World :=
  match file with
  | None => Some w
  | Some (name, text) =>
      onload name text (persistEnabled (state w)) now (chooseFile name text w)
  end.

(** [new File([content], name)] converts both to strings and throws when a
    conversion does. *)
Definition makesFile (content : json) (name : option json) : bool :=
  stringable content
  && match name with Some n => stringable n | None => true end.

(** The saved resume part of the load effect: [None] when [JSON.parse]
    throws and the effect's [catch] ends it, [Some None] for a condition
    the model leaves undecided (there is none: every value is truthy or
    falsy). *)
Definition loadResume (w : World) : option (option World) :=
  match getItem LAST_RESUME w with
  | Some (c :: raw) =>
      match parse (c :: raw) with
      | Returns parsed =>
          let w1 := update (setLastSavedResume parsed) w in
          match resumeFile (state w), truthy parsed with
          | None, Some true =>
              match prop parsed (js "content") with
              | Some content =>
                  match truthy content with
                  | Some true =>
                      let name := prop parsed (js "name") in
                      Some (Some
                        (update (setOriginalContent content)
                           (if makesFile content name
                            then update (setResumeFile
                                   (Some {| file_content := content;
                                            file_name := name |})) w1
                            else w1)))
                  | Some false => Some (Some w1)
                  | None => Some None
                  end
              | None => Some (Some w1)
              end
          | _, _ => Some (Some w1)
          end
      | Throws _ => None
      | Unmodelled => Some None
      end
  | _ => Some (Some w)
  end.

(** The effect that runs once when the page is mounted. *)
Definition loadEffect (w : World) : option World :=
  let shouldPersist :=
    match getItem PERSISTENCE w with
    | None => true
    | Some rawPersist => eqb rawPersist (js "1")
    end in
  let w1 := update (setPersistEnabled shouldPersist) w in
  if negb shouldPersist then Some w1
  else
    match loadResume w1 with
    | None => Some w1
    | Some None => None
    | Some (Some w2) =>
        match getItem API_KEY_ENC w2 with
        | Some (c :: storedEnc) =>
            Some (update (setIsApiUnlocked false)
                    (update (setApiKey [])
                       (update (setEncryptedApiKey (Some (c :: storedEnc))) w2)))
        | _ => Some w2
        end
    end.

(** A page load: the state starts from [useState]'s values, the storage is
    what the last session left, the effect runs and the page renders what
    it set. [None] when that render throws and the page is gone. *)
Definition reload (w : World) : option World :=
  w' ← loadEffect {| state := initial; storage := storage w; alerts := [];
                     random := random w |};
  if renders (state w') then Some w' else None.

Definition clearLastSavedResume (w : World) : World :=
  update (setOriginalContent (JStr []))
    (update (setResumeFile None)
       (update (setLastSavedResume JNull)
          (removeItem API_KEY_ENC (removeItem LAST_RESUME w)))).

(** Encrypt & Save Key after its [await]: [r] is how [encryptText]
    settled. *)
Definition encryptAndSaveThen (r : outcome jsstring) (w : World)
  : option World :=
  match r with
  | Returns enc =>
      Some (say KeyEncryptedAndSaved
              (update (setIsApiUnlocked true)
                 (update (setEncryptedApiKey (Some enc))
                    (setItem API_KEY_ENC enc w))))
  | Throws err => Some (say (FailedToEncryptAndSave err) w)
  | Unmodelled => None
  end.

(** The button Encrypt & Save Key, with nothing happening while it waits. *)
Definition encryptAndSave (w : World) : option World :=
  let s := state w in
  if is_empty (apiKey s) then Some (say EnterApiKeyFirst w)
  else if is_empty (passphrase s) then Some (say EnterPassphraseToEncrypt w)
  else
    let '(r, e) := Vault.encryptText (apiKey s) (passphrase s) (random w) in
    encryptAndSaveThen r (setRandom e w).

(** Unlock Saved Key after its [await]: [r] is how [decryptText] settled. *)
Definition unlockThen (r : outcome jsstring) (w : World) : option World :=
  match r with
  | Returns plain =>
      Some (update (setIsApiUnlocked true) (update (setApiKey plain) w))
  | Throws err => Some (say (FailedToDecrypt err) w)
  | Unmodelled => None
  end.

(** The button Unlock Saved Key, with nothing happening while it waits. *)
Definition unlock (w : World) : option World :=
  let s := state w in
  if is_empty (passphrase s) then Some (say EnterPassphraseToUnlock w)
  else
    match encryptedApiKey s with
    | Some enc => unlockThen (Vault.decryptText enc (passphrase s)) w
    | None => None
    end.

(** The button Clear Encrypted Key (both of them). *)
Definition clearEncryptedKey (w : World) : World :=
  update (setApiKey [])
    (update (setIsApiUnlocked false)
       (update (setEncryptedApiKey None) (removeItem API_KEY_ENC w))).

(** Save Encrypted after its [await]. *)
Definition saveEncryptedThen (r : outcome jsstring) (w : World)
  : option World :=
  match r with
  | Returns enc =>
      Some (say KeySaved
              (update (setEncryptedApiKey (Some enc))
                 (setItem API_KEY_ENC enc w)))
  | Throws err => Some (say (FailedToEncrypt err) w)
  | Unmodelled => None
  end.

(** The button Save Encrypted, with nothing happening while it waits. *)
Definition saveEncrypted (w : World) : option World :=
  let s := state w in
  if is_empty (passphrase s) then Some (say EnterPassphraseToReencrypt w)
  else
    let '(r, e) := Vault.encryptText (apiKey s) (passphrase s) (random w) in
    saveEncryptedThen r (setRandom e w).

(** The checkbox Enable local persistence. *)
Definition togglePersist (v : bool) (w : World) : World :=
  let w1 := update (setPersistEnabled v) w in
  if v then setItem PERSISTENCE (js "1") w1
  else
    update (setLastSavedResume JNull)
      (removeItem API_KEY_ENC
         (removeItem LAST_RESUME (setItem PERSISTENCE (js "0") w1))).

(** What the user can do to the storage and the key. An upload comes with
    the time at which its reader is done. *)
Inductive event : Type :=
| TypeApiKey (s : jsstring)
| TypePassphrase (s : jsstring)
| Upload (file : option (jsstring * jsstring)) (now : Z)
| ClearSaved
| EncryptAndSave
| ClearKey
| Unlock
| ClearEncryptedKey
| SaveEncrypted
| TogglePersist (v : bool).

(** Whether the control of an event is on the page. *)
Definition shown (ev : event) (s : State) : bool :=
  match ev with
  | ClearSaved =>
      match truthy (lastSavedResume s) with Some true => true | _ => false end
  | EncryptAndSave | ClearKey => negb (nonempty (encryptedApiKey s))
  | Unlock => nonempty (encryptedApiKey s) && negb (isApiUnlocked s)
  | ClearEncryptedKey => nonempty (encryptedApiKey s)
  | SaveEncrypted => nonempty (encryptedApiKey s) && isApiUnlocked s
  | TypeApiKey _ | TypePassphrase _ | Upload _ _ | TogglePersist _ => true
  end.

(** An event with what it waits for settled before anything else happens. *)
Definition handle (ev : event) (w : World) : option World :=
  match ev with
  | TypeApiKey s => Some (update (setApiKey s) w)
  | TypePassphrase s => Some (update (setPassphrase s) w)
  | Upload file now => handleFileUpload file now w
  | ClearSaved => Some (clearLastSavedResume w)
  | EncryptAndSave => encryptAndSave w
  | ClearKey => Some (update (setApiKey []) w)
  | Unlock => unlock w
  | ClearEncryptedKey => Some (clearEncryptedKey w)
  | SaveEncrypted => saveEncrypted w
  | TogglePersist v => Some (togglePersist v w)
  end.

(** One event on the page: [None] when its control is not shown or the
    model does not decide the outcome. *)
Definition fire (ev : event) (w : World) : option World :=
  if shown ev (state w) then handle ev w else None.

Fixpoint run (evs : list event) (w : World) : option World :=
  match evs with
  | [] => Some w
  | ev :: evs' => w' ← fire ev w; run evs' w'
  end.

(** *** Events while a handler waits *)

(** What the page waits for: a reader at work on a chosen file, with the
    [persistEnabled] its [onload] holds and the time it will be done; a call
    of the vault made by one of the three buttons, with how it will settle
    (the call has read its arguments and drawn its random bytes). *)
Inductive task : Type :=
| Reading (name text : jsstring) (persist : bool) (now : Z)
| SavingKey (r : outcome jsstring)
| Unlocking (r : outcome jsstring)
| Reencrypting (r : outcome jsstring).

(** An event up to the point where its handler waits, and what it waits
    for; an event that waits for nothing is handled whole. *)
Definition start (ev : event) (w : World) : option (World * list task) :=
  let s := state w in
  match ev with
  | Upload (Some (name, text)) now =>
      Some (chooseFile name text w, [Reading name text (persistEnabled s) now])
  | EncryptAndSave =>
      if is_empty (apiKey s) then Some (say EnterApiKeyFirst w, [])
      else if is_empty (passphrase s)
      then Some (say EnterPassphraseToEncrypt w, [])
      else
        let '(r, e) := Vault.encryptText (apiKey s) (passphrase s) (random w) in
        Some (setRandom e w, [SavingKey r])
  | Unlock =>
      if is_empty (passphrase s) then Some (say EnterPassphraseToUnlock w, [])
      else
        match encryptedApiKey s with
        | Some enc => Some (w, [Unlocking (Vault.decryptText enc (passphrase s))])
        | None => None
        end
  | SaveEncrypted =>
      if is_empty (passphrase s)
      then Some (say EnterPassphraseToReencrypt w, [])
      else
        let '(r, e) := Vault.encryptText (apiKey s) (passphrase s) (random w) in
        Some (setRandom e w, [Reencrypting r])
  | _ => w' ← handle ev w; Some (w', [])
  end.

(** The rest of a handler, when what it waited for is there. *)
Definition settle (t : task) (w : World) : option World :=
  match t with
  | Reading name text persist now => onload name text persist now w
  | SavingKey r => encryptAndSaveThen r w
  | Unlocking r => unlockThen r w
  | Reencrypting r => saveEncryptedThen r w
  end.

(** The page and what it waits for, oldest first. *)
Record Waiting : Type := { page : World; tasks : list task }.

(** What happens next: the user does something, one of the things waited
    for is there (in any order), or the page is loaded again, which drops
    what the old page waited for. *)
Inductive move : Type :=
| Do (ev : event)
| Settle (i : nat)
| Load.

Definition step (m : move) (p : Waiting) : option Waiting :=
  match m with
  | Do ev =>
      if shown ev (state (page p)) then
        '(w, ts) ← start ev (page p);
        Some {| page := w; tasks := tasks p ++ ts |}
      else None
  | Settle i =>
      t ← tasks p !! i;
      w ← settle t (page p);
      Some {| page := w; tasks := delete i (tasks p) |}
  | Load =>
      w ← reload (page p);
      Some {| page := w; tasks := [] |}
  end.

Fixpoint play (ms : list move) (p : Waiting) : option Waiting :=
  match ms with
  | [] => Some p
  | m :: ms' => p' ← step m p; play ms' p'
  end.

End WithProvider.
End Home.

(** ** String methods and the two regular expressions of the pages *)

Module Str.
Local Open Scope Z_scope.

(** WhiteSpace and LineTerminator of ECMAScript, what [trim] removes: tab,
    line feed, vertical tab, form feed, carriage return, the space
    separators of Unicode, the line and paragraph separators, U+FEFF. *)
Definition is_white_space (c : Z) : bool :=
  ((9 <=? c) && (c <=? 13)) || (c =? 0x20) || (c =? 0xA0) || (c =? 0x1680)
  || ((0x2000 <=? c) && (c <=? 0x200A)) || (c =? 0x2028) || (c =? 0x2029)
  || (c =? 0x202F) || (c =? 0x205F) || (c =? 0x3000) || (c =? 0xFEFF).

Fixpoint trim_start (s : jsstring) : jsstring :=
  match s with
  | c :: r => if is_white_space c then trim_start r else s
  | [] => []
  end.

Definition trim_end (s : jsstring) : jsstring := rev (trim_start (rev s)).

(** [s.trim()] *)
Definition trim (s : jsstring) : jsstring := trim_end (trim_start s).

(** [s.split(sep)] for a separator of one code unit: the fields between the
    separators, one more than there are separators. *)
Fixpoint split (sep : Z) (s : jsstring) : list jsstring :=
  match s with
  | [] => [[]]
  | c :: r =>
      if c =? sep then [] :: split sep r
      else
        match split sep r with
        | field :: fields => (c :: field) :: fields
        | [] => [[c]]
        end
  end.

(** [s.startsWith(p)] *)
Fixpoint starts_with (p s : jsstring) : bool :=
  match p, s with
  | [], _ => true
  | x :: p', y :: s' => (x =? y) && starts_with p' s'
  | _ :: _, [] => false
  end.

(** [s.includes(p)] *)
Fixpoint includes (p s : jsstring) : bool :=
  starts_with p s
  || match s with
     | [] => false
     | _ :: s' => includes p s'
     end.

(** [s.replace(/lit opt?/g, '')], for a literal [lit] that is not empty
    followed by one optional code unit [opt]: the matches are found from the
    left, each takes the optional unit when it is there, and the search goes
    on behind the match. [skip] counts the units of the current match that
    are still to be dropped. *)
Fixpoint remove_from (lit : jsstring) (opt : Z) (skip : nat) (s : jsstring)
  : jsstring :=
  match s with
  | [] => []
  | c :: r =>
      match skip with
      | S k => remove_from lit opt k r
      | O =>
          if starts_with lit s then
            let n := length lit in
            let more := if starts_with [opt] (drop n s) then 1%nat else 0%nat in
            remove_from lit opt (n - 1 + more) r
          else c :: remove_from lit opt 0 r
      end
  end.

Definition remove_all (lit : jsstring) (opt : Z) (s : jsstring) : jsstring :=
  remove_from lit opt 0 s.

(** Canonicalize, as a pattern with the flag [i] and without the flag [u]
    compares code units, on what it does to a unit that is compared with an
    ASCII unit: a lowercase ASCII letter is its capital; a unit outside
    ASCII never becomes an ASCII one. *)
Definition canonicalize (c : Z) : Z :=
  if (97 <=? c) && (c <=? 122) then c - 32 else c.

Fixpoint starts_with_ci (p s : jsstring) : bool :=
  match p, s with
  | [], _ => true
  | x :: p', y :: s' => (canonicalize x =? canonicalize y) && starts_with_ci p' s'
  | _ :: _, [] => false
  end.

(** [/lit/i.test(s)] for an ASCII literal [lit]. *)
Fixpoint test_ci (lit s : jsstring) : bool :=
  starts_with_ci lit s
  || match s with
     | [] => false
     | _ :: s' => test_ci lit s'
     end.

(** Lines joined by line feeds, as a template literal has them. *)
Fixpoint lines (l : list jsstring) : jsstring :=
  match l with
  | [] => []
  | [x] => x
  | x :: r => x ++ 10 :: lines r
  end.

End Str.

(** ** Tailoring: [handleTailorResume] of [src/components/home.tsx] *)

Module Tailor.
Import Json.
Local Open Scope Z_scope.

Inductive strength : Type := Light | Medium | Strong.

(** The state of the component that the key and storage handlers leave
    alone. *)
Record Form : Type := {
  jobDescription : jsstring;
  jobUrl : jsstring;
  isProcessing : bool;
  progress : Z;
  extractedSkills : list jsstring;
  tailoredContent : jsstring;
  showEditor : bool;
  tailoringStrength : strength
}.

(** The values of [useState]. *)
Definition initial : Form := {|
  jobDescription := [];
  jobUrl := [];
  isProcessing := false;
  progress := 0;
  extractedSkills := [];
  tailoredContent := [];
  showEditor := false;
  tailoringStrength := Medium
|}.

(** What a call into the Gemini client throws: an [Error] with its message,
    or something that is not an [Error]. *)
Inductive thrown : Type :=
| ErrorWith (message : jsstring)
| NotAnError.

Inductive reply : Type :=
| Text (t : jsstring)     (* [result.response.text()] *)
| Fails (t : thrown).

(** The service as the handler meets it: whether making the client and the
    model object throws, and the replies to the calls of [generateContent],
    in order. Which model answers is chosen by the listing of lines 161 to
    192 ([Listing] below), whose own errors are caught there; it decides who
    the replies come from, not what the handler does with them. *)
Record Service : Type := {
  setup : option thrown;
  replies : nat -> reply
}.

(** The page as tailoring sees it: the whole state, the texts of the calls
    of [alert] and the prompts handed to [generateContent], latest first. *)
Record Page : Type := {
  home : Home.State;
  form : Form;
  said : list jsstring;
  sent : list jsstring
}.

Definition say (text : jsstring) (p : Page) : Page :=
  {| home := home p; form := form p; said := text :: said p; sent := sent p |}.

Definition send (prompt : jsstring) (p : Page) : Page :=
  {| home := home p; form := form p; said := said p; sent := prompt :: sent p |}.

Definition update (f : Form -> Form) (p : Page) : Page :=
  {| home := home p; form := f (form p); said := said p; sent := sent p |}.

Definition setJobDescription (x : jsstring) (f : Form) : Form :=
  {| jobDescription := x; jobUrl := jobUrl f;
     isProcessing := isProcessing f; progress := progress f;
     extractedSkills := extractedSkills f; tailoredContent := tailoredContent f;
     showEditor := showEditor f; tailoringStrength := tailoringStrength f |}.

Definition setJobUrl (x : jsstring) (f : Form) : Form :=
  {| jobDescription := jobDescription f; jobUrl := x;
     isProcessing := isProcessing f; progress := progress f;
     extractedSkills := extractedSkills f; tailoredContent := tailoredContent f;
     showEditor := showEditor f; tailoringStrength := tailoringStrength f |}.

Definition setIsProcessing (x : bool) (f : Form) : Form :=
  {| jobDescription := jobDescription f; jobUrl := jobUrl f;
     isProcessing := x; progress := progress f;
     extractedSkills := extractedSkills f; tailoredContent := tailoredContent f;
     showEditor := showEditor f; tailoringStrength := tailoringStrength f |}.

Definition setProgress (x : Z) (f : Form) : Form :=
  {| jobDescription := jobDescription f; jobUrl := jobUrl f;
     isProcessing := isProcessing f; progress := x;
     extractedSkills := extractedSkills f; tailoredContent := tailoredContent f;
     showEditor := showEditor f; tailoringStrength := tailoringStrength f |}.

Definition setExtractedSkills (x : list jsstring) (f : Form) : Form :=
  {| jobDescription := jobDescription f; jobUrl := jobUrl f;
     isProcessing := isProcessing f; progress := progress f;
     extractedSkills := x; tailoredContent := tailoredContent f;
     showEditor := showEditor f; tailoringStrength := tailoringStrength f |}.

Definition setTailoredContent (x : jsstring) (f : Form) : Form :=
  {| jobDescription := jobDescription f; jobUrl := jobUrl f;
     isProcessing := isProcessing f; progress := progress f;
     extractedSkills := extractedSkills f; tailoredContent := x;
     showEditor := showEditor f; tailoringStrength := tailoringStrength f |}.

Definition setShowEditor (x : bool) (f : Form) : Form :=
  {| jobDescription := jobDescription f; jobUrl := jobUrl f;
     isProcessing := isProcessing f; progress := progress f;
     extractedSkills := extractedSkills f; tailoredContent := tailoredContent f;
     showEditor := x; tailoringStrength := tailoringStrength f |}.

Definition setTailoringStrength (x : strength) (f : Form) : Form :=
  {| jobDescription := jobDescription f; jobUrl := jobUrl f;
     isProcessing := isProcessing f; progress := progress f;
     extractedSkills := extractedSkills f; tailoredContent := tailoredContent f;
     showEditor := showEditor f; tailoringStrength := x |}.

(** [resumeFile || originalContent] as a condition; [None] when the model
    does not decide whether [originalContent] is truthy. *)
Definition hasResume (s : Home.State) : option bool :=
  match Home.resumeFile s with
  | Some _ => Some true
  | None => truthy (Home.originalContent s)
  end.

(** [!jobDescription && !jobUrl] *)
Definition noJob (f : Form) : bool :=
  Home.is_empty (jobDescription f) && Home.is_empty (jobUrl f).

(** The attribute [disabled] of the button Tailor Resume with AI. *)
Definition disabled (p : Page) : option bool :=
  if isProcessing (form p) then Some true
  else
    match hasResume (home p) with
    | Some true => Some (noJob (form p))
    | Some false => Some true
    | None => None
    end.

(** The ten first skills of the reply: its fields between commas, trimmed,
    the empty ones left out. *)
Definition skills (skillsText : jsstring) : list jsstring :=
  take 10
    (List.filter (fun s => negb (Home.is_empty s))
       (map Str.trim (Str.split 44 skillsText))).

Definition fence : jsstring := js "```".

(** The reply with its Markdown fences taken out, when it starts with one. *)
Definition cleaned (tailoredTex : jsstring) : jsstring :=
  let cleanedTex := Str.trim tailoredTex in
  if Str.starts_with fence cleanedTex
  then Str.remove_all fence 10 (Str.remove_all (js "```latex") 10 cleanedTex)
  else cleanedTex.

Definition skillsPrompt (jobDescription : jsstring) : jsstring :=
  js "Extract the key skills, technologies, and requirements from this job description. Return ONLY a comma-separated list of skills, nothing else:"
  ++ 10 :: 10 :: jobDescription.

Definition strengthInstructions (s : strength) : jsstring :=
  match s with
  | Light =>
      js "Make minimal, subtle changes to better align with the job requirements. Keep most of the original content intact."
  | Medium =>
      js "Make moderate changes to highlight relevant experience and skills. Reword bullet points to match job requirements while maintaining authenticity."
  | Strong =>
      js "Significantly optimize the resume for ATS and job requirements. Rewrite sections to strongly emphasize matching qualifications and use keywords from the job description."
  end.

Definition tailorPrompt (jobDescription originalContent : jsstring)
    (s : strength) : jsstring :=
  Str.lines
    [js "You are an expert resume writer specializing in ATS-friendly resumes. ";
     [];
     js "JOB DESCRIPTION:";
     jobDescription;
     [];
     js "ORIGINAL RESUME (LaTeX):";
     originalContent;
     [];
     js "INSTRUCTIONS:";
     strengthInstructions s;
     [];
     js "Your task:";
     js "1. Analyze the job description and identify key requirements, skills, and keywords";
     js "2. Modify the ORIGINAL resume to better match the job requirements";
     js "3. Make it ATS-friendly by incorporating relevant keywords naturally";
     js "4. Maintain the LaTeX formatting and structure from the original";
     js "5. Keep all personal information (name, contact, etc.) exactly as in the original";
     js "6. Return ONLY the modified LaTeX code, nothing else - no explanations, no markdown formatting";
     [];
     js "IMPORTANT: Return the complete LaTeX document with all sections, properly formatted."].

(** The [catch] of the handler. *)
Definition failed (t : thrown) (p : Page) : Page :=
  let message :=
    match t with
    | ErrorWith m => m
    | NotAnError =>
        js "Failed to tailor resume. Please check your API key and try again."
    end in
  update (setProgress 0)
    (update (setIsProcessing false) (say (js "Error: " ++ message) p)).

(** [handleTailorResume], from the click to the end of the handler. The
    values of [progress] and [isProcessing] in between (10, 20, 40, 60) are
    written over before the handler ends. *)
Definition handleTailorResume (svc : Service) (p : Page) : option Page :=
  if noJob (form p)
  then Some (say (js "Please provide a job description or URL") p)
  else
    has ← hasResume (home p);
    if negb has then Some (say (js "Please upload your resume") p)
    else if Home.is_empty (Home.apiKey (home p))
    then Some (say (js "Please provide your Gemini API key in Settings") p)
    else
      match setup svc with
      | Some t => Some (failed t p)
      | None =>
          let p1 := send (skillsPrompt (jobDescription (form p))) p in
          match replies svc 0 with
          | Fails t => Some (failed t p1)
          | Text skillsText =>
              let p2 := update (setExtractedSkills (skills skillsText)) p1 in
              originalContent ← to_string (Home.originalContent (home p));
              let p3 :=
                send (tailorPrompt (jobDescription (form p)) originalContent
                        (tailoringStrength (form p))) p2 in
              match replies svc 1 with
              | Fails t => Some (failed t p3)
              | Text tailoredTex =>
                  Some (update (setShowEditor true)
                          (update (setIsProcessing false)
                             (update (setProgress 100)
                                (update (setTailoredContent (cleaned tailoredTex))
                                   p3))))
              end
          end
      end.

(** A click on the button: [None] when the button is disabled or the editor
    is shown in place of the page. *)
Definition click (svc : Service) (p : Page) : option Page :=
  if showEditor (form p) then None
  else
    match disabled p with
    | Some false => handleTailorResume svc p
    | _ => None
    end.

End Tailor.

(** ** The choice of the model: lines 161 to 192 of [handleTailorResume] *)

Module Listing.
Import Json.
Local Open Scope Z_scope.

(** A value of the listing, which is typed [any]: [None] is [undefined]. *)
Definition value : Type := option json.

(** What an expression inside the [try] gives: a value; an error thrown,
    whatever it is (the [catch] only logs it); or [Undecided] where the
    model does not compute the text or the truth of a number. *)
Inductive attempt (A : Type) : Type :=
| Done (a : A)
| Thrown
| Undecided.
Arguments Done {A} a.
Arguments Thrown {A}.
Arguments Undecided {A}.

#[global] Instance attempt_ret : MRet attempt := fun A a => Done a.
#[global] Instance attempt_bind : MBind attempt := fun A B k m =>
  match m with
  | Done a => k a
  | Thrown => Thrown
  | Undecided => Undecided
  end.

Definition decided {A : Type} (x : option A) : attempt A :=
  match x with
  | Some a => Done a
  | None => Undecided
  end.

(** A condition that may throw, and its two branches. *)
Definition when {A : Type} (c : attempt bool) (yes no : attempt A) : attempt A :=
  match c with
  | Done true => yes
  | Done false => no
  | Thrown => Thrown
  | Undecided => Undecided
  end.

(** ToBoolean *)
Definition truth (v : value) : attempt bool :=
  match v with
  | None => Done false
  | Some j => decided (truthy j)
  end.

(** [m.k], for the keys read here, which no prototype defines: a TypeError
    on [null] and [undefined], [undefined] on anything that is not an
    object. *)
Definition get (m : value) (k : jsstring) : attempt value :=
  match m with
  | None | Some JNull => Thrown
  | Some j => Done (prop j k)
  end.

(** [m.k1 || m.k2] *)
Definition either (m : value) (k1 k2 : jsstring) : attempt value :=
  a ← get m k1;
  when (truth a) (Done a) (get m k2).

(** [m.k1 || m.k2 || last] *)
Definition either_or (m : value) (k1 k2 : jsstring) (last : json)
  : attempt json :=
  a ← either m k1 k2;
  when (truth a)
    (match a with
     | Some j => Done j
     | None => Done last
     end)
    (Done last).

(** [methods.includes(x)]: a search among the elements of an array, for a
    part of a string, and a TypeError on anything else, which has no
    function of that name. *)
Definition includes (methods : json) (x : jsstring) : attempt bool :=
  match methods with
  | JArr elems =>
      Done (existsb (fun e => match e with JStr s => eqb s x | _ => false end)
              elems)
  | JStr s => Done (Str.includes x s)
  | _ => Thrown
  end.

(** The first callback of [find]: a model whose name has [gemini] in it,
    in any case of letters, and that can [generateContent] or
    [generate]. *)
Definition is_gemini (m : json) : attempt bool :=
  name ← either_or (Some m) (js "name") (js "model") (JStr []);
  methods ← either_or (Some m) (js "supportedMethods") (js "methods") (JArr []);
  text ← decided (to_string name);
  if Str.test_ci (js "gemini") text then
    when (includes methods (js "generateContent")) (Done true)
      (includes methods (js "generate"))
  else Done false.

(** The second callback: any model that advertises [generateContent]. *)
Definition generates (m : json) : attempt bool :=
  methods ← either_or (Some m) (js "supportedMethods") (js "methods") (JArr []);
  includes methods (js "generateContent").

(** [arr.find(f)] *)
Fixpoint find (f : json -> attempt bool) (l : list json) : attempt value :=
  match l with
  | [] => Done None
  | m :: r => when (f m) (Done (Some m)) (find f r)
  end.

(** [Array.isArray(listResp) ? listResp
      : (listResp && (listResp.models || listResp.model || []))] *)
Definition modelsArr (listResp : value) : attempt value :=
  match listResp with
  | Some (JArr _) => Done listResp
  | _ =>
      when (truth listResp)
        (arr ← either_or listResp (js "models") (js "model") (JArr []);
         Done (Some arr))
        (Done listResp)
  end.

(** From the reply of [listModels] to the end of the [try]: the new value
    of [chosenModelName]. *)
Definition chosen (listResp : value) (current : value) : attempt value :=
  arr ← modelsArr listResp;
  match arr with
  | Some (JArr (m :: r)) =>
      found ← find is_gemini (m :: r);
      when (truth found) (either found (js "name") (js "model"))
        (anyGen ← find generates (m :: r);
         when (truth anyGen) (either anyGen (js "name") (js "model"))
           (Done current))
  | _ => Done current
  end.

(** The whole block. [listModels] is [None] when the client has no
    function of that name, and else what awaiting its call gives;
    [defaultModelFromEnv] is the model of the environment or
    [gemini-2.5-flash]. The result is [None] where the model does not
    decide. *)
Definition chosenModelName (listModels : option (attempt value))
    (defaultModelFromEnv : jsstring) : option value :=
  let current := Some (JStr defaultModelFromEnv) in
  match listModels with
  | None => Some current
  | Some reply =>
      match listResp ← reply; chosen listResp current with
      | Done v => Some v
      | Thrown => Some current
      | Undecided => None
      end
  end.

End Listing.

(** ** The preview of [src/components/ResumeEditor.tsx] *)

Module Editor.
Local Open Scope Z_scope.

Inductive tab : Type := Tailored | Original.

Record Props : Type := { texCode : jsstring; originalTexCode : jsstring }.

Record State : Type := {
  copied : bool;
  activeTab : tab;
  previewHtml : option jsstring;
  isRendering : bool;
  renderError : option jsstring
}.

(** The values of [useState]. *)
Definition initial : State := {|
  copied := false; activeTab := Tailored; previewHtml := None;
  isRendering := false; renderError := None
|}.

(** latex.js as [renderPreview] meets it, from the import to the HTML: the
    HTML as a string, or the message the [catch] reads off what was
    thrown. *)
Inductive rendering : Type :=
| Html (html : jsstring)
| Failed (msg : jsstring).

Definition source (p : Props) (s : State) : jsstring :=
  match activeTab s with
  | Tailored => texCode p
  | Original => originalTexCode p
  end.

Definition hasBegin (source : jsstring) : bool :=
  Str.test_ci (js "\begin{document}") source.

(** What is handed to the parser: the source, inside a minimal document
    when it has no [\begin{document}]. *)
Definition toRender (source : jsstring) : jsstring :=
  if hasBegin source then source
  else
    Str.lines
      [js "\documentclass{article}"; js "\usepackage[utf8]{inputenc}";
       js "\begin{document}"; source; js "\end{document}"].

Definition errorText (msg : jsstring) : jsstring :=
  if Str.includes (js "Cannot find module") msg
  then js "Missing dependency 'latex.js'. Install with: pnpm add latex.js (or npm install latex.js)"
  else js "Render error: " ++ msg.

(** [renderPreview], from the call to the end of [finally]; [mounted] is
    [mountedRef.current] when the rendering comes back. *)
Definition renderPreview (latex : jsstring -> rendering) (mounted : bool)
    (p : Props) (s : State) : State :=
  let started :=
    {| copied := copied s; activeTab := activeTab s; previewHtml := None;
       isRendering := true; renderError := None |} in
  if mounted then
    match latex (toRender (source p s)) with
    | Html html =>
        {| copied := copied s; activeTab := activeTab s;
           previewHtml := Some html; isRendering := false;
           renderError := None |}
    | Failed msg =>
        {| copied := copied s; activeTab := activeTab s;
           previewHtml := None; isRendering := false;
           renderError := Some (errorText msg) |}
    end
  else started.

End Editor.

(** ** Definitions the properties are stated with *)

Local Open Scope Z_scope.

(** A Unicode scalar value. *)
Definition scalar (cp : Z) : Prop :=
  0 <= cp < 0x110000 /\ ~ (0xD800 <= cp <= 0xDFFF).

(** A UTF-16 code unit: what an element of a JavaScript string is. *)
Definition unit_range (c : Z) : Prop := 0 <= c < 0x10000.

(** Six bits, and eight. *)
Definition sextet (i : Z) : Prop := 0 <= i < 64.
Definition octet (z : Z) : Prop := 0 <= z < 256.

(** The characters base64 text is made of: none needs a JSON escape. *)
Definition b64char (c : Z) : Prop := 43 <= c <= 122 /\ c <> 92.

(** The encoding without its padding, and the padding. *)
Fixpoint encode_body (s : list Z) : jsstring :=
  match s with
  | [] => []
  | [a] => [Base64.alphabet (a / 4); Base64.alphabet (a mod 4 * 16)]
  | [a; b] =>
      [Base64.alphabet (a / 4); Base64.alphabet (a mod 4 * 16 + b / 16);
       Base64.alphabet (b mod 16 * 4)]
  | a :: b :: c :: rest =>
      Base64.alphabet (a / 4) :: Base64.alphabet (a mod 4 * 16 + b / 16)
      :: Base64.alphabet (b mod 16 * 4 + c / 64) :: Base64.alphabet (c mod 64)
      :: encode_body rest
  end.

Fixpoint padding (s : list Z) : jsstring :=
  match s with
  | [] => []
  | [_] => [Base64.pad; Base64.pad]
  | [_; _] => [Base64.pad]
  | _ :: _ :: _ :: rest => padding rest
  end.

(** The text [JSON.stringify] gives for a payload of base64 fields. *)
Definition payload_text (salt iv data : jsstring) : jsstring :=
  js "{" ++ 34 :: js "v" ++ 34 :: js ":1," ++
  34 :: js "salt" ++ 34 :: 58 :: 34 :: salt ++ 34 :: 44 ::
  34 :: js "iv" ++ 34 :: 58 :: 34 :: iv ++ 34 :: 44 ::
  34 :: js "data" ++ 34 :: 58 :: 34 :: data ++ 34 :: js "}".

(** The base64 text of a buffer. *)
Definition b64 (buf : list byte) : jsstring := Base64.encode (map Bytes.to_Z buf).

(** What one call of [encryptText] draws, derives and seals. The derived
    key is an abbreviation, not a constant: no proof unfolds the 200000
    rounds. *)
Definition drawn_salt (e : entropy) : list byte := fst (getRandomValues 16 e).
Definition drawn_iv (e : entropy) : list byte :=
  fst (getRandomValues 12 (snd (getRandomValues 16 e))).
Abbreviation derived password salt :=
  (Kdf.pbkdf2 (Utf8.encode password) salt 200000 32).
Abbreviation sealed plain password e :=
  (aes_gcm_encrypt (derived password (drawn_salt e)) (drawn_iv e)
     (Utf8.encode plain)).

(** A plaintext of as many characters as the engine takes arguments. *)
Definition long_text {E : Engine} : jsstring :=
  repeat 97 (N.to_nat max_arguments).

(** *** A provider to instantiate the properties with

    Not a cipher. The digest of a message of 96 bytes is its first 32
    bytes, combined with its last 32 when bytes 32 to 63 are all 5c (the
    outer hash of HMAC under a key of at most 32 bytes), and the digest of
    any other message is zero: PBKDF2 then derives from a passphrase of at
    most 32 bytes and a salt of 16 the passphrase itself, padded and masked
    ([key_of]), so that passphrases that differ other than by zero bytes at
    the end derive different keys. Sealing appends 16 bytes made of the iv
    and the key, which opening compares. It satisfies [SubtleCryptoLaws] and
    [GcmAuthentic]. *)

Module Toy.

#[global] Instance byte_eq_dec : EqDecision byte := Byte.byte_eq_dec.

Definition digest (msg : list byte) : list byte :=
  if (length msg =? 96)%nat then
    if bool_decide (take 32 (drop 32 msg) = repeat x5c 32)
    then zip_with Bytes.xor (take 32 msg) (drop 64 msg)
    else take 32 msg
  else Bytes.zeros 32.

(** What PBKDF2 over [digest] derives from a password of at most 32 bytes
    and a salt of 16. *)
Definition key_of (password : list byte) : list byte :=
  zip_with Bytes.xor
    (map (Bytes.xor x5c) (take 32 (password ++ Bytes.zeros 32)))
    (repeat x6a 32).

Definition tag (key iv : list byte) : list byte :=
  take 16 (iv ++ key ++ Bytes.zeros 16).

Definition seal (key iv pt : list byte) : list byte := pt ++ tag key iv.

Definition open (key iv data : list byte) : option (list byte) :=
  let n := (length data - 16)%nat in
  if bool_decide (16 <= length data)%nat && bool_decide (drop n data = tag key iv)
  then Some (take n data)
  else None.

Definition provider : SubtleCrypto :=
  {| sha256 := digest; aes_gcm_encrypt := seal; aes_gcm_decrypt := open |}.

(** An engine that takes 65535 arguments and no more. *)
Definition engine : Engine := {| headroom := 0 |}.

(** A random source that counts. *)
Definition counter : entropy := fun i => Bytes.of_Z (Z.of_nat i).

End Toy.

(** The page on a first visit: nothing stored, nothing said. *)
Definition first_visit (e : entropy) : Home.World :=
  {| Home.state := Home.initial; Home.storage := ∅; Home.alerts := [];
     Home.random := e |}.

(** Persistence is enabled for the next load: the preference is absent or
    is ["1"]. *)
Definition persistence_on (st : gmap string jsstring) : Prop :=
  st !! Home.PERSISTENCE = None \/ st !! Home.PERSISTENCE = Some (js "1").

(** The page can show a parsed value as its last saved resume: its [name],
    if it has one, is no object and no array that holds one, and its
    [savedAt], if it has one, converts to a primitive. *)
Definition resume_shows (parsed : Json.json) : Prop :=
  Home.renders (Home.setLastSavedResume parsed Home.initial) = true.

(** The stored resume, if there is one, is JSON text that the page can
    show. *)
Definition resume_loads (st : gmap string jsstring) : Prop :=
  forall raw, st !! Home.LAST_RESUME = Some raw -> raw <> [] ->
    exists parsed, Json.parse raw = Returns parsed /\ resume_shows parsed.

(** The cipher of a plaintext is a buffer the engine can spread:
    [toBase64] takes it. The cipher has the plaintext's bytes and 16 more. *)
Definition spreadable {E : Engine} (plain : jsstring) : Prop :=
  (N.of_nat (length (Utf8.encode plain)) + 16 <= max_arguments)%N.

(** The lifecycle state EncryptedLocked: a payload is held, no plaintext
    key is, and the key is not unlocked. *)
Definition encrypted_locked (enc : jsstring) (s : Home.State) : Prop :=
  Home.encryptedApiKey s = Some enc /\ Home.apiKey s = []
  /\ Home.isApiUnlocked s = false.

(** *** Sessions of the Home page *)

(** A first visit, with nothing waited for. *)
Definition arrival (e : entropy) : Home.Waiting :=
  {| Home.page := first_visit e; Home.tasks := [] |}.

(** The preference the next load will read. *)
Definition stored_preference (st : gmap string jsstring) : bool :=
  match st !! Home.PERSISTENCE with
  | None => true
  | Some rawPersist => Json.eqb rawPersist (js "1")
  end.

(** The item [handleFileUpload] stores and shows. *)
Definition resume_item (name text : jsstring) (now : Z) : Json.json :=
  Json.JObj [(js "name", Json.JStr name); (js "content", Json.JStr text);
             (js "savedAt", Json.JNum now 0)].

(** What the page itself writes under its three keys. *)
Definition written_by_page {C : SubtleCrypto} {E : Engine}
    (k : string) (v : jsstring) : Prop :=
  (k = Home.PERSISTENCE /\ (v = js "0" \/ v = js "1"))
  \/ (k = Home.LAST_RESUME
      /\ exists name text now, Json.stringify (resume_item name text now) = Some v)
  \/ (k = Home.API_KEY_ENC
      /\ exists key pw e,
           pw <> [] /\ fst (Vault.encryptText key pw e) = Returns v).

(** A reply of one fenced block: the fence, a tag (it may be empty), a
    line feed, the body, a line feed and the closing fence. *)
Definition fenced (tag body : jsstring) : jsstring :=
  Tailor.fence ++ tag ++ 10 :: body ++ 10 :: Tailor.fence.

(** The integer read from a digit string, after the integer [m]. *)
Fixpoint read_digits (u : Decimal.uint) (m : Z) : Z :=
  match u with
  | Decimal.Nil => m
  | Decimal.D0 u' => read_digits u' (m * 10 + 0)
  | Decimal.D1 u' => read_digits u' (m * 10 + 1)
  | Decimal.D2 u' => read_digits u' (m * 10 + 2)
  | Decimal.D3 u' => read_digits u' (m * 10 + 3)
  | Decimal.D4 u' => read_digits u' (m * 10 + 4)
  | Decimal.D5 u' => read_digits u' (m * 10 + 5)
  | Decimal.D6 u' => read_digits u' (m * 10 + 6)
  | Decimal.D7 u' => read_digits u' (m * 10 + 7)
  | Decimal.D8 u' => read_digits u' (m * 10 + 8)
  | Decimal.D9 u' => read_digits u' (m * 10 + 9)
  end.

(** The text [JSON.stringify] gives for a resume item. *)
Definition resume_text (name text : jsstring) (now : Z) : jsstring :=
  js "{" ++ Json.quote (js "name") ++ 58 :: Json.quote name ++ 44 ::
  Json.quote (js "content") ++ 58 :: Json.quote text ++ 44 ::
  Json.quote (js "savedAt") ++ 58 :: Json.decimal now ++ js "}".

(** The file the load makes of a stored resume. *)
Definition restored_file (name text : jsstring) : Home.File :=
  {| Home.file_content := Json.JStr text;
     Home.file_name := Some (Json.JStr name) |}.

(** What a session keeps about the saved resume and the preference: the
    flag of the page is the stored preference, and a last saved resume is
    shown only with a resume stored. *)
Definition resume_kept (w : Home.World) : Prop :=
  Home.persistEnabled (Home.state w) = stored_preference (Home.storage w)
  /\ (Home.lastSavedResume (Home.state w) <> Json.JNull ->
      Home.storage w !! Home.LAST_RESUME <> None).

(** A call of the vault the page waits for was made with a passphrase
    that is not empty. *)
Definition called_with_passphrase {C : SubtleCrypto} {E : Engine}
    (r : outcome jsstring) : Prop :=
  exists key pw e, pw <> [] /\ r = fst (Vault.encryptText key pw e).

Definition task_kept {C : SubtleCrypto} {E : Engine} (t : Home.task) : Prop :=
  match t with
  | Home.SavingKey r | Home.Reencrypting r => called_with_passphrase r
  | Home.Reading _ _ _ _ | Home.Unlocking _ => True
  end.

(** What a session keeps about the storage: it holds nothing but what the
    page writes, and neither will it when what the page waits for is
    there. *)
Definition key_kept {C : SubtleCrypto} {E : Engine} (p : Home.Waiting) : Prop :=
  (forall k v, Home.storage (Home.page p) !! k = Some v -> written_by_page k v)
  /\ Forall task_kept (Home.tasks p).

(** A page with a job description and a resume typed in, and no key. *)
Definition sample_page : Tailor.Page :=
  {| Tailor.home :=
       Home.setOriginalContent (Json.JStr (js "\documentclass{article}"))
         Home.initial;
     Tailor.form :=
       Tailor.setJobDescription (js "Rust engineer, Berlin") Tailor.initial;
     Tailor.said := []; Tailor.sent := [] |}.

(** The same page with a key. *)
Definition sample_page_with_key : Tailor.Page :=
  {| Tailor.home := Home.setApiKey (js "AIza-example-key-123") (Tailor.home sample_page);
     Tailor.form := Tailor.form sample_page;
     Tailor.said := []; Tailor.sent := [] |}.

(** A service that answers both calls. *)
Definition sample_service : Tailor.Service :=
  {| Tailor.setup := None;
     Tailor.replies := fun i =>
       match i with
       | O => Tailor.Text (js "Rust, Tokio , ,SQL")
       | _ => Tailor.Text (fenced (js "latex") (js "\documentclass{article}"))
       end |}.

(** A service whose second reply is one fenced block. *)
Definition fenced_service (skillsText body : jsstring) : Tailor.Service :=
  {| Tailor.setup := None;
     Tailor.replies := fun i =>
       match i with
       | O => Tailor.Text skillsText
       | _ => Tailor.Text (fenced (js "latex") body)
       end |}.

(** The properties [Home] hands to [ResumeEditor]. *)
Definition editor_props (p : Tailor.Page) (originalContent : jsstring)
  : Editor.Props :=
  {| Editor.texCode := Tailor.tailoredContent (Tailor.form p);
     Editor.originalTexCode := originalContent |}.

(** A page with a key unlocked, and a new passphrase typed in. *)
Definition unlocked_page (key pw : jsstring) (e : entropy) : Home.World :=
  {| Home.state :=
       Home.setPassphrase pw
         (Home.setApiKey key
            (Home.setIsApiUnlocked true
               (Home.setEncryptedApiKey (Some (js "{}")) Home.initial)));
     Home.storage := {[ Home.API_KEY_ENC := js "{}" ]};
     Home.alerts := []; Home.random := e |}.

(** *** A listing of models as the service documents it *)

(** A model of the listing: its name and the methods it supports. *)
Definition model_entry (e : jsstring * list jsstring) : Json.json :=
  Json.JObj [(js "name", Json.JStr (fst e));
             (js "supportedMethods", Json.JArr (map Json.JStr (snd e)))].

Definition supports (method : jsstring) (e : jsstring * list jsstring) : bool :=
  existsb (fun s => Json.eqb s method) (snd e).

(** A Gemini model that can generate. *)
Definition gemini_generator (e : jsstring * list jsstring) : bool :=
  Str.test_ci (js "gemini") (fst e)
  && (supports (js "generateContent") e || supports (js "generate") e).

(** What the block should choose: the first Gemini model that can
    generate, else the first model that supports [generateContent], else
    the default. A model of the second kind with an empty name leaves
    [undefined]. *)
Definition preferred (entries : list (jsstring * list jsstring))
    (default : jsstring) : Listing.value :=
  match List.find gemini_generator entries with
  | Some e => Some (Json.JStr (fst e))
  | None =>
      match List.find (supports (js "generateContent")) entries with
      | Some e => if Home.is_empty (fst e) then None else Some (Json.JStr (fst e))
      | None => Some (Json.JStr default)
      end
  end.

(* ===================================================================== *)
(** * Part II: properties                                                  *)
(* ===================================================================== *)

(** ** Tactics *)

(** Case analysis on the comparisons of the goal and the hypotheses. *)
Ltac zbool :=
  repeat match goal with
  | H : context [(?a <=? ?b)] |- _ => destruct (Z.leb_spec a b); simpl in H
  | H : context [(?a <? ?b)] |- _ => destruct (Z.ltb_spec a b); simpl in H
  | H : context [(?a =? ?b)] |- _ => destruct (Z.eqb_spec a b); simpl in H
  | |- context [(?a <=? ?b)] => destruct (Z.leb_spec a b); simpl
  | |- context [(?a <? ?b)] => destruct (Z.ltb_spec a b); simpl
  | |- context [(?a =? ?b)] => destruct (Z.eqb_spec a b); simpl
  end.

Ltac divmod := Z.div_mod_to_equations; lia.

(** A comparison of the goal decided by arithmetic. *)
Ltac decide_leb :=
  match goal with
  | |- context [(?a <=? ?b)] =>
      first [ replace (a <=? b) with true by (symmetry; apply Z.leb_le; divmod)
            | replace (a <=? b) with false by (symmetry; apply Z.leb_gt; divmod) ]
  | |- context [(?a <? ?b)] =>
      first [ replace (a <? b) with true by (symmetry; apply Z.ltb_lt; divmod)
            | replace (a <? b) with false by (symmetry; apply Z.ltb_ge; divmod) ]
  | |- context [(?a =? ?b)] =>
      first [ replace (a =? b) with true by (symmetry; apply Z.eqb_eq; divmod)
            | replace (a =? b) with false by (symmetry; apply Z.eqb_neq; divmod) ]
  end.

(** The code units of the string literals in the goal. *)
Ltac eval_js :=
  repeat match goal with
  | |- context [js ?s] =>
      let v := eval vm_compute in (js s) in change (js s) with v
  end.

(** Projections of a world built by the handlers. *)
Ltac world :=
  cbn [Home.state Home.storage Home.alerts Home.random Home.update Home.getItem
       Home.setItem Home.removeItem Home.say Home.setRandom
       Home.clearLastSavedResume Home.clearEncryptedKey Home.togglePersist
       Home.setResumeFile Home.setLastSavedResume Home.setPersistEnabled
       Home.setApiKey Home.setEncryptedApiKey Home.setPassphrase
       Home.setIsApiUnlocked Home.setOriginalContent
       Home.resumeFile Home.lastSavedResume Home.persistEnabled Home.apiKey
       Home.encryptedApiKey Home.passphrase Home.isApiUnlocked
       Home.originalContent first_visit Home.initial] in *.


(** ** Bytes *)

Lemma to_Z_range (b : byte) : 0 <= Bytes.to_Z b < 256.
Proof.
  unfold Bytes.to_Z. pose proof (Byte.to_N_bounded b) as Hb. lia.
Qed.

Lemma of_to_Z (b : byte) : Bytes.of_Z (Bytes.to_Z b) = b.
Proof.
  unfold Bytes.of_Z. rewrite Z.mod_small by apply to_Z_range.
  unfold Bytes.to_Z. rewrite N2Z.id, Byte.of_to_N. reflexivity.
Qed.

Lemma to_of_Z (z : Z) : Bytes.to_Z (Bytes.of_Z z) = z mod 256.
Proof.
  unfold Bytes.of_Z, Bytes.to_Z.
  assert (Hr : 0 <= z mod 256 < 256) by (apply Z.mod_pos_bound; lia).
  destruct (Byte.of_N (Z.to_N (z mod 256))) as [b|] eqn:E.
  - apply Byte.to_of_N in E. rewrite E. lia.
  - exfalso. pose proof (Byte.to_of_N_option_map (Z.to_N (z mod 256))) as H.
    rewrite E in H. simpl in H.
    destruct (N.leb_spec (Z.to_N (z mod 256)) 255); [discriminate | lia].
Qed.

Lemma to_of_Z_small (z : Z) : 0 <= z < 256 -> Bytes.to_Z (Bytes.of_Z z) = z.
Proof. intros. rewrite to_of_Z. apply Z.mod_small. assumption. Qed.

Lemma map_to_of_Z (l : list Z) :
  Forall (fun z => 0 <= z < 256) l -> map Bytes.to_Z (map Bytes.of_Z l) = l.
Proof.
  induction 1 as [|z l Hz _ IH]; simpl; [reflexivity|].
  rewrite to_of_Z_small, IH by assumption. reflexivity.
Qed.

Lemma map_of_to_Z (l : list byte) : map Bytes.of_Z (map Bytes.to_Z l) = l.
Proof.
  induction l as [|b l IH]; simpl; [reflexivity|]. rewrite of_to_Z, IH. reflexivity.
Qed.

Lemma Forall_to_Z_range (l : list byte) :
  Forall (fun z => 0 <= z < 256) (map Bytes.to_Z l).
Proof. induction l; simpl; constructor; auto using to_Z_range. Qed.

(** ** UTF-8 *)

(** Lists by one or two elements at a time, as [to_scalars] reads them. *)
Lemma list_ind_pairs {A : Type} (P : list A -> Prop) :
  P [] -> (forall x, P [x]) ->
  (forall x y l, P l -> P (y :: l) -> P (x :: y :: l)) ->
  forall l, P l.
Proof.
  intros H0 H1 H2 l.
  assert (H : P l /\ forall x, P (x :: l)).
  { induction l as [|y l [IHl IHc]]; [split; auto|].
    split; [apply IHc|]. intros x. apply H2; auto. }
  apply H.
Qed.

Lemma to_scalars_scalar (s : jsstring) :
  Forall unit_range s -> Forall scalar (Utf8.to_scalars s).
Proof.
  induction s as [|x|x y l IHl IHy] using list_ind_pairs; intros Hs.
  - constructor.
  - inversion_clear Hs as [|? ? Hx _]. unfold unit_range in Hx.
    simpl. unfold Utf8.is_high, Utf8.is_low.
    zbool; repeat constructor; unfold scalar; lia.
  - inversion Hs as [|? ? Hx Hyl]; subst.
    inversion Hyl as [|? ? Hy Hl]; subst.
    specialize (IHl Hl). specialize (IHy Hyl).
    unfold unit_range in Hx, Hy.
    change (Utf8.to_scalars (x :: y :: l)) with
      (if Utf8.is_high x then
         if Utf8.is_low y
         then (0x10000 + (x - 0xD800) * 0x400 + (y - 0xDC00)) :: Utf8.to_scalars l
         else 0xFFFD :: Utf8.to_scalars (y :: l)
       else if Utf8.is_low x then 0xFFFD :: Utf8.to_scalars (y :: l)
       else x :: Utf8.to_scalars (y :: l)).
    unfold Utf8.is_high, Utf8.is_low.
    zbool; constructor; auto; unfold scalar; lia.
Qed.

Lemma encode_scalar_bytes (cp : Z) :
  scalar cp -> Forall (fun z => 0 <= z < 256) (Utf8.encode_scalar cp).
Proof.
  intros [Hr _]. unfold Utf8.encode_scalar.
  zbool; repeat constructor; divmod.
Qed.

(** The decoder reads back what the encoder wrote for one scalar value. *)
Lemma decode_encode_scalar (cp : Z) (rest : list Z) :
  scalar cp ->
  Utf8.decode_from Utf8.Idle (Utf8.encode_scalar cp ++ rest)
  = cp :: Utf8.decode_from Utf8.Idle rest.
Proof.
  intros [Hr Hs]. unfold Utf8.encode_scalar.
  destruct (Z.ltb_spec cp 0x80) as [H1|H1];
    [|destruct (Z.ltb_spec cp 0x800) as [H2|H2];
      [|destruct (Z.ltb_spec cp 0x10000) as [H3|H3]]].
  - simpl. unfold Utf8.step_idle. repeat decide_leb. reflexivity.
  - cbn [app Utf8.decode_from Utf8.step]. unfold Utf8.step_idle.
    repeat decide_leb. cbn [andb app Utf8.decode_from Utf8.step].
    repeat decide_leb. cbn [andb app]. f_equal. divmod.
  - cbn [app Utf8.decode_from Utf8.step]. unfold Utf8.step_idle.
    repeat decide_leb. cbn [andb app Utf8.decode_from Utf8.step].
    destruct (Z.eqb_spec (0xE0 + cp / 4096) 0xE0) as [E0|E0];
    destruct (Z.eqb_spec (0xE0 + cp / 4096) 0xED) as [ED|ED]; try lia;
    repeat decide_leb; cbn [andb app Utf8.decode_from Utf8.step];
    repeat decide_leb; cbn [andb app]; f_equal; divmod.
  - cbn [app Utf8.decode_from Utf8.step]. unfold Utf8.step_idle.
    repeat decide_leb. cbn [andb app Utf8.decode_from Utf8.step].
    destruct (Z.eqb_spec (0xF0 + cp / 262144) 0xF0) as [E0|E0];
    destruct (Z.eqb_spec (0xF0 + cp / 262144) 0xF4) as [E4|E4]; try lia;
    repeat decide_leb; cbn [andb app Utf8.decode_from Utf8.step];
    repeat decide_leb; cbn [andb app Utf8.decode_from Utf8.step];
    repeat decide_leb; cbn [andb app]; f_equal; divmod.
Qed.

Lemma decode_encode_scalars (cps : list Z) :
  Forall scalar cps ->
  Utf8.decode_from Utf8.Idle (flat_map Utf8.encode_scalar cps) = cps.
Proof.
  induction 1 as [|cp cps Hcp _ IH]; simpl; [reflexivity|].
  rewrite decode_encode_scalar, IH by assumption. reflexivity.
Qed.

Lemma encode_scalars_bytes (cps : list Z) :
  Forall scalar cps ->
  Forall (fun z => 0 <= z < 256) (flat_map Utf8.encode_scalar cps).
Proof.
  induction 1 as [|cp cps Hcp _ IH]; simpl; [constructor|].
  apply Forall_app. split; [apply encode_scalar_bytes; assumption | assumption].
Qed.

(** [decode] after [encode], for any string of code units: what comes back
    is the string normalised. *)
Lemma decode_encode (s : jsstring) :
  Forall unit_range s -> Utf8.decode (Utf8.encode s) = Utf8.normalise s.
Proof.
  intros Hs. unfold Utf8.decode, Utf8.encode, Utf8.normalise.
  pose proof (to_scalars_scalar s Hs) as Hcps.
  rewrite map_to_of_Z by (apply encode_scalars_bytes; assumption).
  rewrite decode_encode_scalars by assumption. reflexivity.
Qed.

Lemma well_formed_range (s : jsstring) :
  Utf8.well_formed s = true -> Forall unit_range s.
Proof.
  induction s as [|x|x y l IHl IHy] using list_ind_pairs.
  - constructor.
  - simpl. unfold Utf8.is_high, Utf8.is_low, unit_range.
    intros H. zbool; try discriminate; repeat constructor; lia.
  - change (Utf8.well_formed (x :: y :: l)) with
      (if Utf8.is_high x then Utf8.is_low y && Utf8.well_formed l
       else negb (Utf8.is_low x) && (0 <=? x) && (x <? 0x10000)
            && Utf8.well_formed (y :: l)).
    intros H. destruct (Utf8.is_high x) eqn:Hx.
    + apply andb_prop in H as [Hy Hwf].
      unfold Utf8.is_high, Utf8.is_low in Hx, Hy.
      constructor; [unfold unit_range; zbool; try discriminate; lia|].
      constructor; [unfold unit_range; zbool; try discriminate; lia|auto].
    + apply andb_prop in H as [H Hwf]. apply andb_prop in H as [H Hlt].
      apply andb_prop in H as [_ Hge].
      constructor; [unfold unit_range; zbool; try discriminate; lia|auto].
Qed.

(** A well-formed string is its own list of scalar values, re-encoded. *)
Lemma utf16_to_scalars (s : jsstring) :
  Utf8.well_formed s = true -> flat_map Utf8.utf16 (Utf8.to_scalars s) = s.
Proof.
  induction s as [|x|x y l IHl IHy] using list_ind_pairs.
  - reflexivity.
  - simpl. unfold Utf8.is_high, Utf8.is_low, Utf8.utf16.
    intros H. zbool; try discriminate; simpl; zbool; try lia; reflexivity.
  - change (Utf8.well_formed (x :: y :: l)) with
      (if Utf8.is_high x then Utf8.is_low y && Utf8.well_formed l
       else negb (Utf8.is_low x) && (0 <=? x) && (x <? 0x10000)
            && Utf8.well_formed (y :: l)).
    change (Utf8.to_scalars (x :: y :: l)) with
      (if Utf8.is_high x then
         if Utf8.is_low y
         then (0x10000 + (x - 0xD800) * 0x400 + (y - 0xDC00)) :: Utf8.to_scalars l
         else 0xFFFD :: Utf8.to_scalars (y :: l)
       else if Utf8.is_low x then 0xFFFD :: Utf8.to_scalars (y :: l)
       else x :: Utf8.to_scalars (y :: l)).
    intros H.
    destruct (Utf8.is_high x) eqn:Hx.
    + destruct (Utf8.is_low y) eqn:Hy; [|discriminate]. simpl in H.
      cbn [flat_map]. rewrite IHl by assumption.
      unfold Utf8.is_high, Utf8.is_low in Hx, Hy. unfold Utf8.utf16.
      decide_leb. cbn [app]. f_equal; [|f_equal].
      * zbool; try discriminate; divmod.
      * zbool; try discriminate; divmod.
    + destruct (Utf8.is_low x) eqn:Hx'; [discriminate|].
      apply andb_prop in H as [H Hwf]. apply andb_prop in H as [H Hlt].
      cbn [flat_map]. rewrite IHy by assumption.
      unfold Utf8.utf16. rewrite Hlt. reflexivity.
Qed.

Lemma strip_bom_to_scalars (s : jsstring) :
  Utf8.well_formed s = true -> Utf8.no_bom s = true ->
  Utf8.strip_bom (Utf8.to_scalars s) = Utf8.to_scalars s.
Proof.
  destruct s as [|x [|y l]]; intros Hwf Hb; [reflexivity| |].
  - simpl in *. unfold Utf8.is_high, Utf8.is_low in *.
    zbool; try discriminate; simpl; zbool; try lia; reflexivity.
  - change (Utf8.well_formed (x :: y :: l)) with
      (if Utf8.is_high x then Utf8.is_low y && Utf8.well_formed l
       else negb (Utf8.is_low x) && (0 <=? x) && (x <? 0x10000)
            && Utf8.well_formed (y :: l)) in Hwf.
    change (Utf8.to_scalars (x :: y :: l)) with
      (if Utf8.is_high x then
         if Utf8.is_low y
         then (0x10000 + (x - 0xD800) * 0x400 + (y - 0xDC00)) :: Utf8.to_scalars l
         else 0xFFFD :: Utf8.to_scalars (y :: l)
       else if Utf8.is_low x then 0xFFFD :: Utf8.to_scalars (y :: l)
       else x :: Utf8.to_scalars (y :: l)).
    simpl in Hb.
    destruct (Utf8.is_high x) eqn:Hx.
    + destruct (Utf8.is_low y) eqn:Hy; [|discriminate].
      unfold Utf8.strip_bom. unfold Utf8.is_high, Utf8.is_low in Hx, Hy.
      decide_leb. reflexivity.
    + destruct (Utf8.is_low x) eqn:Hx'; [discriminate|].
      unfold Utf8.strip_bom. destruct (x =? 0xFEFF); [discriminate|reflexivity].
Qed.

(** Well-formed text without a leading U+FEFF survives unchanged. *)
Lemma normalise_well_formed (s : jsstring) :
  Utf8.well_formed s = true -> Utf8.no_bom s = true -> Utf8.normalise s = s.
Proof.
  intros Hwf Hb. unfold Utf8.normalise.
  rewrite strip_bom_to_scalars, utf16_to_scalars by assumption. reflexivity.
Qed.

(** ** Base64 *)

(** Lists three elements at a time, as [Base64.encode] reads them. *)
Lemma list_ind_triples {A : Type} (P : list A -> Prop) :
  P [] -> (forall a, P [a]) -> (forall a b, P [a; b]) ->
  (forall a b c l, P l -> P (a :: b :: c :: l)) ->
  forall l, P l.
Proof.
  intros H0 H1 H2 H3 l.
  assert (H : P l /\ (forall a, P (a :: l)) /\ forall a b, P (a :: b :: l)).
  { induction l as [|c l (IH0 & IH1 & IH2)]; [auto|].
    split; [apply IH1|]. split; [intros a; apply IH2|]. intros a b. apply H3, IH0. }
  apply H.
Qed.

Lemma value_alphabet (i : Z) : sextet i -> Base64.value (Base64.alphabet i) = Some i.
Proof.
  unfold sextet, Base64.value, Base64.alphabet. intros Hi.
  zbool; try lia; f_equal; lia.
Qed.

Lemma alphabet_char (i : Z) :
  sextet i -> b64char (Base64.alphabet i) /\ Base64.alphabet i <> Base64.pad.
Proof.
  unfold sextet, Base64.alphabet, b64char, Base64.pad. intros Hi. zbool; lia.
Qed.

Lemma encode_split (s : list Z) : Base64.encode s = encode_body s ++ padding s.
Proof.
  induction s as [|a|a b|a b c l IH] using list_ind_triples; try reflexivity.
  cbn [Base64.encode encode_body padding app]. rewrite IH. reflexivity.
Qed.

Lemma encode_length (s : list Z) : (length (Base64.encode s) mod 4 = 0)%nat.
Proof.
  induction s as [|a|a b|a b c l IH] using list_ind_triples; try reflexivity.
  cbn [Base64.encode length].
  change (S (S (S (S (length (Base64.encode l))))))
    with (4 + length (Base64.encode l))%nat.
  rewrite <- Nat.Div0.add_mod_idemp_l. exact IH.
Qed.

Lemma padding_cases (s : list Z) :
  padding s = [] \/ padding s = [Base64.pad] \/ padding s = [Base64.pad; Base64.pad].
Proof.
  induction s as [|a|a b|a b c l IH] using list_ind_triples; simpl; auto.
Qed.

Lemma encode_body_chars (s : list Z) :
  Forall octet s ->
  Forall (fun c => b64char c /\ c <> Base64.pad) (encode_body s).
Proof.
  unfold octet.
  induction s as [|a|a b|a b c l IH] using list_ind_triples; intros Hs.
  - constructor.
  - inversion_clear Hs as [|? ? Ha _].
    cbn [encode_body]. repeat constructor; apply alphabet_char; unfold sextet; divmod.
  - inversion_clear Hs as [|? ? Ha Hs']. inversion_clear Hs' as [|? ? Hb _].
    cbn [encode_body]. repeat constructor; apply alphabet_char; unfold sextet; divmod.
  - inversion_clear Hs as [|? ? Ha Hs']. inversion_clear Hs' as [|? ? Hb Hs''].
    inversion_clear Hs'' as [|? ? Hc Hl].
    cbn [encode_body].
    repeat (constructor; [apply alphabet_char; unfold sextet; divmod|]).
    auto.
Qed.

Lemma decode_encode_body (s : list Z) :
  Forall octet s -> Base64.decode (encode_body s) = Some s.
Proof.
  unfold octet.
  induction s as [|a|a b|a b c l IH] using list_ind_triples; intros Hs.
  - reflexivity.
  - inversion_clear Hs as [|? ? Ha _].
    cbn [encode_body Base64.decode].
    rewrite !value_alphabet by (unfold sextet; divmod).
    cbn. do 2 f_equal. divmod.
  - inversion_clear Hs as [|? ? Ha Hs']. inversion_clear Hs' as [|? ? Hb _].
    cbn [encode_body Base64.decode].
    rewrite !value_alphabet by (unfold sextet; divmod).
    cbn. f_equal. f_equal; [divmod|]. f_equal. divmod.
  - inversion_clear Hs as [|? ? Ha Hs']. inversion_clear Hs' as [|? ? Hb Hs''].
    inversion_clear Hs'' as [|? ? Hc Hl].
    cbn [encode_body Base64.decode].
    rewrite !value_alphabet by (unfold sextet; divmod).
    rewrite IH by assumption.
    cbn. f_equal. f_equal; [divmod|]. f_equal; [divmod|]. f_equal. divmod.
Qed.

Lemma strip_padding_encode (s : list Z) :
  Forall octet s -> Base64.strip_padding (Base64.encode s) = encode_body s.
Proof.
  intros Hs. unfold Base64.strip_padding.
  rewrite encode_length. cbn [Nat.eqb].
  rewrite encode_split.
  pose proof (encode_body_chars s Hs) as Hbody.
  destruct (padding_cases s) as [E|[E|E]]; rewrite E.
  - rewrite app_nil_r.
    destruct (rev (encode_body s)) as [|c1 r1] eqn:Er; [reflexivity|].
    assert (Hc1 : c1 <> Base64.pad).
    { assert (Hin : In c1 (encode_body s)).
      { apply in_rev. rewrite Er. left. reflexivity. }
      rewrite Forall_forall in Hbody. apply (Hbody c1). apply list_elem_of_In, Hin. }
    destruct (Z.eqb_spec c1 Base64.pad); [contradiction|reflexivity].
  - rewrite rev_app_distr. cbn [rev app]. rewrite Z.eqb_refl.
    destruct (rev (encode_body s)) as [|c2 r2] eqn:Er.
    + apply (f_equal (@rev Z)) in Er. rewrite rev_involutive in Er.
      rewrite Er. reflexivity.
    + assert (Hc2 : c2 <> Base64.pad).
      { assert (Hin : In c2 (encode_body s)).
        { apply in_rev. rewrite Er. left. reflexivity. }
        rewrite Forall_forall in Hbody. apply (Hbody c2). apply list_elem_of_In, Hin. }
      destruct (Z.eqb_spec c2 Base64.pad); [contradiction|].
      rewrite <- Er. apply rev_involutive.
  - rewrite rev_app_distr. cbn [rev app]. rewrite !Z.eqb_refl.
    apply rev_involutive.
Qed.

Lemma encode_chars (s : list Z) : Forall octet s -> Forall b64char (Base64.encode s).
Proof.
  intros Hs. rewrite encode_split. apply Forall_app. split.
  - eapply Forall_impl; [apply encode_body_chars; assumption|]. intros c [H _]. exact H.
  - destruct (padding_cases s) as [E|[E|E]]; rewrite E; repeat constructor;
      unfold b64char, Base64.pad; lia.
Qed.

Lemma filter_whitespace (s : jsstring) :
  Forall b64char s ->
  List.filter (fun c => negb (Base64.is_ascii_whitespace c)) s = s.
Proof.
  induction 1 as [|c s Hc _ IH]; [reflexivity|].
  cbn [List.filter]. unfold Base64.is_ascii_whitespace at 1.
  unfold b64char in Hc.
  repeat decide_leb. cbn [orb negb]. rewrite IH. reflexivity.
Qed.

(** [atob] undoes [btoa]. *)
Lemma atob_encode (s : list Z) :
  Forall octet s -> Base64.atob (Base64.encode s) = Returns s.
Proof.
  intros Hs. unfold Base64.atob.
  rewrite filter_whitespace by (apply encode_chars; assumption).
  rewrite strip_padding_encode, decode_encode_body by assumption. reflexivity.
Qed.

Lemma btoa_octets (s : list Z) :
  Forall octet s -> Base64.btoa s = Returns (Base64.encode s).
Proof.
  intros Hs. unfold Base64.btoa.
  replace (forallb _ s) with true; [reflexivity|].
  symmetry. induction Hs as [|c s Hc _ IH]; [reflexivity|].
  cbn [forallb]. rewrite IH. unfold octet in Hc.
  repeat decide_leb. reflexivity.
Qed.

Lemma encode_nonempty (s : list Z) : s <> [] -> Base64.encode s <> [].
Proof. destruct s as [|a [|b [|c l]]]; [congruence| | |]; discriminate. Qed.

(** ** JSON: the text of a payload parses back to the payload *)

Lemma quote_body_b64 (s : jsstring) : Forall b64char s -> Json.quote_body s = s.
Proof.
  induction 1 as [|c s Hc _ IH]; [reflexivity|].
  unfold b64char in Hc.
  assert (Hh : Utf8.is_high c = false).
  { unfold Utf8.is_high. repeat decide_leb. reflexivity. }
  assert (Hl : Utf8.is_low c = false).
  { unfold Utf8.is_low. repeat decide_leb. reflexivity. }
  cbn [Json.quote_body]. rewrite Hh, Hl, IH.
  unfold Json.escape_unit. repeat decide_leb. reflexivity.
Qed.

Lemma stringify_payload (salt iv data : jsstring) :
  Forall b64char salt -> Forall b64char iv -> Forall b64char data ->
  Json.stringify (Vault.payload salt iv data) = Some (payload_text salt iv data).
Proof.
  intros Hs Hi Hd. unfold Vault.payload, payload_text. eval_js.
  cbn [Json.stringify]. unfold Json.quote.
  rewrite (quote_body_b64 salt), (quote_body_b64 iv), (quote_body_b64 data)
    by assumption.
  replace (Json.number_to_string 1 0) with (Some [49]) by reflexivity.
  cbn. repeat (rewrite <- !app_assoc; cbn [app]). reflexivity.
Qed.

(** Inside a string, base64 characters are taken as they are, up to the
    closing quote. *)
Lemma lex_b64_string (s acc rest : jsstring) :
  Forall b64char s ->
  Json.lex_from (Json.LString acc) (s ++ 34 :: rest)
  = (ts ← Json.lex_from Json.LDefault rest;
     Some (Json.TValue (Json.JStr (rev acc ++ s)) :: ts)).
Proof.
  intros Hs. revert acc. induction Hs as [|c s Hc _ IH]; intros acc.
  - cbn. rewrite app_nil_r. destruct (Json.lex_from Json.LDefault rest); reflexivity.
  - cbn [app Json.lex_from Json.lex_step]. unfold b64char in Hc.
    repeat decide_leb. cbn. rewrite IH. cbn [rev]. rewrite <- app_assoc.
    destruct (Json.lex_from Json.LDefault rest); reflexivity.
Qed.

Lemma parse_payload_text (salt iv data : jsstring) :
  Forall b64char salt -> Forall b64char iv -> Forall b64char data ->
  Json.parse (payload_text salt iv data) = Returns (Vault.payload salt iv data).
Proof.
  intros Hs Hi Hd. unfold Json.parse, payload_text, Vault.payload. eval_js.
  cbn.
  repeat (rewrite lex_b64_string by assumption; cbn).
  reflexivity.
Qed.

(** ** PBKDF2 *)

Section KdfFacts.
Context {C : SubtleCrypto}.

Lemma iter_ext {A : Type} (f g : A -> A) (n : N) (x : A) :
  (forall y, f y = g y) -> N.iter n f x = N.iter n g x.
Proof.
  intros Hfg. rewrite !N2Nat.inj_iter.
  induction (N.to_nat n) as [|k IH]; simpl; [reflexivity|].
  rewrite IH. apply Hfg.
Qed.

(** A key shorter than a block and the same key followed by a zero byte
    are one HMAC key. *)
Lemma hmac_key_zero (key : list byte) :
  (length key < Kdf.block_size)%nat ->
  Kdf.hmac_key (key ++ [x00]) = Kdf.hmac_key key.
Proof.
  unfold Kdf.hmac_key, Kdf.block_size, Bytes.zeros. intros Hlen.
  rewrite length_app. cbn [length].
  destruct (Nat.ltb_spec 64 (length key + 1)) as [H|_]; [lia|].
  destruct (Nat.ltb_spec 64 (length key)) as [H|_]; [lia|].
  rewrite length_app. cbn [length]. rewrite <- app_assoc. f_equal.
  replace (64 - length key)%nat with (S (64 - (length key + 1))) by lia.
  reflexivity.
Qed.

Lemma hmac_zero (key msg : list byte) :
  (length key < Kdf.block_size)%nat ->
  Kdf.hmac (key ++ [x00]) msg = Kdf.hmac key msg.
Proof. intros H. unfold Kdf.hmac. rewrite hmac_key_zero by assumption. reflexivity. Qed.

(** Passwords that are one HMAC key derive one key, whatever the salt and
    the iteration count. *)
Lemma pbkdf2_same_hmac (p1 p2 salt : list byte) (c : N) (dkLen : nat) :
  (forall msg, Kdf.hmac p1 msg = Kdf.hmac p2 msg) ->
  Kdf.pbkdf2 p1 salt c dkLen = Kdf.pbkdf2 p2 salt c dkLen.
Proof.
  intros H. unfold Kdf.pbkdf2. f_equal.
  induction (seq 1 ((dkLen + Kdf.hash_size - 1) / Kdf.hash_size)) as [|i l IH];
    [reflexivity|].
  cbn [flat_map]. rewrite IH. f_equal.
  unfold Kdf.block. rewrite H. f_equal. apply iter_ext.
  intros [t u]. unfold Kdf.round. cbn [fst snd]. rewrite H. reflexivity.
Qed.

Context {L : SubtleCryptoLaws C}.

Lemma hmac_length (key msg : list byte) : length (Kdf.hmac key msg) = 32%nat.
Proof. unfold Kdf.hmac. apply sha256_length. Qed.

Lemma block_length (password salt : list byte) (c : N) (i : Z) :
  length (Kdf.block password salt c i) = 32%nat.
Proof.
  unfold Kdf.block.
  set (u1 := Kdf.hmac password (salt ++ Kdf.int32be i)).
  assert (H : length (fst (N.iter (c - 1) (Kdf.round password) (u1, u1))) = 32%nat
              /\ length (snd (N.iter (c - 1) (Kdf.round password) (u1, u1))) = 32%nat).
  { apply (N.iter_invariant (c - 1) _ (Kdf.round password)
             (fun tu => length (fst tu) = 32%nat /\ length (snd tu) = 32%nat)).
    - intros [t u] [Ht Hu]. cbn [fst snd] in *. unfold Kdf.round. cbn [fst snd].
      rewrite length_zip_with, Ht, hmac_length. split; reflexivity.
    - subst u1. cbn [fst snd]. rewrite hmac_length. split; reflexivity. }
  apply H.
Qed.

(** The derived key has 256 bits. *)
Lemma pbkdf2_length (password salt : list byte) (c : N) :
  length (Kdf.pbkdf2 password salt c 32) = 32%nat.
Proof.
  unfold Kdf.pbkdf2, Kdf.hash_size.
  change (seq 1 ((32 + 32 - 1) / 32)) with [1%nat].
  cbn [flat_map]. rewrite app_nil_r, length_take, block_length. reflexivity.
Qed.

End KdfFacts.

(** ** PBKDF2 over the toy digest *)

Section ToyKdf.

Let hmac := @Kdf.hmac Toy.provider.

Lemma xor_zero (b : byte) : Bytes.xor b x00 = b.
Proof. destruct b; reflexivity. Qed.

Lemma xor_6a_twice (b : byte) : Bytes.xor (Bytes.xor b x6a) x6a = b.
Proof. destruct b; reflexivity. Qed.

Lemma xor_pads (b : byte) :
  Bytes.xor (Bytes.xor x5c b) (Bytes.xor x36 b) = x6a.
Proof. destruct b; reflexivity. Qed.

Lemma zip_xor_zeros (l : list byte) :
  zip_with Bytes.xor l (Bytes.zeros (length l)) = l.
Proof.
  unfold Bytes.zeros. induction l as [|b l IH]; [reflexivity|].
  cbn [length repeat zip_with]. rewrite xor_zero, IH. reflexivity.
Qed.

Lemma zip_xor_6a_twice (l : list byte) :
  zip_with Bytes.xor (zip_with Bytes.xor l (repeat x6a (length l)))
    (repeat x6a (length l)) = l.
Proof.
  induction l as [|b l IH]; [reflexivity|].
  cbn [length repeat zip_with]. rewrite xor_6a_twice, IH. reflexivity.
Qed.

Lemma zip_xor_pads (l : list byte) :
  zip_with Bytes.xor (map (Bytes.xor x5c) l) (map (Bytes.xor x36) l)
  = repeat x6a (length l).
Proof.
  induction l as [|b l IH]; [reflexivity|].
  cbn [length repeat zip_with map]. rewrite xor_pads, IH. reflexivity.
Qed.

(** The key of HMAC, for a key of at most 32 bytes: 32 bytes that hold it
    and 32 zero bytes. *)
Lemma toy_hmac_key (key : list byte) :
  (length key <= 32)%nat ->
  Kdf.hmac_key (C := Toy.provider) key
  = take 32 (key ++ Bytes.zeros 32) ++ Bytes.zeros 32.
Proof.
  intros Hlen. unfold Kdf.hmac_key, Kdf.block_size, Bytes.zeros.
  destruct (Nat.ltb_spec 64 (length key)) as [H|_]; [lia|].
  rewrite take_app_ge by lia.
  replace (repeat x00 32) with
    (repeat x00 (32 - length key) ++ repeat x00 (length key)) at 1
    by (rewrite <- repeat_app; f_equal; lia).
  rewrite take_app_length' by (rewrite repeat_length; reflexivity).
  rewrite <- !app_assoc. f_equal. rewrite <- repeat_app. f_equal. lia.
Qed.

(** The digests HMAC takes. *)
Lemma toy_digest_inner (a u : list byte) :
  length a = 32%nat -> length u = 32%nat ->
  Toy.digest (map (Bytes.xor x36) (a ++ Bytes.zeros 32) ++ u)
  = map (Bytes.xor x36) a.
Proof.
  intros Ha Hu. unfold Toy.digest.
  rewrite map_app, <- app_assoc.
  rewrite !length_app, !length_map, Ha, Hu.
  change (length (Bytes.zeros 32)) with 32%nat. cbn [Nat.add Nat.eqb].
  rewrite drop_app_length' by (rewrite length_map; symmetry; exact Ha).
  rewrite take_app_length' by reflexivity.
  rewrite bool_decide_false by discriminate.
  rewrite take_app_length' by (rewrite length_map; symmetry; exact Ha). reflexivity.
Qed.

Lemma toy_digest_other (msg : list byte) :
  length msg <> 96%nat -> Toy.digest msg = Bytes.zeros 32.
Proof.
  intros H. unfold Toy.digest.
  destruct (Nat.eqb_spec (length msg) 96) as [Q|_]; [contradiction|reflexivity].
Qed.

Lemma toy_digest_outer (a u : list byte) :
  length a = 32%nat -> length u = 32%nat ->
  Toy.digest (map (Bytes.xor x5c) (a ++ Bytes.zeros 32) ++ u)
  = zip_with Bytes.xor (map (Bytes.xor x5c) a) u.
Proof.
  intros Ha Hu. unfold Toy.digest.
  rewrite map_app, <- app_assoc.
  rewrite !length_app, !length_map, Ha, Hu.
  change (length (Bytes.zeros 32)) with 32%nat. cbn [Nat.add Nat.eqb].
  rewrite drop_app_length' by (rewrite length_map; symmetry; exact Ha).
  rewrite take_app_length' by reflexivity.
  rewrite bool_decide_true by reflexivity.
  rewrite take_app_length' by (rewrite length_map; symmetry; exact Ha).
  rewrite app_assoc.
  rewrite drop_app_length'
    by (rewrite length_app, length_map, Ha; reflexivity).
  reflexivity.
Qed.

(** HMAC of a message of 32 bytes does not depend on the message, nor on
    the key. *)
Lemma toy_hmac_32 (key u : list byte) :
  (length key <= 32)%nat -> length u = 32%nat ->
  hmac key u = repeat x6a 32.
Proof.
  intros Hk Hu. unfold hmac, Kdf.hmac. rewrite toy_hmac_key by exact Hk.
  set (a := take 32 (key ++ Bytes.zeros 32)).
  assert (Ha : length a = 32%nat).
  { subst a. rewrite length_take, length_app. unfold Bytes.zeros.
    rewrite repeat_length. lia. }
  change (@sha256 Toy.provider) with Toy.digest.
  rewrite toy_digest_inner by assumption.
  rewrite toy_digest_outer by (rewrite ?length_map; assumption).
  rewrite zip_xor_pads, Ha. reflexivity.
Qed.

(** HMAC of a message of another length is the key, padded and masked. *)
Lemma toy_hmac_other (key msg : list byte) :
  (length key <= 32)%nat -> length msg <> 32%nat ->
  hmac key msg = map (Bytes.xor x5c) (take 32 (key ++ Bytes.zeros 32)).
Proof.
  intros Hk Hm. unfold hmac, Kdf.hmac. rewrite toy_hmac_key by exact Hk.
  set (a := take 32 (key ++ Bytes.zeros 32)).
  assert (Ha : length a = 32%nat).
  { subst a. rewrite length_take, length_app. unfold Bytes.zeros.
    rewrite repeat_length. lia. }
  change (@sha256 Toy.provider) with Toy.digest.
  rewrite (toy_digest_other (_ ++ msg)).
  2:{ rewrite length_app, length_map, length_app, Ha.
      change (length (Bytes.zeros 32)) with 32%nat. lia. }
  rewrite toy_digest_outer by (try assumption; reflexivity).
  rewrite <- (zip_xor_zeros (map (Bytes.xor x5c) a)) at 2.
  rewrite length_map, Ha. reflexivity.
Qed.

(** The rounds: after the first, every U is the same, and the running
    exclusive or alternates. *)
Lemma toy_rounds (key u1 : list byte) (n : N) :
  (length key <= 32)%nat -> length u1 = 32%nat ->
  N.iter n (Kdf.round (C := Toy.provider) key) (u1, u1)
  = if (n =? 0)%N then (u1, u1)
    else (if N.odd n then zip_with Bytes.xor u1 (repeat x6a 32) else u1,
          repeat x6a 32).
Proof.
  intros Hk Hu. induction n as [|n IH] using N.peano_ind; [reflexivity|].
  rewrite N.iter_succ, IH.
  destruct (N.eqb_spec (N.succ n) 0) as [Q|_]; [lia|].
  rewrite N.odd_succ, <- N.negb_odd.
  destruct (N.eqb_spec n 0) as [->|_].
  - unfold Kdf.round. cbn [fst snd]. fold hmac.
    rewrite toy_hmac_32 by assumption. reflexivity.
  - unfold Kdf.round. cbn [fst snd]. fold hmac.
    rewrite toy_hmac_32 by (try assumption; apply repeat_length).
    destruct (N.odd n); cbn [negb]; [|reflexivity].
    rewrite <- Hu at 1 2. rewrite zip_xor_6a_twice. reflexivity.
Qed.

(** What PBKDF2 derives over the toy digest. *)
Lemma toy_pbkdf2 (password salt : list byte) :
  (length password <= 32)%nat -> length salt = 16%nat ->
  Kdf.pbkdf2 (C := Toy.provider) password salt 200000 32 = Toy.key_of password.
Proof.
  intros Hk Hs. unfold Kdf.pbkdf2, Kdf.hash_size.
  change (seq 1 ((32 + 32 - 1) / 32)) with [1%nat].
  cbn [flat_map]. rewrite app_nil_r. unfold Kdf.block. fold hmac.
  assert (Hu : hmac password (salt ++ Kdf.int32be (Z.of_nat 1))
               = map (Bytes.xor x5c) (take 32 (password ++ Bytes.zeros 32))).
  { apply toy_hmac_other; [exact Hk|].
    rewrite length_app, Hs. cbn [Kdf.int32be length]. lia. }
  rewrite Hu.
  rewrite toy_rounds.
  - destruct (N.eqb_spec (200000 - 1) 0) as [Q|_]; [discriminate Q|].
    replace (N.odd (200000 - 1)) with true by reflexivity. cbn [fst].
    unfold Toy.key_of. apply take_ge.
    rewrite length_zip_with, length_map, length_take, length_app, repeat_length.
    unfold Bytes.zeros. rewrite repeat_length. lia.
  - exact Hk.
  - rewrite length_map, length_take, length_app. unfold Bytes.zeros.
    rewrite repeat_length. lia.
Qed.

End ToyKdf.

(** ** The vault *)

(** The rounds of PBKDF2 are never run in a proof. *)
#[local] Opaque Kdf.block.


Lemma deriveKey_returns {C : SubtleCrypto} (password : jsstring) (salt : list byte) :
  Vault.deriveKey password salt = Returns (derived password salt).
Proof. reflexivity. Qed.

Lemma bind_Returns {A B : Type} (a : A) (k : A -> outcome B) :
  (Returns a ≫= k) = k a.
Proof. reflexivity. Qed.

Lemma b64_chars (buf : list byte) : Forall b64char (b64 buf).
Proof. apply encode_chars, Forall_to_Z_range. Qed.

Lemma b64_nonempty (buf : list byte) : buf <> [] -> b64 buf <> [].
Proof.
  intros H. apply encode_nonempty. destruct buf; [congruence|discriminate].
Qed.

(** A buffer within the engine's bound is spread and encoded. *)
Lemma toBase64_returns {E : Engine} (buf : list byte) :
  (N.of_nat (length buf) <= max_arguments)%N ->
  Vault.toBase64 buf = Returns (b64 buf).
Proof.
  intros H. unfold Vault.toBase64.
  destruct (N.leb_spec (N.of_nat (length buf)) max_arguments) as [_|H']; [|lia].
  apply btoa_octets, Forall_to_Z_range.
Qed.

(** A larger one makes [String.fromCharCode] throw. *)
Lemma toBase64_throws {E : Engine} (buf : list byte) :
  (max_arguments < N.of_nat (length buf))%N ->
  Vault.toBase64 buf = Throws RangeError.
Proof.
  intros H. unfold Vault.toBase64.
  destruct (N.leb_spec (N.of_nat (length buf)) max_arguments) as [H'|_]; [lia|].
  reflexivity.
Qed.

(** Every engine takes the salt and the iv. *)
Lemma small_buffer {E : Engine} (buf : list byte) :
  (length buf <= 16)%nat -> (N.of_nat (length buf) <= max_arguments)%N.
Proof. unfold max_arguments. lia. Qed.

Lemma fromBase64_b64 (buf : list byte) : Vault.fromBase64 (b64 buf) = Returns buf.
Proof.
  unfold Vault.fromBase64, b64.
  rewrite atob_encode by apply Forall_to_Z_range.
  rewrite bind_Returns, map_of_to_Z. reflexivity.
Qed.

Lemma drawn_salt_length (e : entropy) : length (drawn_salt e) = 16%nat.
Proof. unfold drawn_salt, getRandomValues. cbn [fst]. rewrite length_map, length_seq. reflexivity. Qed.

Lemma drawn_iv_length (e : entropy) : length (drawn_iv e) = 12%nat.
Proof. unfold drawn_iv, getRandomValues. cbn [fst snd]. rewrite length_map, length_seq. reflexivity. Qed.

Section VaultFacts.
Context {C : SubtleCrypto} {E : Engine}.

(** [encryptText] returns this text when the engine can spread the cipher,
    and throws when it cannot. *)
Lemma encryptText_cases (plain password : jsstring) (e : entropy) :
  Vault.encryptText plain password e
  = (if (N.of_nat (length (sealed plain password e)) <=? max_arguments)%N
     then Returns (payload_text (b64 (drawn_salt e)) (b64 (drawn_iv e))
                     (b64 (sealed plain password e)))
     else Throws RangeError,
     snd (getRandomValues 12 (snd (getRandomValues 16 e)))).
Proof.
  pose proof (drawn_salt_length e) as Hs. pose proof (drawn_iv_length e) as Hi.
  revert Hs Hi.
  unfold Vault.encryptText, drawn_salt, drawn_iv.
  destruct (getRandomValues 16 e) as [salt e1]. cbn [fst snd].
  destruct (getRandomValues 12 e1) as [iv e2]. cbn [fst snd]. intros Hs Hi. f_equal.
  rewrite deriveKey_returns, bind_Returns.
  rewrite (toBase64_returns salt) by (apply small_buffer; lia).
  rewrite bind_Returns.
  rewrite (toBase64_returns iv) by (apply small_buffer; lia).
  rewrite bind_Returns.
  destruct (N.leb_spec (N.of_nat (length (aes_gcm_encrypt (derived password salt) iv
                                            (Utf8.encode plain)))) max_arguments)
    as [H|H].
  - rewrite toBase64_returns by exact H. rewrite bind_Returns.
    unfold Vault.stringified. rewrite stringify_payload by apply b64_chars.
    reflexivity.
  - rewrite toBase64_throws by exact H. reflexivity.
Qed.

Lemma guard_payload (s i d : jsstring) :
  s <> [] -> i <> [] -> d <> [] -> Vault.guard (Vault.payload s i d) = Some false.
Proof.
  intros Hs Hi Hd.
  destruct s as [|? ?]; [congruence|].
  destruct i as [|? ?]; [congruence|].
  destruct d as [|? ?]; [congruence|].
  reflexivity.
Qed.

(** On a payload of three non-empty buffers, [decryptText] is the
    provider's verdict under the key derived from the password and the
    stored salt. *)
Lemma decryptText_payload (salt iv data : list byte) (password : jsstring) :
  salt <> [] -> iv <> [] -> data <> [] ->
  Vault.decryptText (payload_text (b64 salt) (b64 iv) (b64 data)) password
  = match aes_gcm_decrypt (derived password salt) iv data with
    | Some plainBuf => Returns (Utf8.decode plainBuf)
    | None => Throws OperationError
    end.
Proof.
  intros Hs Hi Hd. unfold Vault.decryptText.
  rewrite parse_payload_text by apply b64_chars.
  rewrite bind_Returns. unfold Vault.decryptParsed.
  rewrite guard_payload by (apply b64_nonempty; assumption).
  replace (Json.prop (Vault.payload (b64 salt) (b64 iv) (b64 data)) (js "salt"))
    with (Some (Json.JStr (b64 salt))) by reflexivity.
  replace (Json.prop (Vault.payload (b64 salt) (b64 iv) (b64 data)) (js "iv"))
    with (Some (Json.JStr (b64 iv))) by reflexivity.
  replace (Json.prop (Vault.payload (b64 salt) (b64 iv) (b64 data)) (js "data"))
    with (Some (Json.JStr (b64 data))) by reflexivity.
  cbn [Vault.base64_arg Json.to_string].
  rewrite !bind_Returns, !fromBase64_b64, !bind_Returns.
  rewrite deriveKey_returns, bind_Returns. reflexivity.
Qed.

Context {L : SubtleCryptoLaws C}.

Lemma derived_length (password : jsstring) (salt : list byte) :
  length (derived password salt) = 32%nat.
Proof. apply pbkdf2_length. Qed.

Lemma sealed_length (plain password : jsstring) (e : entropy) :
  length (sealed plain password e) = (length (Utf8.encode plain) + 16)%nat.
Proof.
  apply gcm_tag_length; [apply derived_length | apply drawn_iv_length].
Qed.

(** With a cipher the engine can spread, [encryptText] returns this text. *)
Lemma encryptText_returns (plain password : jsstring) (e : entropy) :
  spreadable plain ->
  Vault.encryptText plain password e
  = (Returns (payload_text (b64 (drawn_salt e)) (b64 (drawn_iv e))
                (b64 (sealed plain password e))),
     snd (getRandomValues 12 (snd (getRandomValues 16 e)))).
Proof.
  unfold spreadable. intros H. rewrite encryptText_cases.
  destruct (N.leb_spec (N.of_nat (length (sealed plain password e))) max_arguments)
    as [_|H']; [reflexivity|].
  rewrite sealed_length in H'. lia.
Qed.

(** With a larger one it throws, the random bytes drawn all the same. *)
Lemma encryptText_throws (plain password : jsstring) (e : entropy) :
  ~ spreadable plain ->
  Vault.encryptText plain password e
  = (Throws RangeError, snd (getRandomValues 12 (snd (getRandomValues 16 e)))).
Proof.
  unfold spreadable. intros H. rewrite encryptText_cases.
  destruct (N.leb_spec (N.of_nat (length (sealed plain password e))) max_arguments)
    as [H'|_]; [|reflexivity].
  rewrite sealed_length in H'. lia.
Qed.

(** Decrypting what [encryptText] returned, with the same password. *)
Lemma decrypt_encrypt (plain password : jsstring) (e : entropy) :
  Forall unit_range plain -> spreadable plain ->
  exists text,
    fst (Vault.encryptText plain password e) = Returns text
    /\ Vault.decryptText text password = Returns (Utf8.normalise plain).
Proof.
  intros Hp Hsp. rewrite encryptText_returns by exact Hsp.
  cbn [fst]. eexists. split; [reflexivity|].
  rewrite decryptText_payload.
  - rewrite (gcm_decrypt_encrypt _ _ _ (derived_length _ _) (drawn_iv_length _)).
    rewrite decode_encode by assumption. reflexivity.
  - intros Q. pose proof (drawn_salt_length e) as H. rewrite Q in H. discriminate.
  - intros Q. pose proof (drawn_iv_length e) as H. rewrite Q in H. discriminate.
  - intros Q. pose proof (sealed_length plain password e) as H. rewrite Q in H.
    cbn [length] in H. lia.
Qed.

End VaultFacts.

(** ** The toy provider is lawful *)

Lemma toy_tag_length (key iv : list byte) : length (Toy.tag key iv) = 16%nat.
Proof.
  unfold Toy.tag, Bytes.zeros.
  rewrite length_take, !length_app, repeat_length. lia.
Qed.

Lemma toy_laws : SubtleCryptoLaws Toy.provider.
Proof.
  split.
  - intros msg. cbn. unfold Toy.digest, Bytes.zeros.
    destruct (Nat.eqb_spec (length msg) 96) as [H|_];
      [|apply repeat_length].
    destruct (bool_decide _).
    + rewrite length_zip_with, length_take, length_drop. lia.
    + rewrite length_take. lia.
  - intros key iv pt _ _. cbn. unfold Toy.open, Toy.seal.
    rewrite length_app, toy_tag_length.
    replace (length pt + 16 - 16)%nat with (length pt) by lia.
    rewrite drop_app_length, take_app_length.
    rewrite bool_decide_true by lia. rewrite bool_decide_true by reflexivity.
    reflexivity.
  - intros key iv pt _ _. cbn. unfold Toy.seal.
    rewrite length_app, toy_tag_length. reflexivity.
Qed.

(** What the toy opens ends with the tag of its key and iv. *)
Lemma toy_open_tag (key iv data : list byte) :
  Toy.open key iv data <> None ->
  (16 <= length data)%nat /\ drop (length data - 16) data = Toy.tag key iv.
Proof.
  unfold Toy.open. intros H.
  destruct (bool_decide (16 <= length data)%nat) eqn:H1; [|contradiction].
  destruct (bool_decide (drop (length data - 16) data = Toy.tag key iv)) eqn:H2;
    [|contradiction].
  apply bool_decide_eq_true in H1, H2. split; assumption.
Qed.

Lemma toy_authentic : GcmAuthentic Toy.provider.
Proof.
  split.
  - intros key iv data pt _ _. cbn. intros H.
    destruct (toy_open_tag key iv data) as [H1 H2]; [congruence|].
    unfold Toy.open in H. rewrite H2 in H.
    rewrite bool_decide_true in H by exact H1.
    rewrite bool_decide_true in H by reflexivity. cbn [andb] in H.
    injection H as <-. unfold Toy.seal. rewrite <- H2. symmetry. apply take_drop.
  - intros key iv body t t' _ _ Ht Ht'. cbn. intros H H'.
    apply toy_open_tag in H, H'. destruct H as [_ H]. destruct H' as [_ H'].
    rewrite length_app in H, H'. rewrite Ht in H. rewrite Ht' in H'.
    replace (length body + 16 - 16)%nat with (length body) in H, H' by lia.
    rewrite drop_app_length in H, H'. congruence.
  - intros key iv iv' data _ Hi Hi'. cbn. intros H H'.
    apply toy_open_tag in H, H'. destruct H as [_ H]. destruct H' as [_ H'].
    rewrite H' in H. unfold Toy.tag in H.
    apply (f_equal (take 12)) in H.
    rewrite !take_take in H. change (12 `min` 16)%nat with 12%nat in H.
    rewrite !take_app_length' in H by (symmetry; assumption).
    symmetry. exact H.
Qed.

(** Two sealed buffers that are equal have equal tags. *)
Lemma toy_seal_tag (key key' iv pt pt' : list byte) :
  aes_gcm_encrypt (SubtleCrypto := Toy.provider) key iv pt
  = aes_gcm_encrypt (SubtleCrypto := Toy.provider) key' iv pt' ->
  Toy.tag key iv = Toy.tag key' iv.
Proof.
  cbn. unfold Toy.seal. intros H.
  apply app_inj_2 in H; [|rewrite !toy_tag_length; reflexivity].
  apply H.
Qed.

(** The key the toy derives from a passphrase of at most 32 bytes. *)
Lemma toy_derived (password : jsstring) (salt : list byte) :
  (length (Utf8.encode password) <= 32)%nat -> length salt = 16%nat ->
  Kdf.pbkdf2 (C := Toy.provider) (Utf8.encode password) salt 200000 32
  = Toy.key_of (Utf8.encode password).
Proof. apply toy_pbkdf2. Qed.

(** The encoding of ASCII text has one byte for each character. *)
Lemma encode_ascii_length (c : Z) (n : nat) :
  0 <= c < 128 -> length (Utf8.encode (repeat c n)) = n.
Proof.
  intros Hc. unfold Utf8.encode. rewrite length_map.
  induction n as [|n IH]; [reflexivity|].
  cbn [repeat Utf8.to_scalars].
  replace (Utf8.is_high c) with false
    by (unfold Utf8.is_high; zbool; try reflexivity; lia).
  replace (Utf8.is_low c) with false
    by (unfold Utf8.is_low; zbool; try reflexivity; lia).
  cbn [flat_map]. unfold Utf8.encode_scalar at 1.
  replace (c <? 128) with true by (zbool; try reflexivity; lia).
  cbn [app length]. rewrite IH. reflexivity.
Qed.

Lemma long_text_not_spreadable {E : Engine} : ~ spreadable long_text.
Proof.
  unfold spreadable, long_text. rewrite encode_ascii_length by lia. lia.
Qed.

(** Deciding that a text at hand can be spread. *)
Ltac spread := unfold spreadable, max_arguments; vm_compute; discriminate.

(** ** Claims on the vault *)

(** In every case [decryptText (encryptText P p) p] is [P] normalised: lone
    surrogates replaced by U+FFFD and a leading U+FEFF dropped. *)
Lemma roundtrip_normalises (C : SubtleCrypto) (E : Engine) (L : SubtleCryptoLaws C)
    (P p : jsstring) (e : entropy) :
  Forall unit_range P -> spreadable P ->
  exists text,
    fst (Vault.encryptText P p e) = Returns text
    /\ Vault.decryptText text p = Returns (Utf8.normalise P).
Proof. apply decrypt_encrypt. Qed.

(** C1, as amended: for every passphrase [p] and every state of the random
    source, a plaintext [P] whose cipher (its UTF-8 bytes and 16 more) is
    within the number of arguments the engine takes makes [encryptText]
    return a payload that [decryptText] with [p] turns back into [P] with
    its lone surrogates replaced by U+FFFD and a leading U+FEFF dropped,
    which is exactly [P] when [P] is well-formed and does not start with
    U+FEFF (the empty string and text with multi-byte characters included);
    a longer plaintext makes [encryptText] throw a RangeError. *)
Theorem decrypt_encrypt_roundtrip (C : SubtleCrypto) (E : Engine)
    (L : SubtleCryptoLaws C) (P p : jsstring) (e : entropy) :
  (spreadable P -> Utf8.well_formed P = true -> Utf8.no_bom P = true ->
   exists text,
     fst (Vault.encryptText P p e) = Returns text
     /\ Vault.decryptText text p = Returns P)
  /\ (spreadable P -> Forall unit_range P ->
      exists text,
        fst (Vault.encryptText P p e) = Returns text
        /\ Vault.decryptText text p = Returns (Utf8.normalise P))
  /\ (~ spreadable P -> fst (Vault.encryptText P p e) = Throws RangeError).
Proof.
  split; [|split].
  - intros Hsp Hwf Hbom.
    destruct (decrypt_encrypt P p e (well_formed_range P Hwf) Hsp)
      as (text & He & Hd).
    exists text. split; [exact He|].
    rewrite Hd, normalise_well_formed by assumption. reflexivity.
  - intros Hsp Hp. exact (decrypt_encrypt P p e Hp Hsp).
  - intros Hsp. rewrite encryptText_throws by exact Hsp. reflexivity.
Qed.

(** The scenario of the spec, with a multi-byte tail: the key
    [AIza-example-key-123] followed by U+4E2D and U+1F600, under the
    passphrase [correct horse]. *)
Lemma decrypt_encrypt_roundtrip_witness :
  spreadable (E := Toy.engine)
    (js "AIza-example-key-123" ++ [0x4E2D; 0xD83D; 0xDE00])
  /\ Utf8.well_formed (js "AIza-example-key-123" ++ [0x4E2D; 0xD83D; 0xDE00]) = true
  /\ Utf8.no_bom (js "AIza-example-key-123" ++ [0x4E2D; 0xD83D; 0xDE00]) = true
  /\ exists text,
       fst (Vault.encryptText (C := Toy.provider) (E := Toy.engine)
              (js "AIza-example-key-123" ++ [0x4E2D; 0xD83D; 0xDE00])
              (js "correct horse") Toy.counter) = Returns text
       /\ Vault.decryptText (C := Toy.provider) text (js "correct horse")
          = Returns (js "AIza-example-key-123" ++ [0x4E2D; 0xD83D; 0xDE00]).
Proof.
  split; [spread|]. split; [reflexivity|]. split; [reflexivity|].
  apply (proj1 (decrypt_encrypt_roundtrip Toy.provider Toy.engine toy_laws
                  _ _ _));
    [spread | reflexivity | reflexivity].
Defined.

(** C1 as stated fails: a plaintext that starts with U+FEFF is well-formed,
    and comes back without it, under every lawful provider and in every
    engine. *)
Lemma decrypt_encrypt_drops_bom :
  Utf8.well_formed (0xFEFF :: js "abc") = true
  /\ js "abc" <> 0xFEFF :: js "abc"
  /\ forall (C : SubtleCrypto) (E : Engine), SubtleCryptoLaws C ->
     forall e : entropy,
     exists text,
       fst (Vault.encryptText (0xFEFF :: js "abc") (js "pw") e) = Returns text
       /\ Vault.decryptText text (js "pw") = Returns (js "abc").
Proof.
  split; [reflexivity|]. split; [discriminate|].
  intros C E L e.
  destruct (decrypt_encrypt (0xFEFF :: js "abc") (js "pw") e) as (text & He & Hd).
  { repeat constructor; unfold unit_range; cbn; lia. }
  { unfold spreadable, max_arguments.
    change (N.of_nat (length (Utf8.encode (0xFEFF :: js "abc")))) with 6%N. lia. }
  exists text. split; [exact He|]. rewrite Hd. reflexivity.
Qed.

(** The passphrase [pw] and the passphrase [pw] followed by U+0000 derive
    one key from every salt: HMAC fills a short key with zero bytes. *)
Lemma derived_nul (C : SubtleCrypto) (salt : list byte) :
  derived [112; 119; 0] salt = derived (js "pw") salt.
Proof.
  replace (Utf8.encode [112; 119; 0]) with (Utf8.encode (js "pw") ++ [x00])
    by reflexivity.
  apply pbkdf2_same_hmac. intros msg. apply hmac_zero.
  replace (Utf8.encode (js "pw")) with [x70; x77] by reflexivity.
  unfold Kdf.block_size. cbn [length]. lia.
Qed.

(** C2 as stated fails: the payload of [encryptText "secret" "pw"] is
    decrypted, to the plaintext, by the different passphrase [pw] followed by
    U+0000, under every lawful provider and in every engine. *)
Lemma decrypt_accepts_other_passphrase :
  js "pw" <> [112; 119; 0]
  /\ forall (C : SubtleCrypto) (E : Engine), SubtleCryptoLaws C ->
     forall e : entropy,
     exists text,
       fst (Vault.encryptText (js "secret") (js "pw") e) = Returns text
       /\ Vault.decryptText text [112; 119; 0] = Returns (js "secret").
Proof.
  split; [discriminate|]. intros C E L e.
  rewrite encryptText_returns.
  2:{ unfold spreadable, max_arguments.
      change (N.of_nat (length (Utf8.encode (js "secret")))) with 6%N. lia. }
  cbn [fst]. eexists. split; [reflexivity|].
  rewrite decryptText_payload.
  - rewrite derived_nul.
    rewrite (gcm_decrypt_encrypt _ _ _ (derived_length _ _) (drawn_iv_length _)).
    rewrite decode_encode by (repeat constructor; unfold unit_range; cbn; lia).
    reflexivity.
  - intros Q. pose proof (drawn_salt_length e) as H. rewrite Q in H. discriminate.
  - intros Q. pose proof (drawn_iv_length e) as H. rewrite Q in H. discriminate.
  - intros Q. pose proof (sealed_length (js "secret") (js "pw") e) as H.
    rewrite Q in H. cbn [length] in H. lia.
Qed.

Lemma nonempty_length {A : Type} (l : list A) (n : nat) :
  length l = S n -> l <> [].
Proof. intros H ->. discriminate. Qed.

(** With a provider that rejects the data, whatever made it reject (another
    key, another iv, changed data), the failure is OperationError. *)
Lemma decryptText_rejected_data (C : SubtleCrypto)
    (salt iv data : list byte) (password : jsstring) :
  salt <> [] -> iv <> [] -> data <> [] ->
  aes_gcm_decrypt (derived password salt) iv data = None ->
  Vault.decryptText (payload_text (b64 salt) (b64 iv) (b64 data)) password
  = Throws OperationError.
Proof.
  intros Hs Hi Hd Hrej.
  rewrite decryptText_payload by assumption. rewrite Hrej. reflexivity.
Qed.

(** C2, as amended. The payload [encryptText P pw1] wrote holds the salt
    and the iv that were drawn and the data AES-GCM made. Read back with
    its fields changed and a passphrase [pw2], the salt and the data not
    empty and the iv of 12 bytes:
    - whatever was changed, [decryptText] throws OperationError (the
      provider's; the code has no error of its own here) or returns the
      decoding of a plaintext that AES-GCM, under the key derived from [pw2]
      and the salt read and with the iv read, seals to exactly the data
      read, and nothing else;
    - when [pw2] derives the key of [pw1] from the drawn salt, it throws
      OperationError on data that differs from the data written in its last
      16 bytes (the tag) only, and on the data written with another iv. *)
Theorem decryptText_rejects (C : SubtleCrypto) (L : SubtleCryptoLaws C)
    (A : GcmAuthentic C) (P pw1 pw2 : jsstring) (e : entropy) :
  (forall salt iv data : list byte,
     salt <> [] -> length iv = 12%nat -> data <> [] ->
     Vault.decryptText (payload_text (b64 salt) (b64 iv) (b64 data)) pw2
     = Throws OperationError
     \/ exists pt,
          Vault.decryptText (payload_text (b64 salt) (b64 iv) (b64 data)) pw2
          = Returns (Utf8.decode pt)
          /\ data = aes_gcm_encrypt (derived pw2 salt) iv pt)
  /\ (derived pw2 (drawn_salt e) = derived pw1 (drawn_salt e) ->
      forall data : list byte,
        length data = length (sealed P pw1 e) ->
        take (length data - 16) data
        = take (length data - 16) (sealed P pw1 e) ->
        data <> sealed P pw1 e ->
        Vault.decryptText
          (payload_text (b64 (drawn_salt e)) (b64 (drawn_iv e)) (b64 data)) pw2
        = Throws OperationError)
  /\ (derived pw2 (drawn_salt e) = derived pw1 (drawn_salt e) ->
      forall iv : list byte,
        length iv = 12%nat -> iv <> drawn_iv e ->
        Vault.decryptText
          (payload_text (b64 (drawn_salt e)) (b64 iv) (b64 (sealed P pw1 e))) pw2
        = Throws OperationError).
Proof.
  pose proof (drawn_salt_length e) as Hsalt.
  pose proof (drawn_iv_length e) as Hiv.
  pose proof (sealed_length P pw1 e) as Hlen.
  pose proof (gcm_decrypt_encrypt (derived pw1 (drawn_salt e)) (drawn_iv e)
                (Utf8.encode P) (derived_length _ _) Hiv) as Hopen.
  split; [|split].
  - intros salt iv data Hs Hi Hd.
    rewrite decryptText_payload
      by (try assumption; exact (nonempty_length _ _ Hi)).
    destruct (aes_gcm_decrypt (derived pw2 salt) iv data) as [pt|] eqn:Hdec.
    + right. exists pt. split; [reflexivity|].
      exact (gcm_genuine _ _ _ _ (derived_length _ _) Hi Hdec).
    + left. reflexivity.
  - intros Hkey data Hdl Hbody Hne.
    apply decryptText_rejected_data.
    + exact (nonempty_length _ _ Hsalt).
    + exact (nonempty_length _ _ Hiv).
    + intros ->. rewrite Hlen in Hdl. cbn [length] in Hdl. lia.
    + rewrite Hkey.
      destruct (aes_gcm_decrypt (derived pw1 (drawn_salt e)) (drawn_iv e) data)
        as [pt|] eqn:Hdec; [|reflexivity].
      exfalso. apply Hne.
      rewrite <- (take_drop (length data - 16) data).
      rewrite <- (take_drop (length data - 16) (sealed P pw1 e)).
      rewrite <- Hbody. f_equal.
      apply (gcm_one_tag (derived pw1 (drawn_salt e)) (drawn_iv e)
               (take (length data - 16) data)).
      * apply derived_length.
      * exact Hiv.
      * rewrite length_drop. lia.
      * rewrite length_drop. lia.
      * rewrite take_drop, Hdec. discriminate.
      * rewrite Hbody, take_drop, Hopen. discriminate.
  - intros Hkey iv Hi Hne.
    apply decryptText_rejected_data.
    + exact (nonempty_length _ _ Hsalt).
    + exact (nonempty_length _ _ Hi).
    + intros Q. rewrite Q in Hlen. cbn [length] in Hlen. lia.
    + rewrite Hkey.
      destruct (aes_gcm_decrypt (derived pw1 (drawn_salt e)) iv (sealed P pw1 e))
        as [pt|] eqn:Hdec; [|reflexivity].
      exfalso. apply Hne.
      apply (gcm_one_iv (derived pw1 (drawn_salt e)) iv (drawn_iv e)
               (sealed P pw1 e)).
      * apply derived_length.
      * exact Hi.
      * exact Hiv.
      * rewrite Hdec. discriminate.
      * rewrite Hopen. discriminate.
Qed.

(** Under the toy provider: the payload written for the key
    [AIza-example-key-123] under [correct horse] is refused with the
    passphrase [wrong], and, with the right passphrase, with its tag or its
    iv changed. *)
Lemma decryptText_rejects_witness :
  Vault.decryptText (C := Toy.provider)
    (payload_text (b64 (drawn_salt Toy.counter)) (b64 (drawn_iv Toy.counter))
       (b64 (aes_gcm_encrypt (SubtleCrypto := Toy.provider)
               (Toy.key_of (Utf8.encode (js "correct horse")))
               (drawn_iv Toy.counter)
               (Utf8.encode (js "AIza-example-key-123")))))
    (js "wrong")
  = Throws OperationError
  /\ Vault.decryptText (C := Toy.provider)
       (payload_text (b64 (drawn_salt Toy.counter)) (b64 (drawn_iv Toy.counter))
          (b64 (Utf8.encode (js "AIza-example-key-123") ++ repeat xff 16)))
       (js "correct horse")
     = Throws OperationError
  /\ Vault.decryptText (C := Toy.provider)
       (payload_text (b64 (drawn_salt Toy.counter)) (b64 (repeat xff 12))
          (b64 (aes_gcm_encrypt (SubtleCrypto := Toy.provider)
                  (Toy.key_of (Utf8.encode (js "correct horse")))
                  (drawn_iv Toy.counter)
                  (Utf8.encode (js "AIza-example-key-123")))))
       (js "correct horse")
     = Throws OperationError.
Proof.
  assert (Hsalt : length (drawn_salt Toy.counter) = 16%nat)
    by (vm_compute; reflexivity).
  assert (Hpw : (length (Utf8.encode (js "correct horse")) <= 32)%nat)
    by (vm_compute; lia).
  assert (Hw : (length (Utf8.encode (js "wrong")) <= 32)%nat)
    by (vm_compute; lia).
  pose proof (decryptText_rejects Toy.provider toy_laws toy_authentic
                (js "AIza-example-key-123") (js "correct horse")
                (js "wrong") Toy.counter) as (H1 & _ & _).
  pose proof (decryptText_rejects Toy.provider toy_laws toy_authentic
                (js "AIza-example-key-123") (js "correct horse")
                (js "correct horse") Toy.counter) as (_ & H2 & H3).
  specialize (H2 eq_refl). specialize (H3 eq_refl).
  rewrite (toy_derived (js "correct horse") (drawn_salt Toy.counter) Hpw Hsalt)
    in H2, H3.
  split; [|split].
  - destruct (H1 (drawn_salt Toy.counter) (drawn_iv Toy.counter)
                (aes_gcm_encrypt (SubtleCrypto := Toy.provider)
                   (Toy.key_of (Utf8.encode (js "correct horse")))
                   (drawn_iv Toy.counter)
                   (Utf8.encode (js "AIza-example-key-123"))))
      as [H|(pt & _ & H)].
    + exact (nonempty_length _ 15 Hsalt).
    + vm_compute. reflexivity.
    + apply (nonempty_length _ 35). vm_compute. reflexivity.
    + exact H.
    + exfalso.
      rewrite (toy_derived (js "wrong") (drawn_salt Toy.counter) Hw Hsalt) in H.
      pose proof (toy_seal_tag _ _ _ _ _ H) as Ht. clear H.
      vm_compute in Ht. discriminate Ht.
  - apply (H2 (Utf8.encode (js "AIza-example-key-123") ++ repeat xff 16)).
    + vm_compute. reflexivity.
    + vm_compute. reflexivity.
    + intros Q. vm_compute in Q. discriminate Q.
  - apply (H3 (repeat xff 12)).
    + vm_compute. reflexivity.
    + intros Q. vm_compute in Q. discriminate Q.
Defined.

(** C6, as amended: [deriveKey] has no error path at all. For every
    passphrase, the empty one included, and every salt, of any length, it
    returns a key, and the key has 256 bits. *)
Theorem deriveKey_total (C : SubtleCrypto) (L : SubtleCryptoLaws C)
    (password : jsstring) (salt : list byte) :
  exists key,
    Vault.deriveKey password salt = Returns key /\ length key = 32%nat.
Proof.
  exists (derived password salt). split; [apply deriveKey_returns|].
  apply pbkdf2_length.
Qed.

Lemma deriveKey_total_witness :
  exists key,
    Vault.deriveKey (C := Toy.provider) [] [x01; x02; x03] = Returns key
    /\ length key = 32%nat.
Proof. apply (deriveKey_total Toy.provider toy_laws). Defined.

(** C6 as stated fails: a salt of three bytes is not refused. *)
Lemma deriveKey_accepts_short_salt :
  length [x01; x02; x03] <> 16%nat
  /\ forall (C : SubtleCrypto) (password : jsstring),
     exists key, Vault.deriveKey password [x01; x02; x03] = Returns key.
Proof.
  split; [discriminate|]. intros C password. eexists. apply deriveKey_returns.
Qed.

(** [fromBase64] throws nothing but InvalidCharacterError. *)
Lemma fromBase64_throws (b64text : jsstring) (e : exn) :
  Vault.fromBase64 b64text = Throws e -> e = InvalidCharacterError.
Proof.
  unfold Vault.fromBase64, Base64.atob.
  destruct (Base64.decode _); cbn; intros H; [discriminate|].
  injection H as <-. reflexivity.
Qed.

(** Reading a field throws InvalidCharacterError or, for an object that
    has no string, TypeError. *)
Lemma base64_arg_throws (x : option Json.json) (e : exn) :
  Vault.base64_arg x ≫= Vault.fromBase64 = Throws e ->
  e = InvalidCharacterError \/ e = TypeError.
Proof.
  unfold Vault.base64_arg. destruct x as [v|].
  - destruct (Json.to_string v).
    + rewrite bind_Returns. intros H. left. exact (fromBase64_throws _ _ H).
    + destruct (Json.stringable v); [discriminate|].
      intros H. injection H as <-. right. reflexivity.
  - rewrite bind_Returns. intros H. left. exact (fromBase64_throws _ _ H).
Qed.

Section GuardFacts.
Context {C : SubtleCrypto}.

(** After the guard, nothing throws the guard's error. *)
Lemma decryptParsed_guarded (parsed : Json.json) (password : jsstring) :
  Vault.guard parsed = Some false ->
  Vault.decryptParsed parsed password <> Throws InvalidEncryptedPayload.
Proof.
  intros Hg. unfold Vault.decryptParsed. rewrite Hg.
  destruct (Vault.base64_arg (Json.prop parsed (js "salt")) ≫= Vault.fromBase64)
    as [salt|e|] eqn:Es.
  2:{ apply base64_arg_throws in Es. destruct Es; subst e; discriminate. }
  2:{ discriminate. }
  rewrite bind_Returns.
  destruct (Vault.base64_arg (Json.prop parsed (js "iv")) ≫= Vault.fromBase64)
    as [iv|e|] eqn:Ei.
  2:{ apply base64_arg_throws in Ei. destruct Ei; subst e; discriminate. }
  2:{ discriminate. }
  rewrite bind_Returns.
  destruct (Vault.base64_arg (Json.prop parsed (js "data")) ≫= Vault.fromBase64)
    as [data|e|] eqn:Ed.
  2:{ apply base64_arg_throws in Ed. destruct Ed; subst e; discriminate. }
  2:{ discriminate. }
  rewrite bind_Returns, deriveKey_returns, bind_Returns.
  destruct (aes_gcm_decrypt _ iv data); discriminate.
Qed.

Lemma decryptParsed_invalid (parsed : Json.json) (password : jsstring) :
  Vault.decryptParsed parsed password = Throws InvalidEncryptedPayload
  <-> Vault.guard parsed = Some true.
Proof.
  split.
  - intros H. destruct (Vault.guard parsed) as [[|]|] eqn:Hg; [reflexivity| |].
    + exfalso. exact (decryptParsed_guarded parsed password Hg H).
    + unfold Vault.decryptParsed in H. rewrite Hg in H. discriminate.
  - intros Hg. unfold Vault.decryptParsed. rewrite Hg. reflexivity.
Qed.

End GuardFacts.

(** Every value is truthy or falsy, and every guard is decided. *)
Lemma truthy_decided (v : Json.json) : exists b, Json.truthy v = Some b.
Proof. destruct v as [|b|m e|s| |]; eexists; reflexivity. Qed.

Lemma not_decided (x : option Json.json) : exists b, Vault.not_ x = Some b.
Proof.
  destruct x as [v|]; [|eexists; reflexivity].
  destruct (truthy_decided v) as (b & Hb). cbn. rewrite Hb. eexists. reflexivity.
Qed.

Lemma guard_cases (parsed : Json.json) :
  Vault.guard parsed
  = Some (match Json.truthy parsed with Some false => true | _ => false end
          || match Vault.not_ (Json.prop parsed (js "salt")) with
             | Some true => true | _ => false end
          || match Vault.not_ (Json.prop parsed (js "iv")) with
             | Some true => true | _ => false end
          || match Vault.not_ (Json.prop parsed (js "data")) with
             | Some true => true | _ => false end).
Proof.
  unfold Vault.guard.
  destruct (truthy_decided parsed) as ([|] & ->);
  destruct (not_decided (Json.prop parsed (js "salt"))) as ([|] & ->);
  destruct (not_decided (Json.prop parsed (js "iv"))) as ([|] & ->);
  destruct (not_decided (Json.prop parsed (js "data"))) as ([|] & ->);
  reflexivity.
Qed.

(** C7, as amended: [decryptText] throws the error Invalid encrypted payload
    exactly when the text parses and the parsed value fails the guard, that
    is when it is falsy or its [salt], [iv] or [data] is missing or falsy;
    the falsy values are null, false, the empty string and the numbers that
    are zero, written as zero or rounded to zero (as 1e-400 is). It does
    not check that the fields are base64. In particular it throws that
    error on the text of [{v: 1, salt: "", iv: "", data: ""}], whatever the
    passphrase. *)
Theorem decryptText_invalid_payload (C : SubtleCrypto) :
  (forall text password : jsstring,
     Vault.decryptText text password = Throws InvalidEncryptedPayload
     <-> exists parsed,
           Json.parse text = Returns parsed /\ Vault.guard parsed = Some true)
  /\ (forall text password : jsstring,
        Json.stringify (Vault.payload [] [] []) = Some text ->
        Vault.decryptText text password = Throws InvalidEncryptedPayload)
  /\ (forall parsed : Json.json,
        (Vault.guard parsed = Some true \/ Vault.guard parsed = Some false)
        /\ (Vault.guard parsed = Some true
            <-> Json.truthy parsed = Some false
                \/ Vault.not_ (Json.prop parsed (js "salt")) = Some true
                \/ Vault.not_ (Json.prop parsed (js "iv")) = Some true
                \/ Vault.not_ (Json.prop parsed (js "data")) = Some true))
  /\ (forall x : option Json.json,
        Vault.not_ x = Some true
        <-> x = None \/ exists v, x = Some v /\ Json.truthy v = Some false)
  /\ (forall v : Json.json,
        Json.truthy v = Some false
        <-> v = Json.JNull \/ v = Json.JBool false \/ v = Json.JStr []
            \/ exists m e,
                 v = Json.JNum m e /\ (m = 0 \/ Json.underflows m e = true))
  /\ Json.parse (js "1e-400") = Returns (Json.JNum 1 (-400))
  /\ Json.underflows 1 (-400) = true.
Proof.
  split; [|split; [|split; [|split; [|split; [|split]]]]].
  - intros text password. unfold Vault.decryptText. split.
    + destruct (Json.parse text) as [parsed|e|] eqn:Ep.
      * rewrite bind_Returns. intros H. exists parsed. split; [reflexivity|].
        apply (decryptParsed_invalid parsed password), H.
      * unfold Json.parse in Ep.
        destruct (_ ≫= _) in Ep; [discriminate|]. injection Ep as <-.
        discriminate.
      * discriminate.
    + intros (parsed & Hp & Hg). rewrite Hp, bind_Returns.
      apply decryptParsed_invalid, Hg.
  - intros text password Ht.
    rewrite stringify_payload in Ht by constructor. injection Ht as <-.
    unfold Vault.decryptText. rewrite parse_payload_text by constructor.
    rewrite bind_Returns. apply decryptParsed_invalid. reflexivity.
  - intros parsed. rewrite guard_cases.
    destruct (truthy_decided parsed) as ([|] & ->);
    destruct (not_decided (Json.prop parsed (js "salt"))) as ([|] & ->);
    destruct (not_decided (Json.prop parsed (js "iv"))) as ([|] & ->);
    destruct (not_decided (Json.prop parsed (js "data"))) as ([|] & ->);
    cbn [orb]; (split; [auto|]); split; intros H; auto;
    repeat match goal with
           | H : _ \/ _ |- _ => destruct H
           end; discriminate.
  - intros [v|]; cbn.
    + destruct (truthy_decided v) as ([|] & Hb); rewrite Hb; cbn; split.
      * discriminate.
      * intros [H|(v' & H & H')]; [discriminate|].
        injection H as <-. congruence.
      * intros _. right. exists v. auto.
      * reflexivity.
    + split; auto.
  - intros v. destruct v as [|[|]|m e|[|c s]| |]; cbn; split; intros H;
      try discriminate; auto 6;
      repeat match goal with
             | H : _ \/ _ |- _ => destruct H
             | H : exists _, _ |- _ => destruct H
             | H : _ /\ _ |- _ => destruct H
             end;
      try discriminate.
    + right. right. right. exists m, e. split; [reflexivity|].
      destruct (Z.eqb_spec m 0) as [->|Hm]; [left; reflexivity|].
      cbn [orb] in H. right. destruct (Json.underflows m e); [reflexivity|].
      discriminate.
    + match goal with E : Json.JNum _ _ = Json.JNum _ _ |- _ =>
        injection E as -> -> end.
      subst. reflexivity.
    + match goal with E : Json.JNum _ _ = Json.JNum _ _ |- _ =>
        injection E as -> -> end.
      match goal with E : Json.underflows _ _ = true |- _ => rewrite E end.
      rewrite orb_true_r. reflexivity.
  - vm_compute. reflexivity.
  - vm_compute. reflexivity.
Qed.

(** C7 as stated fails: fields that are present, not empty and not base64
    make [atob] throw InvalidCharacterError, not the error of the guard. *)
Lemma decryptText_bad_base64 :
  exists text,
    Json.stringify (Vault.payload (js "!") (js "AAAA") (js "AAAA")) = Some text
    /\ forall (C : SubtleCrypto) (password : jsstring),
       Vault.decryptText text password = Throws InvalidCharacterError.
Proof.
  eexists. split; [reflexivity|]. intros C password.
  unfold Vault.decryptText.
  replace (Json.parse _) with
    (Returns (Vault.payload (js "!") (js "AAAA") (js "AAAA")))
    by (vm_compute; reflexivity).
  rewrite bind_Returns. unfold Vault.decryptParsed.
  replace (Vault.guard _) with (Some false) by reflexivity.
  replace (Vault.base64_arg (Json.prop _ (js "salt")) ≫= Vault.fromBase64)
    with (@Throws (list byte) InvalidCharacterError) by (vm_compute; reflexivity).
  reflexivity.
Qed.

(** C8, as amended: for every passphrase and state of the random source, a
    plaintext whose cipher (its UTF-8 bytes and 16 more) is within the
    number of arguments the engine takes makes [encryptText] return a text
    that parses to the object [{v: 1, salt, iv, data}], whose [salt] decodes
    from base64 to the 16 bytes drawn first, whose [iv] decodes to the 12
    bytes drawn next, and whose [data] decodes to the output of AES-GCM
    (ciphertext and tag: 16 bytes more than the UTF-8 plaintext) under the
    key derived from the passphrase and that salt, with that iv. A longer
    plaintext makes [encryptText] throw a RangeError, and no payload is
    returned. *)
Theorem encryptText_payload_shape (C : SubtleCrypto) (E : Engine)
    (L : SubtleCryptoLaws C) (plain password : jsstring) (e : entropy) :
  (spreadable plain ->
   exists (text s i d : jsstring) (salt iv key : list byte) (e1 e2 : entropy),
     fst (Vault.encryptText plain password e) = Returns text
     /\ Json.parse text
        = Returns (Json.JObj [(js "v", Json.JNum 1 0); (js "salt", Json.JStr s);
                              (js "iv", Json.JStr i); (js "data", Json.JStr d)])
     /\ getRandomValues 16 e = (salt, e1)
     /\ getRandomValues 12 e1 = (iv, e2)
     /\ Vault.fromBase64 s = Returns salt /\ length salt = 16%nat
     /\ Vault.fromBase64 i = Returns iv /\ length iv = 12%nat
     /\ Vault.deriveKey password salt = Returns key
     /\ Vault.fromBase64 d = Returns (aes_gcm_encrypt key iv (Utf8.encode plain))
     /\ length (aes_gcm_encrypt key iv (Utf8.encode plain))
        = (length (Utf8.encode plain) + 16)%nat)
  /\ (~ spreadable plain ->
      fst (Vault.encryptText plain password e) = Throws RangeError).
Proof.
  split.
  - intros Hsp.
    exists (payload_text (b64 (drawn_salt e)) (b64 (drawn_iv e))
              (b64 (sealed plain password e))).
    exists (b64 (drawn_salt e)), (b64 (drawn_iv e)), (b64 (sealed plain password e)).
    exists (drawn_salt e), (drawn_iv e), (derived password (drawn_salt e)).
    exists (snd (getRandomValues 16 e)).
    exists (snd (getRandomValues 12 (snd (getRandomValues 16 e)))).
    split; [rewrite encryptText_returns by exact Hsp; reflexivity|].
    split; [apply parse_payload_text; apply b64_chars|].
    split; [unfold drawn_salt; destruct (getRandomValues 16 e); reflexivity|].
    split; [unfold drawn_iv; destruct (getRandomValues 12 _); reflexivity|].
    split; [apply fromBase64_b64|]. split; [apply drawn_salt_length|].
    split; [apply fromBase64_b64|]. split; [apply drawn_iv_length|].
    split; [apply deriveKey_returns|]. split; [apply fromBase64_b64|].
    apply sealed_length.
  - intros Hsp. rewrite encryptText_throws by exact Hsp. reflexivity.
Qed.

Lemma encryptText_payload_shape_witness :
  spreadable (E := Toy.engine) (js "x")
  /\ exists (text s i d : jsstring) (salt iv key : list byte) (e1 e2 : entropy),
    fst (Vault.encryptText (C := Toy.provider) (E := Toy.engine)
           (js "x") (js "pw") Toy.counter)
    = Returns text
    /\ Json.parse text
       = Returns (Json.JObj [(js "v", Json.JNum 1 0); (js "salt", Json.JStr s);
                             (js "iv", Json.JStr i); (js "data", Json.JStr d)])
    /\ getRandomValues 16 Toy.counter = (salt, e1)
    /\ getRandomValues 12 e1 = (iv, e2)
    /\ Vault.fromBase64 s = Returns salt /\ length salt = 16%nat
    /\ Vault.fromBase64 i = Returns iv /\ length iv = 12%nat
    /\ Vault.deriveKey (C := Toy.provider) (js "pw") salt = Returns key
    /\ Vault.fromBase64 d
       = Returns (aes_gcm_encrypt (SubtleCrypto := Toy.provider) key iv
                    (Utf8.encode (js "x")))
    /\ length (aes_gcm_encrypt (SubtleCrypto := Toy.provider) key iv
                 (Utf8.encode (js "x")))
       = (length (Utf8.encode (js "x")) + 16)%nat.
Proof.
  split; [spread|].
  apply (proj1 (encryptText_payload_shape Toy.provider Toy.engine toy_laws
                  _ _ _)).
  spread.
Defined.

(** C8 as stated fails: in every engine there is a plaintext, one of as
    many characters as the engine takes arguments, for which [encryptText]
    returns no payload but throws a RangeError, under every lawful provider
    and with every passphrase. *)
Lemma encryptText_refuses_long_text :
  (forall E : Engine, N.of_nat (length long_text) = max_arguments)
  /\ forall (C : SubtleCrypto) (E : Engine), SubtleCryptoLaws C ->
     forall (password : jsstring) (e : entropy),
       fst (Vault.encryptText long_text password e) = Throws RangeError.
Proof.
  split.
  - intros E. unfold long_text. rewrite repeat_length. lia.
  - intros C E L password e.
    rewrite encryptText_throws by apply long_text_not_spreadable. reflexivity.
Qed.

Section VersionFacts.
Context {C : SubtleCrypto}.

(** What [decryptParsed] does to an object is a function of its [salt], [iv]
    and [data] members. *)
Lemma decryptParsed_members (m1 m2 : list (jsstring * Json.json))
    (password : jsstring) :
  Json.lookup (js "salt") m1 = Json.lookup (js "salt") m2 ->
  Json.lookup (js "iv") m1 = Json.lookup (js "iv") m2 ->
  Json.lookup (js "data") m1 = Json.lookup (js "data") m2 ->
  Vault.decryptParsed (Json.JObj m1) password
  = Vault.decryptParsed (Json.JObj m2) password.
Proof.
  intros Hs Hi Hd. unfold Vault.decryptParsed, Vault.guard.
  cbn [Json.truthy Json.prop]. rewrite Hs, Hi, Hd. reflexivity.
Qed.

Lemma guard_truthy (m : list (jsstring * Json.json)) (x y z : Json.json) :
  Json.lookup (js "salt") m = Some x -> Json.truthy x = Some true ->
  Json.lookup (js "iv") m = Some y -> Json.truthy y = Some true ->
  Json.lookup (js "data") m = Some z -> Json.truthy z = Some true ->
  Vault.guard (Json.JObj m) = Some false.
Proof.
  intros Hs Hs' Hi Hi' Hd Hd'. unfold Vault.guard.
  cbn [Json.truthy Json.prop]. rewrite Hs, Hi, Hd. unfold Vault.not_.
  rewrite Hs', Hi', Hd'. reflexivity.
Qed.

End VersionFacts.

(** C9: [decryptText] never reads [v]. Two texts that parse to objects
    with the same [salt], [iv] and [data], each present and truthy (a
    non-empty string, for one), are decrypted alike, whatever else the
    objects hold ([v] equal to 1, to anything else, or absent), and the
    error, if any, is not Invalid encrypted payload. *)
Theorem decryptText_ignores_version (C : SubtleCrypto)
    (t1 t2 password : jsstring) (m1 m2 : list (jsstring * Json.json))
    (x y z : Json.json) :
  Json.parse t1 = Returns (Json.JObj m1) ->
  Json.parse t2 = Returns (Json.JObj m2) ->
  Json.lookup (js "salt") m1 = Some x -> Json.lookup (js "salt") m2 = Some x ->
  Json.lookup (js "iv") m1 = Some y -> Json.lookup (js "iv") m2 = Some y ->
  Json.lookup (js "data") m1 = Some z -> Json.lookup (js "data") m2 = Some z ->
  Json.truthy x = Some true -> Json.truthy y = Some true ->
  Json.truthy z = Some true ->
  Vault.decryptText t1 password = Vault.decryptText t2 password
  /\ Vault.decryptText t1 password <> Throws InvalidEncryptedPayload.
Proof.
  intros Hp1 Hp2 Hs1 Hs2 Hi1 Hi2 Hd1 Hd2 Hx Hy Hz.
  unfold Vault.decryptText. rewrite Hp1, Hp2, !bind_Returns. split.
  - apply decryptParsed_members; congruence.
  - apply decryptParsed_guarded. eapply guard_truthy; eassumption.
Qed.

(** The same three fields with [v] equal to 1, and with no [v] but an
    unknown [w]. *)
Lemma decryptText_ignores_version_witness :
  Vault.decryptText (C := Toy.provider)
    (payload_text (js "c2FsdA==") (js "aXY=") (js "ZGF0YQ==")) (js "pw")
  = Vault.decryptText (C := Toy.provider)
      (js "{" ++ 34 :: js "data" ++ 34 :: js ":" ++ 34 :: js "ZGF0YQ==" ++ 34 ::
       js "," ++ 34 :: js "w" ++ 34 :: js ":[2,null]," ++
       34 :: js "iv" ++ 34 :: js ":" ++ 34 :: js "aXY=" ++ 34 :: js "," ++
       34 :: js "salt" ++ 34 :: js ":" ++ 34 :: js "c2FsdA==" ++ 34 :: js "}")
      (js "pw")
  /\ Vault.decryptText (C := Toy.provider)
       (payload_text (js "c2FsdA==") (js "aXY=") (js "ZGF0YQ==")) (js "pw")
     <> Throws InvalidEncryptedPayload.
Proof.
  apply (decryptText_ignores_version Toy.provider _ _ _
           [(js "v", Json.JNum 1 0); (js "salt", Json.JStr (js "c2FsdA=="));
            (js "iv", Json.JStr (js "aXY=")); (js "data", Json.JStr (js "ZGF0YQ=="))]
           [(js "data", Json.JStr (js "ZGF0YQ=="));
            (js "w", Json.JArr [Json.JNum 2 0; Json.JNull]);
            (js "iv", Json.JStr (js "aXY=")); (js "salt", Json.JStr (js "c2FsdA=="))]
           (Json.JStr (js "c2FsdA==")) (Json.JStr (js "aXY="))
           (Json.JStr (js "ZGF0YQ==")));
    vm_compute; reflexivity.
Defined.

(** ** Claims on the Home page *)

Lemma encryptText_total (C : SubtleCrypto) (E : Engine)
    (L : SubtleCryptoLaws C) (plain password : jsstring) (e : entropy) :
  spreadable plain ->
  exists text e',
    Vault.encryptText plain password e = (Returns text, e') /\ text <> [].
Proof.
  intros Hsp. eexists. eexists.
  split; [apply encryptText_returns; exact Hsp|]. discriminate.
Qed.

(** The key of the scenarios can be spread in every engine. *)
Lemma sample_key_spreadable {E : Engine} : spreadable (js "AIza-example-key-123").
Proof.
  unfold spreadable, max_arguments.
  change (N.of_nat (length (Utf8.encode (js "AIza-example-key-123")))) with 20%N.
  lia.
Qed.

Section HomeFacts.
Context {C : SubtleCrypto} {E : Engine}.

Lemma run_step (ev : Home.event) (evs : list Home.event) (w w' : Home.World) :
  Home.fire ev w = Some w' -> Home.run (ev :: evs) w = Home.run evs w'.
Proof. intros H. cbn [Home.run]. rewrite H. reflexivity. Qed.

(** Encrypt & Save Key, with a key and a passphrase typed in: the payload
    is stored whether or not persistence is enabled. *)
Lemma encryptAndSave_saves {L : SubtleCryptoLaws C} (w : Home.World) :
  spreadable (Home.apiKey (Home.state w)) ->
  Home.is_empty (Home.apiKey (Home.state w)) = false ->
  Home.is_empty (Home.passphrase (Home.state w)) = false ->
  exists enc e',
    enc <> []
    /\ fst (Vault.encryptText (Home.apiKey (Home.state w))
              (Home.passphrase (Home.state w)) (Home.random w)) = Returns enc
    /\ Home.encryptAndSave w
       = Some (Home.say Home.KeyEncryptedAndSaved
                 (Home.update (Home.setIsApiUnlocked true)
                    (Home.update (Home.setEncryptedApiKey (Some enc))
                       (Home.setItem Home.API_KEY_ENC enc
                          (Home.setRandom e' w))))).
Proof.
  intros Hsp Hk Hp.
  destruct (encryptText_total C E L (Home.apiKey (Home.state w))
              (Home.passphrase (Home.state w)) (Home.random w) Hsp)
    as (text & e' & He & Hne).
  exists text, e'. split; [exact Hne|]. split; [rewrite He; reflexivity|].
  unfold Home.encryptAndSave. cbv zeta. rewrite Hk, Hp, He. reflexivity.
Qed.

Lemma fire_encryptAndSave {L : SubtleCryptoLaws C} (w : Home.World) :
  spreadable (Home.apiKey (Home.state w)) ->
  Home.nonempty (Home.encryptedApiKey (Home.state w)) = false ->
  Home.is_empty (Home.apiKey (Home.state w)) = false ->
  Home.is_empty (Home.passphrase (Home.state w)) = false ->
  exists enc e',
    enc <> []
    /\ fst (Vault.encryptText (Home.apiKey (Home.state w))
              (Home.passphrase (Home.state w)) (Home.random w)) = Returns enc
    /\ Home.fire Home.EncryptAndSave w
       = Some (Home.say Home.KeyEncryptedAndSaved
                 (Home.update (Home.setIsApiUnlocked true)
                    (Home.update (Home.setEncryptedApiKey (Some enc))
                       (Home.setItem Home.API_KEY_ENC enc
                          (Home.setRandom e' w))))).
Proof.
  intros Hsp Hn Hk Hp.
  destruct (encryptAndSave_saves w Hsp Hk Hp) as (enc & e' & Hne & He & Hs).
  exists enc, e'. split; [exact Hne|]. split; [exact He|].
  unfold Home.fire. cbn [Home.shown]. rewrite Hn. cbn [negb Home.handle].
  exact Hs.
Qed.

Lemma fire_upload (w : Home.World) (name text text' : jsstring) (now : Z) :
  Home.persistEnabled (Home.state w) = true ->
  Json.stringify (Json.JObj [(js "name", Json.JStr name);
                             (js "content", Json.JStr text);
                             (js "savedAt", Json.JNum now 0)]) = Some text' ->
  Home.fire (Home.Upload (Some (name, text)) now) w
  = Some (Home.update
            (Home.setLastSavedResume
               (Json.JObj [(js "name", Json.JStr name);
                           (js "content", Json.JStr text);
                           (js "savedAt", Json.JNum now 0)]))
            (Home.setItem Home.LAST_RESUME text'
               (Home.update (Home.setOriginalContent (Json.JStr text))
                  (Home.update
                     (Home.setResumeFile
                        (Some {| Home.file_content := Json.JStr text;
                                 Home.file_name := Some (Json.JStr name) |}))
                     w)))).
Proof.
  intros Hp Ht. unfold Home.fire. cbn [Home.shown Home.handle].
  unfold Home.handleFileUpload, Home.onload, Home.chooseFile.
  rewrite Hp, Ht. reflexivity.
Qed.

(** Without persistence an upload leaves the storage alone. *)
Lemma upload_without_persistence (w w' : Home.World)
    (file : option (jsstring * jsstring)) (now : Z) :
  Home.persistEnabled (Home.state w) = false ->
  Home.handleFileUpload file now w = Some w' ->
  Home.storage w' = Home.storage w.
Proof.
  intros Hp. unfold Home.handleFileUpload, Home.onload, Home.chooseFile.
  destruct file as [[name text]|].
  - rewrite Hp. intros H. injection H as <-. reflexivity.
  - intros H. injection H as <-. reflexivity.
Qed.

(** Turning persistence off deletes both entries at once. *)
Lemma togglePersist_off_deletes (w : Home.World) :
  Home.storage (Home.togglePersist false w) !! Home.LAST_RESUME = None
  /\ Home.storage (Home.togglePersist false w) !! Home.API_KEY_ENC = None
  /\ Home.storage (Home.togglePersist false w) !! Home.PERSISTENCE = Some (js "0")
  /\ Home.persistEnabled (Home.state (Home.togglePersist false w)) = false.
Proof.
  unfold Home.togglePersist.
  cbn [Home.storage Home.state Home.update Home.removeItem Home.setItem
       Home.setLastSavedResume Home.setPersistEnabled Home.persistEnabled].
  split; [|split; [|split]].
  - rewrite lookup_delete_ne by discriminate. apply lookup_delete_eq.
  - apply lookup_delete_eq.
  - rewrite !lookup_delete_ne by discriminate. apply lookup_insert_eq.
  - reflexivity.
Qed.

End HomeFacts.

(** C10: [clearLastSavedResume] removes both entries from the storage and
    leaves [encryptedApiKey], [apiKey] and [isApiUnlocked] as they were; so
    the page can show an encrypted, unlocked key that is stored nowhere, as
    after saving a key, uploading a resume and clearing it. *)
Theorem clearLastSavedResume_keeps_key_state (C : SubtleCrypto) (E : Engine)
    (L : SubtleCryptoLaws C) :
  (forall w : Home.World,
     Home.storage (Home.clearLastSavedResume w) !! Home.LAST_RESUME = None
     /\ Home.storage (Home.clearLastSavedResume w) !! Home.API_KEY_ENC = None
     /\ Home.encryptedApiKey (Home.state (Home.clearLastSavedResume w))
        = Home.encryptedApiKey (Home.state w)
     /\ Home.apiKey (Home.state (Home.clearLastSavedResume w))
        = Home.apiKey (Home.state w)
     /\ Home.isApiUnlocked (Home.state (Home.clearLastSavedResume w))
        = Home.isApiUnlocked (Home.state w))
  /\ (forall e : entropy, exists w enc,
        Home.run [Home.TypeApiKey (js "AIza-example-key-123");
                  Home.TypePassphrase (js "correct horse");
                  Home.EncryptAndSave;
                  Home.Upload (Some (js "cv.tex", js "\documentclass{article}")) 0;
                  Home.ClearSaved] (first_visit e) = Some w
        /\ Home.encryptedApiKey (Home.state w) = Some enc
        /\ Home.isApiUnlocked (Home.state w) = true
        /\ Home.apiKey (Home.state w) = js "AIza-example-key-123"
        /\ Home.storage w !! Home.API_KEY_ENC = None).
Proof.
  split.
  - intros w. world.
    rewrite lookup_delete_ne by discriminate.
    rewrite !lookup_delete_eq. auto.
  - intros e.
    erewrite run_step by reflexivity.
    erewrite run_step by reflexivity.
    match goal with |- context [Home.run _ ?w] =>
      destruct (fire_encryptAndSave w sample_key_spreadable eq_refl eq_refl
                  eq_refl)
        as (enc & e' & Hne & _ & Hf)
    end.
    erewrite run_step by exact Hf.
    erewrite run_step by (apply fire_upload; [reflexivity | vm_compute; reflexivity]).
    erewrite run_step by reflexivity.
    eexists. exists enc. split; [reflexivity|]. world.
    split; [reflexivity|]. split; [reflexivity|]. split; [reflexivity|].
    apply lookup_delete_eq.
Qed.

(** The scenario under the toy provider, in an engine that takes 65535
    arguments. *)
Lemma clearLastSavedResume_keeps_key_state_witness :
  exists w enc,
    Home.run (C := Toy.provider) (E := Toy.engine)
      [Home.TypeApiKey (js "AIza-example-key-123");
       Home.TypePassphrase (js "correct horse");
       Home.EncryptAndSave;
       Home.Upload (Some (js "cv.tex", js "\documentclass{article}")) 0;
       Home.ClearSaved] (first_visit Toy.counter) = Some w
    /\ Home.encryptedApiKey (Home.state w) = Some enc
    /\ Home.isApiUnlocked (Home.state w) = true
    /\ Home.apiKey (Home.state w) = js "AIza-example-key-123"
    /\ Home.storage w !! Home.API_KEY_ENC = None.
Proof.
  exact (proj2 (clearLastSavedResume_keeps_key_state Toy.provider Toy.engine
                  toy_laws) Toy.counter).
Defined.

Section LoadFacts.
Context {C : SubtleCrypto} {E : Engine}.

(** The saved resume part of the load touches neither the storage nor the
    key. *)
Lemma loadResume_frame (w w2 : Home.World) :
  Home.loadResume w = Some (Some w2) ->
  Home.storage w2 = Home.storage w
  /\ Home.alerts w2 = Home.alerts w
  /\ Home.apiKey (Home.state w2) = Home.apiKey (Home.state w)
  /\ Home.encryptedApiKey (Home.state w2) = Home.encryptedApiKey (Home.state w)
  /\ Home.isApiUnlocked (Home.state w2) = Home.isApiUnlocked (Home.state w)
  /\ Home.passphrase (Home.state w2) = Home.passphrase (Home.state w).
Proof.
  unfold Home.loadResume. intros H.
  repeat match type of H with
         | match ?x with _ => _ end = _ => destruct x
         end;
    try discriminate; injection H as <-;
    try match goal with |- context [Home.makesFile ?c ?n] =>
          destruct (Home.makesFile c n) end;
    world; auto 10.
Qed.

(** Whether the page renders depends on the last saved resume only. *)
Lemma renders_resume (s : Home.State) :
  Home.renders s
  = Home.renders (Home.setLastSavedResume (Home.lastSavedResume s) Home.initial).
Proof. reflexivity. Qed.

(** The resume the load shows is the one it found, if it found one. *)
Lemma loadResume_shows (w w2 : Home.World) :
  resume_loads (Home.storage w) ->
  Home.renders (Home.state w) = true ->
  Home.loadResume w = Some (Some w2) ->
  Home.renders (Home.state w2) = true.
Proof.
  intros Hr Hw. unfold Home.loadResume, Home.getItem.
  destruct (Home.storage w !! Home.LAST_RESUME) as [[|c raw]|] eqn:Q;
    [intros H; injection H as <-; exact Hw | |
     intros H; injection H as <-; exact Hw].
  destruct (Hr (c :: raw) Q) as (parsed & Hp & Hs); [discriminate|].
  rewrite Hp. unfold resume_shows in Hs. intros H.
  assert (Hl : Home.lastSavedResume (Home.state w2) = parsed).
  { repeat match type of H with
           | match ?x with _ => _ end = _ => destruct x
           end;
      try discriminate; injection H as <-;
      try match goal with |- context [Home.makesFile ?c ?n] =>
            destruct (Home.makesFile c n) end;
      reflexivity. }
  rewrite renders_resume, Hl. exact Hs.
Qed.

Lemma loadResume_loads (w : Home.World) :
  resume_loads (Home.storage w) -> exists w2, Home.loadResume w = Some (Some w2).
Proof.
  intros Hr. unfold Home.loadResume, Home.getItem.
  destruct (Home.storage w !! Home.LAST_RESUME) as [[|c raw]|] eqn:Q;
    [eexists; reflexivity| |eexists; reflexivity].
  destruct (Hr (c :: raw) Q) as (parsed & Hp & _); [discriminate|].
  rewrite Hp.
  destruct (Home.resumeFile (Home.state w)); [eexists; reflexivity|].
  destruct (truthy_decided parsed) as ([|] & ->); try (eexists; reflexivity).
  destruct (Json.prop parsed (js "content")) as [content|] eqn:Ec;
    [|eexists; reflexivity].
  destruct (truthy_decided content) as ([|] & ->); eexists; reflexivity.
Qed.

(** A load with persistence on and a stored, non-empty payload ends
    EncryptedLocked, with the storage as it was. *)
Lemma reload_locks (prev : Home.World) (enc : jsstring) :
  persistence_on (Home.storage prev) -> resume_loads (Home.storage prev) ->
  Home.storage prev !! Home.API_KEY_ENC = Some enc -> enc <> [] ->
  exists w,
    Home.reload prev = Some w
    /\ encrypted_locked enc (Home.state w)
    /\ Home.passphrase (Home.state w) = []
    /\ Home.storage w = Home.storage prev
    /\ Home.alerts w = [].
Proof.
  intros Hon Hr Hk Hne. unfold Home.reload, Home.loadEffect.
  unfold Home.getItem at 1. cbn [Home.storage].
  assert (Hs : match Home.storage prev !! Home.PERSISTENCE with
               | Some rawPersist => Json.eqb rawPersist (js "1")
               | None => true
               end = true).
  { destruct Hon as [-> | ->]; reflexivity. }
  rewrite Hs. cbn [negb].
  match goal with |- context [Home.loadResume ?w1] =>
    destruct (loadResume_loads w1 Hr) as (w2 & Hl);
    destruct (loadResume_frame w1 w2 Hl) as (Hst & Hal & Hak & Hek & Hun & Hpp);
    pose proof (loadResume_shows w1 w2 Hr eq_refl Hl) as Hsh
  end.
  rewrite Hl. unfold Home.getItem. world. rewrite Hst, Hk.
  destruct enc as [|c enc]; [congruence|].
  cbn [mbind option_bind].
  rewrite renders_resume. world. rewrite <- renders_resume, Hsh.
  eexists. split; [reflexivity|]. unfold encrypted_locked. world.
  rewrite Hst, Hal, Hpp. auto 10.
Qed.

(** A load with persistence off reads nothing but the preference. *)
Lemma reload_persistence_off (prev : Home.World) (raw : jsstring) :
  Home.storage prev !! Home.PERSISTENCE = Some raw ->
  Json.eqb raw (js "1") = false ->
  Home.reload prev
  = Some {| Home.state := Home.setPersistEnabled false Home.initial;
            Home.storage := Home.storage prev; Home.alerts := [];
            Home.random := Home.random prev |}.
Proof.
  intros Hp Hraw. unfold Home.reload, Home.loadEffect, Home.getItem.
  cbn [Home.storage]. rewrite Hp, Hraw. reflexivity.
Qed.

(** The load effect always ends: [Home.reload] gives no page only when the
    render that follows throws. *)
Lemma loadEffect_returns (w : Home.World) : exists w', Home.loadEffect w = Some w'.
Proof.
  unfold Home.loadEffect.
  destruct (negb _); [eexists; reflexivity|].
  destruct (Home.loadResume _) as [[w2|]|] eqn:Hl.
  - destruct (Home.getItem Home.API_KEY_ENC w2) as [[|c enc]|];
      eexists; reflexivity.
  - exfalso. revert Hl. unfold Home.loadResume.
    destruct (Home.getItem Home.LAST_RESUME _) as [[|c raw]|]; try discriminate.
    unfold Json.parse. destruct (_ ≫= _) as [v|]; [|discriminate].
    destruct (Home.resumeFile _); [discriminate|].
    destruct (truthy_decided v) as ([|] & ->); [|discriminate].
    destruct (Json.prop v (js "content")) as [content|]; [|discriminate].
    destruct (truthy_decided content) as ([|] & ->); discriminate.
  - eexists. reflexivity.
Qed.

(** A stored resume that the page cannot show takes the page down at the
    next load with persistence on. *)
Lemma reload_crashes (prev : Home.World) (raw : jsstring) (parsed : Json.json) :
  persistence_on (Home.storage prev) ->
  Home.storage prev !! Home.LAST_RESUME = Some raw -> raw <> [] ->
  Json.parse raw = Returns parsed ->
  Home.renders (Home.setLastSavedResume parsed Home.initial) = false ->
  Home.reload prev = None.
Proof.
  intros Hon Hraw Hne Hp Hs. unfold Home.reload, Home.loadEffect.
  unfold Home.getItem at 1. cbn [Home.storage].
  assert (Hon' : match Home.storage prev !! Home.PERSISTENCE with
                 | Some rawPersist => Json.eqb rawPersist (js "1")
                 | None => true
                 end = true).
  { destruct Hon as [-> | ->]; reflexivity. }
  rewrite Hon'. cbn [negb].
  destruct (Home.loadResume _) as [[w2|]|] eqn:Hl; [| reflexivity |].
  - assert (Hlast : Home.lastSavedResume (Home.state w2) = parsed).
    { revert Hl. unfold Home.loadResume, Home.getItem. world. rewrite Hraw.
      destruct raw as [|c raw]; [congruence|]. rewrite Hp. intros H.
      repeat match type of H with
             | match ?x with _ => _ end = _ => destruct x
             end;
        try discriminate; injection H as <-;
        try match goal with |- context [Home.makesFile ?c ?n] =>
              destruct (Home.makesFile c n) end;
        reflexivity. }
    assert (Hr2 : forall w3, Home.lastSavedResume (Home.state w3) = parsed ->
                  Home.renders (Home.state w3) = false).
    { intros w3 H3. rewrite renders_resume, H3. exact Hs. }
    destruct (Home.getItem Home.API_KEY_ENC w2) as [[|c enc]|];
      cbn [mbind option_bind]; rewrite Hr2 by (world; exact Hlast); reflexivity.
  - exfalso. revert Hl. unfold Home.loadResume, Home.getItem. world. rewrite Hraw.
    destruct raw as [|c raw]; [congruence|]. rewrite Hp. intros H.
    repeat match type of H with
           | match ?x with _ => _ end = _ => destruct x
           end;
      discriminate.
Qed.

Lemma fire_unlock_returns (w : Home.World) (enc plain : jsstring) :
  Home.encryptedApiKey (Home.state w) = Some enc -> enc <> [] ->
  Home.isApiUnlocked (Home.state w) = false ->
  Home.is_empty (Home.passphrase (Home.state w)) = false ->
  Vault.decryptText enc (Home.passphrase (Home.state w)) = Returns plain ->
  Home.fire Home.Unlock w
  = Some (Home.update (Home.setIsApiUnlocked true)
            (Home.update (Home.setApiKey plain) w)).
Proof.
  intros He Hne Hu Hp Hd. unfold Home.fire. cbn [Home.shown]. rewrite He, Hu.
  destruct enc as [|c enc]; [congruence|]. cbn [Home.nonempty negb andb Home.handle].
  unfold Home.unlock, Home.unlockThen. cbv zeta. rewrite Hp, He, Hd. reflexivity.
Qed.

Lemma fire_unlock_throws (w : Home.World) (enc : jsstring) (err : exn) :
  Home.encryptedApiKey (Home.state w) = Some enc -> enc <> [] ->
  Home.isApiUnlocked (Home.state w) = false ->
  Home.is_empty (Home.passphrase (Home.state w)) = false ->
  Vault.decryptText enc (Home.passphrase (Home.state w)) = Throws err ->
  Home.fire Home.Unlock w = Some (Home.say (Home.FailedToDecrypt err) w).
Proof.
  intros He Hne Hu Hp Hd. unfold Home.fire. cbn [Home.shown]. rewrite He, Hu.
  destruct enc as [|c enc]; [congruence|]. cbn [Home.nonempty negb andb Home.handle].
  unfold Home.unlock, Home.unlockThen. cbv zeta. rewrite Hp, He, Hd. reflexivity.
Qed.

Lemma fire_unlock_no_passphrase (w : Home.World) (enc : jsstring) :
  Home.encryptedApiKey (Home.state w) = Some enc -> enc <> [] ->
  Home.isApiUnlocked (Home.state w) = false ->
  Home.passphrase (Home.state w) = [] ->
  Home.fire Home.Unlock w = Some (Home.say Home.EnterPassphraseToUnlock w).
Proof.
  intros He Hne Hu Hp. unfold Home.fire. cbn [Home.shown]. rewrite He, Hu.
  destruct enc as [|c enc]; [congruence|]. cbn [Home.nonempty negb andb Home.handle].
  unfold Home.unlock. cbv zeta. rewrite Hp. reflexivity.
Qed.

End LoadFacts.

(** A payload that [encryptText] returned is the payload of a plaintext the
    engine can spread. *)
Lemma returned_spreadable (C : SubtleCrypto) (E : Engine)
    (L : SubtleCryptoLaws C) (plain password enc : jsstring) (e : entropy) :
  fst (Vault.encryptText plain password e) = Returns enc -> spreadable plain.
Proof.
  intros H. unfold spreadable.
  destruct (N.le_gt_cases (N.of_nat (length (Utf8.encode plain)) + 16) max_arguments)
    as [Hle|Hgt]; [exact Hle|].
  rewrite encryptText_throws in H by (unfold spreadable; lia). discriminate H.
Qed.

(** The toy provider refuses the passphrase [wrong] for the key
    [AIza-example-key-123] sealed under [correct horse]. *)
Lemma toy_refuses_wrong :
  Vault.decryptText (C := Toy.provider)
    (payload_text (b64 (drawn_salt Toy.counter)) (b64 (drawn_iv Toy.counter))
       (b64 (aes_gcm_encrypt (SubtleCrypto := Toy.provider)
               (Toy.key_of (Utf8.encode (js "correct horse")))
               (drawn_iv Toy.counter)
               (Utf8.encode (js "AIza-example-key-123")))))
    (js "wrong")
  = Throws OperationError.
Proof.
  assert (Hsalt : length (drawn_salt Toy.counter) = 16%nat)
    by (vm_compute; reflexivity).
  assert (Hw : (length (Utf8.encode (js "wrong")) <= 32)%nat)
    by (vm_compute; lia).
  apply decryptText_rejected_data.
  - exact (nonempty_length _ 15 Hsalt).
  - apply (nonempty_length _ 11). vm_compute. reflexivity.
  - apply (nonempty_length _ 35). vm_compute. reflexivity.
  - rewrite (toy_derived (js "wrong") (drawn_salt Toy.counter) Hw Hsalt).
    vm_compute. reflexivity.
Qed.

(** What [encryptText] returns under the toy provider for the key and the
    passphrase of the scenario. *)
Lemma toy_sample_payload :
  Vault.encryptText (C := Toy.provider) (E := Toy.engine)
    (js "AIza-example-key-123") (js "correct horse") Toy.counter
  = (Returns
       (payload_text (b64 (drawn_salt Toy.counter)) (b64 (drawn_iv Toy.counter))
          (b64 (aes_gcm_encrypt (SubtleCrypto := Toy.provider)
                  (Toy.key_of (Utf8.encode (js "correct horse")))
                  (drawn_iv Toy.counter)
                  (Utf8.encode (js "AIza-example-key-123"))))),
     snd (getRandomValues 12 (snd (getRandomValues 16 Toy.counter)))).
Proof.
  assert (Hsalt : length (drawn_salt Toy.counter) = 16%nat)
    by (vm_compute; reflexivity).
  assert (Hpw : (length (Utf8.encode (js "correct horse")) <= 32)%nat)
    by (vm_compute; lia).
  rewrite (encryptText_returns (L := toy_laws)) by apply sample_key_spreadable.
  rewrite (toy_derived (js "correct horse") (drawn_salt Toy.counter) Hpw Hsalt).
  reflexivity.
Qed.

(** C3, as amended: take a load with persistence enabled (the preference
    absent or ["1"]), a stored resume, if any, that is JSON text the page
    can show, and under [resume_wizard_api_key_enc] the payload that
    [encryptText key pw] wrote. Whatever the session before held, the page
    starts EncryptedLocked with the storage untouched. From there, with
    nothing else happening while [decryptText] is awaited, typing [pw] (not
    empty; [key] well-formed and not starting with U+FEFF) and unlocking
    sets [apiKey] to [key] and [isApiUnlocked] to true; typing a passphrase
    for which [decryptText] throws and unlocking alerts that failure and
    leaves the page EncryptedLocked; unlocking with no passphrase typed
    alerts and leaves it EncryptedLocked too. *)
Theorem reload_locks_then_unlock (C : SubtleCrypto) (E : Engine)
    (L : SubtleCryptoLaws C)
    (prev : Home.World) (key pw enc : jsstring) (e0 : entropy) :
  persistence_on (Home.storage prev) ->
  resume_loads (Home.storage prev) ->
  Home.storage prev !! Home.API_KEY_ENC = Some enc ->
  fst (Vault.encryptText key pw e0) = Returns enc ->
  Utf8.well_formed key = true -> Utf8.no_bom key = true -> pw <> [] ->
  exists w,
    Home.reload prev = Some w
    /\ encrypted_locked enc (Home.state w)
    /\ Home.storage w = Home.storage prev
    /\ (exists w1,
          Home.run [Home.TypePassphrase pw; Home.Unlock] w = Some w1
          /\ Home.apiKey (Home.state w1) = key
          /\ Home.isApiUnlocked (Home.state w1) = true
          /\ Home.encryptedApiKey (Home.state w1) = Some enc
          /\ Home.storage w1 = Home.storage prev)
    /\ (forall other err,
          other <> [] -> Vault.decryptText enc other = Throws err ->
          exists w2,
            Home.run [Home.TypePassphrase other; Home.Unlock] w = Some w2
            /\ Home.alerts w2 = [Home.FailedToDecrypt err]
            /\ encrypted_locked enc (Home.state w2)
            /\ Home.storage w2 = Home.storage prev)
    /\ (exists w3,
          Home.run [Home.Unlock] w = Some w3
          /\ Home.alerts w3 = [Home.EnterPassphraseToUnlock]
          /\ encrypted_locked enc (Home.state w3)
          /\ Home.storage w3 = Home.storage prev).
Proof.
  intros Hon Hr Hk He Hwf Hbom Hpw.
  pose proof (returned_spreadable C E L key pw enc e0 He) as Hsp.
  assert (Hne : enc <> []).
  { rewrite encryptText_returns in He by exact Hsp. cbn [fst] in He.
    injection He as <-. discriminate. }
  assert (Hdec : Vault.decryptText enc pw = Returns key).
  { destruct (decrypt_encrypt key pw e0 (well_formed_range key Hwf) Hsp)
      as (text & He' & Hd).
    rewrite He in He'. injection He' as <-.
    rewrite Hd, normalise_well_formed by assumption. reflexivity. }
  destruct (reload_locks prev enc Hon Hr Hk Hne)
    as (w & Hw & (Hek & Hak & Hun) & Hpp & Hst & Hal).
  exists w. split; [exact Hw|]. split; [repeat split; assumption|].
  split; [exact Hst|]. split; [|split].
  - erewrite run_step by reflexivity.
    erewrite run_step.
    2:{ apply (fire_unlock_returns _ enc key); world;
          [exact Hek | exact Hne | exact Hun
          | destruct pw; [congruence|reflexivity] | exact Hdec]. }
    eexists. split; [reflexivity|]. world. auto.
  - intros other err Ho Hd.
    erewrite run_step by reflexivity.
    erewrite run_step.
    2:{ apply (fire_unlock_throws _ enc err); world;
          [exact Hek | exact Hne | exact Hun
          | destruct other; [congruence|reflexivity] | exact Hd]. }
    eexists. split; [reflexivity|]. unfold encrypted_locked. world.
    rewrite Hal. auto 10.
  - erewrite run_step by (apply (fire_unlock_no_passphrase _ enc); assumption).
    eexists. split; [reflexivity|]. unfold encrypted_locked. world.
    rewrite Hal. auto 10.
Qed.

(** The scenario of the spec under the toy provider: the key
    [AIza-example-key-123] under the passphrase [correct horse], stored, and
    nothing else in the storage; unlocking with [correct horse] gives the
    key back, and unlocking with [wrong] fails with OperationError and
    leaves the page EncryptedLocked. *)
Lemma reload_locks_then_unlock_witness :
  exists enc prev,
    fst (Vault.encryptText (C := Toy.provider) (E := Toy.engine)
           (js "AIza-example-key-123") (js "correct horse") Toy.counter)
    = Returns enc
    /\ Home.storage prev = {[ Home.API_KEY_ENC := enc ]}
    /\ exists w,
         Home.reload prev = Some w
         /\ encrypted_locked enc (Home.state w)
         /\ Home.storage w = Home.storage prev
         /\ (exists w1,
               Home.run (C := Toy.provider) (E := Toy.engine)
                 [Home.TypePassphrase (js "correct horse"); Home.Unlock] w = Some w1
               /\ Home.apiKey (Home.state w1) = js "AIza-example-key-123"
               /\ Home.isApiUnlocked (Home.state w1) = true
               /\ Home.encryptedApiKey (Home.state w1) = Some enc
               /\ Home.storage w1 = Home.storage prev)
         /\ (exists w2,
               Home.run (C := Toy.provider) (E := Toy.engine)
                 [Home.TypePassphrase (js "wrong"); Home.Unlock] w = Some w2
               /\ Home.alerts w2 = [Home.FailedToDecrypt OperationError]
               /\ encrypted_locked enc (Home.state w2)
               /\ Home.storage w2 = Home.storage prev)
         /\ (exists w3,
               Home.run (C := Toy.provider) (E := Toy.engine) [Home.Unlock] w
               = Some w3
               /\ Home.alerts w3 = [Home.EnterPassphraseToUnlock]
               /\ encrypted_locked enc (Home.state w3)
               /\ Home.storage w3 = Home.storage prev).
Proof.
  pose proof toy_sample_payload as He.
  pose proof toy_refuses_wrong as Hwrong.
  set (enc := payload_text (b64 (drawn_salt Toy.counter))
                (b64 (drawn_iv Toy.counter))
                (b64 (aes_gcm_encrypt (SubtleCrypto := Toy.provider)
                        (Toy.key_of (Utf8.encode (js "correct horse")))
                        (drawn_iv Toy.counter)
                        (Utf8.encode (js "AIza-example-key-123"))))) in *.
  clearbody enc.
  exists enc.
  exists {| Home.state := Home.initial;
            Home.storage := {[ Home.API_KEY_ENC := enc ]};
            Home.alerts := []; Home.random := Toy.counter |}.
  split; [rewrite He; reflexivity|]. split; [reflexivity|].
  destruct (reload_locks_then_unlock Toy.provider Toy.engine toy_laws
              {| Home.state := Home.initial;
                 Home.storage := {[ Home.API_KEY_ENC := enc ]};
                 Home.alerts := []; Home.random := Toy.counter |}
              (js "AIza-example-key-123") (js "correct horse") enc Toy.counter)
    as (w & Hw & Hlock & Hst & Hright & Hother & Hnone).
  - left. apply lookup_singleton_ne. discriminate.
  - intros raw Hraw. cbn [Home.storage] in Hraw.
    rewrite lookup_singleton_ne in Hraw by discriminate. discriminate.
  - apply lookup_singleton_eq.
  - rewrite He. reflexivity.
  - reflexivity.
  - reflexivity.
  - discriminate.
  - exists w. split; [exact Hw|]. split; [exact Hlock|]. split; [exact Hst|].
    split; [exact Hright|]. split; [|exact Hnone].
    apply (Hother (js "wrong") OperationError); [discriminate | exact Hwrong].
Defined.

(** The payload is stored although persistence is off. *)
Lemma saved_with_persistence_off (C : SubtleCrypto) (E : Engine)
    (L : SubtleCryptoLaws C) (e : entropy) :
  exists w enc,
    Home.run [Home.TogglePersist false; Home.TypeApiKey (js "AIza-example-key-123");
              Home.TypePassphrase (js "correct horse"); Home.EncryptAndSave]
      (first_visit e) = Some w
    /\ enc <> []
    /\ Home.persistEnabled (Home.state w) = false
    /\ Home.storage w !! Home.PERSISTENCE = Some (js "0")
    /\ Home.storage w !! Home.API_KEY_ENC = Some enc.
Proof.
  erewrite run_step by reflexivity.
  erewrite run_step by reflexivity.
  erewrite run_step by reflexivity.
  match goal with |- context [Home.run _ ?w] =>
    destruct (fire_encryptAndSave w sample_key_spreadable eq_refl eq_refl
                eq_refl)
      as (enc & e' & Hne & _ & Hf)
  end.
  erewrite run_step by exact Hf.
  eexists. exists enc. split; [reflexivity|]. world.
  split; [exact Hne|]. split; [reflexivity|]. split.
  - rewrite lookup_insert_ne by discriminate.
    rewrite !lookup_delete_ne by discriminate. apply lookup_insert_eq.
  - apply lookup_insert_eq.
Qed.

(** C3 as stated fails: with persistence turned off a payload can still be
    stored (Encrypt & Save Key writes it), and the next load does not read
    it: the page starts with no encrypted key, not EncryptedLocked. *)
Lemma reload_ignores_payload_when_persistence_off :
  exists evs,
    forall (C : SubtleCrypto) (E : Engine), SubtleCryptoLaws C ->
    forall e : entropy,
    exists w enc w',
      Home.run evs (first_visit e) = Some w
      /\ Home.storage w !! Home.API_KEY_ENC = Some enc /\ enc <> []
      /\ Home.reload w = Some w'
      /\ Home.storage w' !! Home.API_KEY_ENC = Some enc
      /\ Home.encryptedApiKey (Home.state w') = None.
Proof.
  exists [Home.TogglePersist false; Home.TypeApiKey (js "AIza-example-key-123");
          Home.TypePassphrase (js "correct horse"); Home.EncryptAndSave].
  intros C E L e.
  destruct (saved_with_persistence_off C E L e)
    as (w & enc & Hrun & Hne & _ & Hp & Hk).
  exists w, enc. eexists. split; [exact Hrun|]. split; [exact Hk|].
  split; [exact Hne|].
  split; [apply (reload_persistence_off w (js "0") Hp); reflexivity|].
  world. auto.
Qed.

(** C4, where the code departs from it: from a first visit, turn
    persistence off, type a key and a passphrase and press Encrypt & Save
    Key. The preference stays off and the encrypted key is in the
    storage. *)
Theorem encrypt_and_save_ignores_persistence (C : SubtleCrypto) (E : Engine)
    (L : SubtleCryptoLaws C) (e : entropy) :
  exists w enc,
    Home.run [Home.TogglePersist false; Home.TypeApiKey (js "AIza-example-key-123");
              Home.TypePassphrase (js "correct horse"); Home.EncryptAndSave]
      (first_visit e) = Some w
    /\ Home.persistEnabled (Home.state w) = false
    /\ Home.storage w !! Home.PERSISTENCE = Some (js "0")
    /\ Home.storage w !! Home.API_KEY_ENC = Some enc.
Proof.
  destruct (saved_with_persistence_off C E L e) as (w & enc & Hrun & _ & H).
  exists w, enc. split; [exact Hrun | exact H].
Qed.

(** The same under the toy provider, in an engine that takes 65535
    arguments. *)
Lemma encrypt_and_save_ignores_persistence_witness :
  exists w enc,
    Home.run (C := Toy.provider) (E := Toy.engine)
      [Home.TogglePersist false; Home.TypeApiKey (js "AIza-example-key-123");
       Home.TypePassphrase (js "correct horse"); Home.EncryptAndSave]
      (first_visit Toy.counter) = Some w
    /\ Home.persistEnabled (Home.state w) = false
    /\ Home.storage w !! Home.PERSISTENCE = Some (js "0")
    /\ Home.storage w !! Home.API_KEY_ENC = Some enc.
Proof.
  exact (encrypt_and_save_ignores_persistence Toy.provider Toy.engine toy_laws
           Toy.counter).
Defined.

(** ** Further properties of the code *)

(** [fromBase64] undoes [toBase64] for every buffer of no more bytes than
    the engine takes arguments; on a larger buffer [toBase64] throws a
    RangeError. *)
Theorem fromBase64_toBase64 (E : Engine) (buf : list byte) :
  ((N.of_nat (length buf) <= max_arguments)%N ->
   exists text,
     Vault.toBase64 buf = Returns text /\ Vault.fromBase64 text = Returns buf)
  /\ ((max_arguments < N.of_nat (length buf))%N ->
      Vault.toBase64 buf = Throws RangeError).
Proof.
  split.
  - intros H. exists (b64 buf).
    split; [apply toBase64_returns; exact H | apply fromBase64_b64].
  - apply toBase64_throws.
Qed.

(** Two payloads of equal text hold equal salts and equal ivs. *)
Lemma payload_text_inj (s1 i1 d1 s2 i2 d2 : list byte) :
  payload_text (b64 s1) (b64 i1) (b64 d1) = payload_text (b64 s2) (b64 i2) (b64 d2) ->
  s1 = s2 /\ i1 = i2 /\ d1 = d2.
Proof.
  intros H.
  assert (Hp : Returns (Vault.payload (b64 s1) (b64 i1) (b64 d1))
               = Returns (Vault.payload (b64 s2) (b64 i2) (b64 d2))).
  { rewrite <- !parse_payload_text by apply b64_chars. rewrite H. reflexivity. }
  unfold Vault.payload in Hp. injection Hp as Hs Hi Hd.
  assert (F : forall a b, b64 a = b64 b -> a = b).
  { intros a b E. pose proof (fromBase64_b64 a) as Ha. rewrite E, fromBase64_b64 in Ha.
    injection Ha as ->. reflexivity. }
  auto.
Qed.

(** Each call of [encryptText] draws its own salt and iv from the random
    source, 28 bytes a call: of two calls in a row the first takes bytes 0
    to 27 and the second bytes 28 to 55. Both payloads decrypt to the
    plaintext (normalised), and they differ as soon as the random source
    gave two different salts or two different ivs. *)
Theorem encryptText_draws_fresh (C : SubtleCrypto) (E : Engine)
    (L : SubtleCryptoLaws C) (P p : jsstring) (e : entropy) :
  Forall unit_range P -> spreadable P ->
  exists t1 t2 e1 e2,
    Vault.encryptText P p e = (Returns t1, e1)
    /\ Vault.encryptText P p e1 = (Returns t2, e2)
    /\ drawn_salt e = map e (seq 0 16) /\ drawn_iv e = map e (seq 16 12)
    /\ drawn_salt e1 = map e (seq 28 16) /\ drawn_iv e1 = map e (seq 44 12)
    /\ Vault.decryptText t1 p = Returns (Utf8.normalise P)
    /\ Vault.decryptText t2 p = Returns (Utf8.normalise P)
    /\ (drawn_salt e <> drawn_salt e1 \/ drawn_iv e <> drawn_iv e1 -> t1 <> t2).
Proof.
  intros HP Hsp.
  set (e1 := snd (getRandomValues 12 (snd (getRandomValues 16 e)))).
  exists (payload_text (b64 (drawn_salt e)) (b64 (drawn_iv e)) (b64 (sealed P p e))).
  exists (payload_text (b64 (drawn_salt e1)) (b64 (drawn_iv e1)) (b64 (sealed P p e1))).
  exists e1, (snd (getRandomValues 12 (snd (getRandomValues 16 e1)))).
  split; [apply encryptText_returns; exact Hsp|].
  split; [apply encryptText_returns; exact Hsp|].
  split; [reflexivity|]. split; [reflexivity|].
  split; [reflexivity|]. split; [reflexivity|].
  split; [|split].
  - destruct (decrypt_encrypt P p e HP Hsp) as (text & He & Hd).
    rewrite encryptText_returns in He by exact Hsp.
    cbn [fst] in He. injection He as <-. exact Hd.
  - destruct (decrypt_encrypt P p e1 HP Hsp) as (text & He & Hd).
    rewrite encryptText_returns in He by exact Hsp.
    cbn [fst] in He. injection He as <-. exact Hd.
  - intros Hdiff Heq. apply payload_text_inj in Heq as (Hs & Hi & _).
    destruct Hdiff as [H|H]; contradiction.
Qed.

Lemma encryptText_draws_fresh_witness :
  exists t1 t2 e1 e2,
    Vault.encryptText (C := Toy.provider) (E := Toy.engine)
      (js "x") (js "pw") Toy.counter
    = (Returns t1, e1)
    /\ Vault.encryptText (C := Toy.provider) (E := Toy.engine)
         (js "x") (js "pw") e1 = (Returns t2, e2)
    /\ drawn_salt Toy.counter = map Toy.counter (seq 0 16)
    /\ drawn_iv Toy.counter = map Toy.counter (seq 16 12)
    /\ drawn_salt e1 = map Toy.counter (seq 28 16)
    /\ drawn_iv e1 = map Toy.counter (seq 44 12)
    /\ Vault.decryptText (C := Toy.provider) t1 (js "pw")
       = Returns (Utf8.normalise (js "x"))
    /\ Vault.decryptText (C := Toy.provider) t2 (js "pw")
       = Returns (Utf8.normalise (js "x"))
    /\ (drawn_salt Toy.counter <> drawn_salt e1
        \/ drawn_iv Toy.counter <> drawn_iv e1 -> t1 <> t2).
Proof.
  apply (encryptText_draws_fresh Toy.provider Toy.engine toy_laws).
  - repeat constructor; unfold unit_range; cbn; lia.
  - spread.
Defined.

(** Turning persistence off deletes the stored resume and the stored key at
    once and records the preference; while it is off an upload writes
    nothing. *)
Theorem persistence_off_deletes_and_gates_upload (w : Home.World) :
  Home.storage (Home.togglePersist false w) !! Home.LAST_RESUME = None
  /\ Home.storage (Home.togglePersist false w) !! Home.API_KEY_ENC = None
  /\ Home.storage (Home.togglePersist false w) !! Home.PERSISTENCE = Some (js "0")
  /\ forall (v : Home.World) (file : option (jsstring * jsstring)) (now : Z),
       Home.persistEnabled (Home.state v) = false ->
       exists v',
         Home.handleFileUpload file now v = Some v'
         /\ Home.storage v' = Home.storage v.
Proof.
  destruct (togglePersist_off_deletes w) as (H1 & H2 & H3 & _).
  split; [exact H1|]. split; [exact H2|]. split; [exact H3|].
  intros v file now Hp. unfold Home.handleFileUpload, Home.onload.
  destruct file as [[name text]|]; [rewrite Hp|]; eexists; split; reflexivity.
Qed.

(** A load that finds no payload starts with no encrypted key. *)
Lemma reload_without_payload (prev w' : Home.World) :
  Home.storage prev !! Home.API_KEY_ENC = None ->
  Home.reload prev = Some w' ->
  Home.encryptedApiKey (Home.state w') = None.
Proof.
  intros Hk. unfold Home.reload, Home.loadEffect.
  unfold Home.getItem at 1 2. cbn [Home.storage].
  destruct (match Home.storage prev !! Home.PERSISTENCE with
            | Some rawPersist => Json.eqb rawPersist (js "1")
            | None => true
            end); cbn [negb].
  - destruct (Home.loadResume _) as [[w2|]|] eqn:El.
    + destruct (loadResume_frame _ _ El) as (Hst & _ & _ & Hek & _). world.
      unfold Home.getItem. rewrite Hst, Hk. cbn [mbind option_bind].
      destruct (Home.renders _); [|discriminate].
      intros H. injection H as <-. exact Hek.
    + discriminate.
    + cbn [mbind option_bind]. destruct (Home.renders _); [|discriminate].
      intros H. injection H as <-. reflexivity.
  - cbn [mbind option_bind]. destruct (Home.renders _); [|discriminate].
    intros H. injection H as <-. reflexivity.
Qed.

(** Clear Encrypted Key removes the stored payload and wipes the key from
    the page: no payload held, no plaintext key, not unlocked; the next load
    finds no payload either. *)
Theorem clearEncryptedKey_absent (w : Home.World) :
  Home.storage (Home.clearEncryptedKey w) !! Home.API_KEY_ENC = None
  /\ Home.encryptedApiKey (Home.state (Home.clearEncryptedKey w)) = None
  /\ Home.apiKey (Home.state (Home.clearEncryptedKey w)) = []
  /\ Home.isApiUnlocked (Home.state (Home.clearEncryptedKey w)) = false
  /\ forall w',
       Home.reload (Home.clearEncryptedKey w) = Some w' ->
       Home.encryptedApiKey (Home.state w') = None.
Proof.
  assert (Hk : Home.storage (Home.clearEncryptedKey w) !! Home.API_KEY_ENC = None).
  { world. apply lookup_delete_eq. }
  split; [exact Hk|]. do 3 (split; [reflexivity|]).
  intros w'. apply reload_without_payload. exact Hk.
Qed.

(** ** JSON: a string and an integer are read back as they were written *)

(** A character that gives no token. *)
Lemma lex_silent (st st' : Json.lstate) (c : Z) (s : jsstring) :
  Json.lex_step st c = Some (st', []) ->
  Json.lex_from st (c :: s) = Json.lex_from st' s.
Proof.
  intros H. cbn [Json.lex_from]. rewrite H. cbn.
  destruct (Json.lex_from st' s); reflexivity.
Qed.

Lemma hex_value_digit (d : Z) :
  0 <= d < 16 -> Json.hex_value (Json.hex_digit d) = Some d.
Proof.
  intros H. unfold Json.hex_value, Json.hex_digit, Json.is_digit.
  zbool; try lia; f_equal; lia.
Qed.

Lemma lex_unicode_escape (c : Z) (acc rest : jsstring) :
  unit_range c ->
  Json.lex_from (Json.LString acc) (Json.unicode_escape c ++ rest)
  = Json.lex_from (Json.LString (c :: acc)) rest.
Proof.
  intros Hc. unfold unit_range in Hc. unfold Json.unicode_escape. cbn [app].
  rewrite (lex_silent _ (Json.LEscape acc)) by reflexivity.
  rewrite (lex_silent _ (Json.LUnicode acc 0 3)) by reflexivity.
  rewrite (lex_silent _ (Json.LUnicode acc (c / 4096) 2))
    by (cbn [Json.lex_step]; rewrite hex_value_digit by divmod; reflexivity).
  rewrite (lex_silent _ (Json.LUnicode acc (c / 4096 * 16 + c / 256 mod 16) 1))
    by (cbn [Json.lex_step]; rewrite hex_value_digit by divmod; reflexivity).
  rewrite (lex_silent _
             (Json.LUnicode acc
                ((c / 4096 * 16 + c / 256 mod 16) * 16 + c / 16 mod 16) 0))
    by (cbn [Json.lex_step]; rewrite hex_value_digit by divmod; reflexivity).
  rewrite (lex_silent _ (Json.LString (c :: acc))); [reflexivity|].
  cbn [Json.lex_step]. rewrite hex_value_digit by divmod.
  cbn [mbind option_bind].
  replace (((c / 4096 * 16 + c / 256 mod 16) * 16 + c / 16 mod 16) * 16 + c mod 16)
    with c by divmod.
  reflexivity.
Qed.

(** One code unit that is not a surrogate, escaped or not. *)
Lemma lex_escape_unit (c : Z) (acc rest : jsstring) :
  unit_range c ->
  Json.lex_from (Json.LString acc) (Json.escape_unit c ++ rest)
  = Json.lex_from (Json.LString (c :: acc)) rest.
Proof.
  intros Hc. unfold Json.escape_unit.
  assert (Hshort : forall x y : Z,
            Json.lex_step (Json.LEscape acc) x = Some (Json.LString (y :: acc), []) ->
            Json.lex_from (Json.LString acc) ([92; x] ++ rest)
            = Json.lex_from (Json.LString (y :: acc)) rest).
  { intros x y H. cbn [app].
    rewrite (lex_silent _ (Json.LEscape acc)) by reflexivity.
    apply lex_silent. exact H. }
  destruct (Z.eqb_spec c 8) as [->|?]; [apply Hshort; reflexivity|].
  destruct (Z.eqb_spec c 9) as [->|?]; [apply Hshort; reflexivity|].
  destruct (Z.eqb_spec c 10) as [->|?]; [apply Hshort; reflexivity|].
  destruct (Z.eqb_spec c 12) as [->|?]; [apply Hshort; reflexivity|].
  destruct (Z.eqb_spec c 13) as [->|?]; [apply Hshort; reflexivity|].
  destruct (Z.eqb_spec c 34) as [->|?]; [apply Hshort; reflexivity|].
  destruct (Z.eqb_spec c 92) as [->|?]; [apply Hshort; reflexivity|].
  destruct (Z.ltb_spec c 32) as [?|?]; [apply lex_unicode_escape; exact Hc|].
  cbn [app]. apply lex_silent. cbn [Json.lex_step].
  repeat decide_leb. reflexivity.
Qed.

(** Inside a string, what [quote_body] wrote is read back, up to the
    closing quote. *)
Lemma lex_quote_body (s : jsstring) :
  Forall unit_range s ->
  forall acc rest : jsstring,
    Json.lex_from (Json.LString acc) (Json.quote_body s ++ 34 :: rest)
    = (ts ← Json.lex_from Json.LDefault rest;
       Some (Json.TValue (Json.JStr (rev acc ++ s)) :: ts)).
Proof.
  assert (Hend : forall acc rest : jsstring,
            Json.lex_from (Json.LString acc) (34 :: rest)
            = (ts ← Json.lex_from Json.LDefault rest;
               Some (Json.TValue (Json.JStr (rev acc)) :: ts))).
  { intros acc rest. cbn. destruct (Json.lex_from Json.LDefault rest); reflexivity. }
  assert (Hraw : forall (c : Z) (acc rest : jsstring),
            Utf8.is_high c || Utf8.is_low c = true ->
            Json.lex_from (Json.LString acc) (c :: rest)
            = Json.lex_from (Json.LString (c :: acc)) rest).
  { intros c acc rest H. apply lex_silent. cbn [Json.lex_step].
    unfold Utf8.is_high, Utf8.is_low in H.
    zbool; try discriminate; try lia; reflexivity. }
  induction s as [|x|x y l IHl IHy] using list_ind_pairs; intros Hs acc rest.
  - cbn [Json.quote_body app]. rewrite Hend, app_nil_r. reflexivity.
  - inversion_clear Hs as [|? ? Hx _].
    cbn [Json.quote_body].
    destruct (Utf8.is_high x) eqn:Hh; [|destruct (Utf8.is_low x) eqn:Hl].
    + rewrite lex_unicode_escape, Hend by exact Hx. reflexivity.
    + rewrite app_nil_r, lex_unicode_escape, Hend by exact Hx. reflexivity.
    + rewrite app_nil_r, lex_escape_unit, Hend by exact Hx. reflexivity.
  - inversion Hs as [|? ? Hx Hyl]; subst.
    inversion Hyl as [|? ? Hy Hl]; subst.
    specialize (IHl Hl). specialize (IHy Hyl).
    change (Json.quote_body (x :: y :: l)) with
      (if Utf8.is_high x then
         if Utf8.is_low y then x :: y :: Json.quote_body l
         else Json.unicode_escape x ++ Json.quote_body (y :: l)
       else if Utf8.is_low x
            then Json.unicode_escape x ++ Json.quote_body (y :: l)
            else Json.escape_unit x ++ Json.quote_body (y :: l)).
    destruct (Utf8.is_high x) eqn:Hh;
      [destruct (Utf8.is_low y) eqn:Hly|destruct (Utf8.is_low x) eqn:Hl'].
    + cbn [app]. rewrite Hraw by (rewrite Hh; reflexivity).
      rewrite Hraw by (rewrite Hly; apply orb_true_r).
      rewrite IHl. cbn [rev]. rewrite <- !app_assoc. reflexivity.
    + rewrite <- app_assoc, lex_unicode_escape, IHy by exact Hx.
      cbn [rev]. rewrite <- app_assoc. reflexivity.
    + rewrite <- app_assoc, lex_unicode_escape, IHy by exact Hx.
      cbn [rev]. rewrite <- app_assoc. reflexivity.
    + rewrite <- app_assoc, lex_escape_unit, IHy by exact Hx.
      cbn [rev]. rewrite <- app_assoc. reflexivity.
Qed.

(** From between tokens: a quoted string is one token. *)
Lemma lex_quote (s rest : jsstring) :
  Forall unit_range s ->
  Json.lex_from Json.LDefault (Json.quote s ++ rest)
  = (ts ← Json.lex_from Json.LDefault rest;
     Some (Json.TValue (Json.JStr s) :: ts)).
Proof.
  intros Hs. unfold Json.quote. cbn [app]. rewrite <- app_assoc. cbn [app].
  rewrite (lex_silent _ (Json.LString [])) by reflexivity.
  rewrite lex_quote_body by exact Hs. reflexivity.
Qed.

(** The digits of an integer, read inside a number. *)
Lemma lex_digits (u : Decimal.uint) (n : Json.number) (rest : jsstring) :
  Json.lex_from (Json.LNumber Json.NInt n) (Json.digits u ++ rest)
  = Json.lex_from
      (Json.LNumber Json.NInt
         (Json.Build_number (Json.neg n) (read_digits u (Json.mantissa n))
            (Json.scale n) (Json.eneg n) (Json.exponent n))) rest.
Proof.
  revert n. induction u as [|u IH|u IH|u IH|u IH|u IH|u IH|u IH|u IH|u IH|u IH];
    intros n; cbn [Json.digits app read_digits];
    [destruct n; reflexivity|..];
    (erewrite lex_silent by reflexivity); rewrite IH; reflexivity.
Qed.

Lemma read_digits_acc (u : Decimal.uint) (a : positive) :
  read_digits u (Z.pos a) = Z.pos (Pos.of_uint_acc u a).
Proof.
  revert a. induction u as [|u IH|u IH|u IH|u IH|u IH|u IH|u IH|u IH|u IH|u IH];
    intros a; cbn [read_digits Pos.of_uint_acc]; [reflexivity|..];
    rewrite <- IH; f_equal; lia.
Qed.

(** The decimal digits of a positive number: no zero in front, and the
    number is their value. *)
Lemma to_uint_digits (p : positive) :
  exists (k : positive) (u : Decimal.uint),
    (Z.pos k <= 9)
    /\ Json.digits (Pos.to_uint p) = (48 + Z.pos k) :: Json.digits u
    /\ read_digits u (Z.pos k) = Z.pos p.
Proof.
  pose proof (DecimalPos.Unsigned.of_to p) as Hof.
  assert (Hn : forall u, Pos.to_uint p <> Decimal.D0 u).
  { intros u E.
    pose proof (DecimalPos.Unsigned.to_of (Pos.to_uint p)) as Hto.
    rewrite Hof in Hto. cbn [N.to_uint] in Hto.
    unfold Decimal.unorm in Hto.
    destruct (Decimal.nzhead (Pos.to_uint p)) eqn:Ez;
      try (apply (DecimalFacts.nzhead_nonzero (Pos.to_uint p) u); congruence).
    apply (DecimalPos.Unsigned.to_uint_nonzero p). congruence. }
  destruct (Pos.to_uint p) as [|u|u|u|u|u|u|u|u|u|u] eqn:E;
    [discriminate Hof | exfalso; apply (Hn u); reflexivity |..];
    cbn [Pos.of_uint] in Hof; injection Hof as Hof;
    [exists 1%positive|exists 2%positive|exists 3%positive|exists 4%positive
    |exists 5%positive|exists 6%positive|exists 7%positive|exists 8%positive
    |exists 9%positive];
    exists u; (split; [lia|]); (split; [reflexivity|]);
    rewrite read_digits_acc, Hof; reflexivity.
Qed.

(** A number ends at a closing brace. *)
Lemma lex_number_end (st : Json.numstate) (n : Json.number) (v : Json.json)
    (rest : jsstring) :
  Json.num_finish st n = Some v ->
  Json.lex_from (Json.LNumber st n) (125 :: rest)
  = (ts ← Json.lex_from Json.LDefault rest;
     Some (Json.TValue v :: Json.TRBrace :: ts)).
Proof.
  intros Hv. cbn [Json.lex_from Json.lex_step].
  replace (Json.num_next st 125) with (@None Json.numstate)
    by (destruct st; reflexivity).
  rewrite Hv. cbn. destruct (Json.lex_from Json.LDefault rest); reflexivity.
Qed.

(** The last member of an object, when it is an integer. *)
Lemma lex_decimal (z : Z) (rest : jsstring) :
  Json.lex_from Json.LDefault (Json.decimal z ++ 125 :: rest)
  = (ts ← Json.lex_from Json.LDefault rest;
     Some (Json.TValue (Json.JNum z 0) :: Json.TRBrace :: ts)).
Proof.
  destruct z as [|p|p].
  - change (Json.decimal 0) with [48]. cbn [app].
    erewrite lex_silent by reflexivity.
    apply lex_number_end. reflexivity.
  - change (Json.decimal (Z.pos p)) with (Json.digits (Pos.to_uint p)).
    destruct (to_uint_digits p) as (k & u & Hk & -> & Hv). cbn [app].
    erewrite lex_silent.
    2:{ cbn [Json.lex_step]. unfold Json.lex_default, Json.is_digit.
        repeat decide_leb. reflexivity. }
    rewrite lex_digits. cbn [Json.neg Json.mantissa Json.scale Json.eneg Json.exponent].
    apply lex_number_end. cbn [Json.num_finish Json.neg Json.mantissa Json.eneg
      Json.exponent Json.scale].
    replace (48 + Z.pos k - 48) with (Z.pos k) by lia. rewrite Hv. reflexivity.
  - change (Json.decimal (Z.neg p)) with (45 :: Json.digits (Pos.to_uint p)).
    destruct (to_uint_digits p) as (k & u & Hk & -> & Hv). cbn [app].
    erewrite lex_silent by reflexivity.
    erewrite lex_silent.
    2:{ cbn [Json.lex_step Json.num_next]. unfold Json.is_digit.
        repeat decide_leb. reflexivity. }
    rewrite lex_digits.
    cbn [Json.num_read Json.neg Json.mantissa Json.scale Json.eneg Json.exponent].
    apply lex_number_end. cbn [Json.num_finish Json.neg Json.mantissa Json.eneg
      Json.exponent Json.scale].
    replace (0 * 10 + (48 + Z.pos k - 48)) with (Z.pos k) by lia.
    rewrite Hv. reflexivity.
Qed.

Lemma lex_punct (c : Z) (t : Json.token) (s : jsstring) :
  Json.lex_default c = Some (Json.LDefault, [t]) ->
  Json.lex_from Json.LDefault (c :: s)
  = (ts ← Json.lex_from Json.LDefault s; Some (t :: ts)).
Proof. intros H. cbn [Json.lex_from Json.lex_step]. rewrite H. reflexivity. Qed.

Lemma stringify_resume_item (name text : jsstring) (now : Z) :
  Z.abs now <= 2 ^ 53 ->
  Json.stringify (resume_item name text now) = Some (resume_text name text now).
Proof.
  intros Hn. unfold resume_item, resume_text. cbn [Json.stringify].
  replace (Json.number_to_string now 0) with (Some (Json.decimal now)).
  2:{ unfold Json.number_to_string, Json.num_integer. cbn [Z.leb Z.compare].
      rewrite Z.pow_0_r, Z.mul_1_r. cbn [mbind option_bind].
      destruct (Z.leb_spec (Z.abs now) (2 ^ 53)); [reflexivity|lia]. }
  cbn [mbind option_bind]. f_equal.
  change (js "{") with [123]. change (js "}") with [125]. cbn [app]. f_equal.
  repeat (rewrite <- !app_assoc; cbn [app]). reflexivity.
Qed.

Lemma parse_resume_text (name text : jsstring) (now : Z) :
  Forall unit_range name -> Forall unit_range text ->
  Json.parse (resume_text name text now) = Returns (resume_item name text now).
Proof.
  intros Hname Htext.
  assert (Hkey : forall k : string, Forall unit_range (js k)).
  { intros k. unfold js. induction (list_ascii_of_string k) as [|a l IH];
      cbn [map]; constructor; [|exact IH].
    unfold unit_range. pose proof (N_ascii_bounded a). lia. }
  unfold Json.parse, resume_text. change (js "{") with [123].
  change (js "}") with [125]. cbn [app].
  rewrite (lex_punct 123 Json.TLBrace) by reflexivity.
  rewrite lex_quote by apply Hkey.
  rewrite (lex_punct 58 Json.TColon) by reflexivity.
  rewrite lex_quote by exact Hname.
  rewrite (lex_punct 44 Json.TComma) by reflexivity.
  rewrite lex_quote by apply Hkey.
  rewrite (lex_punct 58 Json.TColon) by reflexivity.
  rewrite lex_quote by exact Htext.
  rewrite (lex_punct 44 Json.TComma) by reflexivity.
  rewrite lex_quote by apply Hkey.
  rewrite (lex_punct 58 Json.TColon) by reflexivity.
  rewrite lex_decimal. reflexivity.
Qed.

(** ** The saved resume *)

Section ResumeFacts.
Context {C : SubtleCrypto} {E : Engine}.

Lemma fire_upload_saves (w : Home.World) (name text : jsstring) (now : Z) :
  Home.persistEnabled (Home.state w) = true -> Z.abs now <= 2 ^ 53 ->
  Home.fire (Home.Upload (Some (name, text)) now) w
  = Some (Home.update (Home.setLastSavedResume (resume_item name text now))
            (Home.setItem Home.LAST_RESUME (resume_text name text now)
               (Home.update (Home.setOriginalContent (Json.JStr text))
                  (Home.update (Home.setResumeFile (Some (restored_file name text)))
                     w)))).
Proof.
  intros Hp Hn. apply fire_upload; [exact Hp|].
  apply stringify_resume_item. exact Hn.
Qed.

(** The load of a stored resume item, on a page with no file yet. *)
Lemma loadResume_item (w : Home.World) (name text : jsstring) (now : Z) :
  Forall unit_range name -> Forall unit_range text ->
  Home.storage w !! Home.LAST_RESUME = Some (resume_text name text now) ->
  Home.resumeFile (Home.state w) = None ->
  Home.loadResume w
  = Some (Some
      (let w1 := Home.update (Home.setLastSavedResume (resume_item name text now)) w in
       if Home.is_empty text then w1
       else Home.update (Home.setOriginalContent (Json.JStr text))
              (Home.update (Home.setResumeFile (Some (restored_file name text)))
                 w1))).
Proof.
  intros Hname Htext Hk Hf. unfold Home.loadResume, Home.getItem. rewrite Hk.
  assert (Hcons : exists tl, resume_text name text now = 123 :: tl)
    by (eexists; reflexivity).
  destruct Hcons as (tl & Htl). rewrite Htl. cbv beta iota. rewrite <- Htl.
  rewrite parse_resume_text by assumption.
  cbn [Home.update Home.state Home.setLastSavedResume Home.resumeFile].
  rewrite Hf.
  replace (Json.truthy (resume_item name text now)) with (Some true) by reflexivity.
  replace (Json.prop (resume_item name text now) (js "content"))
    with (Some (Json.JStr text)) by reflexivity.
  replace (Json.prop (resume_item name text now) (js "name"))
    with (Some (Json.JStr name)) by reflexivity.
  destruct text as [|c text]; reflexivity.
Qed.

(** A load with persistence on that finds a resume item. *)
Lemma reload_restores (prev : Home.World) (name text : jsstring) (now : Z) :
  persistence_on (Home.storage prev) ->
  Forall unit_range name -> Forall unit_range text ->
  Home.storage prev !! Home.LAST_RESUME = Some (resume_text name text now) ->
  exists w2,
    Home.reload prev = Some w2
    /\ Home.originalContent (Home.state w2) = Json.JStr text
    /\ Home.lastSavedResume (Home.state w2) = resume_item name text now
    /\ Home.resumeFile (Home.state w2)
       = (if Home.is_empty text then None else Some (restored_file name text))
    /\ Home.persistEnabled (Home.state w2) = true
    /\ Home.storage w2 = Home.storage prev.
Proof.
  intros Hon Hname Htext Hk. unfold Home.reload, Home.loadEffect.
  unfold Home.getItem at 1. cbn [Home.storage].
  assert (Hs : match Home.storage prev !! Home.PERSISTENCE with
               | Some rawPersist => Json.eqb rawPersist (js "1")
               | None => true
               end = true).
  { destruct Hon as [-> | ->]; reflexivity. }
  rewrite Hs. cbn [negb].
  erewrite loadResume_item; [|exact Hname|exact Htext|exact Hk|reflexivity].
  cbv zeta.
  destruct text as [|c text]; cbn [Home.is_empty];
    match goal with
    | |- context [Home.getItem Home.API_KEY_ENC ?w] =>
        destruct (Home.getItem Home.API_KEY_ENC w) as [[|? ?]|]
    end;
    (eexists; split; [reflexivity|]); world; auto 10.
Qed.

End ResumeFacts.

(** A resume uploaded while persistence is on comes back with the next
    load: the page then holds the text as [originalContent], shows the item
    as the last saved resume and, unless the text is empty, has a file of
    that name and text; an empty file is listed but not restored. The
    names and texts are strings of code units, and the time is one that
    [Date.now] can give. *)
Theorem upload_survives_reload (C : SubtleCrypto) (E : Engine) (w : Home.World)
    (name text : jsstring) (now : Z) :
  Home.persistEnabled (Home.state w) = true ->
  persistence_on (Home.storage w) ->
  Forall unit_range name -> Forall unit_range text -> Z.abs now <= 2 ^ 53 ->
  exists w1 w2,
    Home.fire (Home.Upload (Some (name, text)) now) w = Some w1
    /\ Home.reload w1 = Some w2
    /\ Home.originalContent (Home.state w2) = Json.JStr text
    /\ Home.lastSavedResume (Home.state w2) = resume_item name text now
    /\ Home.resumeFile (Home.state w2)
       = (if Home.is_empty text then None else Some (restored_file name text))
    /\ Home.persistEnabled (Home.state w2) = true
    /\ Home.storage w2 = Home.storage w1.
Proof.
  intros Hp Hon Hname Htext Hnow.
  eexists. 
  destruct (reload_restores
              (Home.update (Home.setLastSavedResume (resume_item name text now))
                 (Home.setItem Home.LAST_RESUME (resume_text name text now)
                    (Home.update (Home.setOriginalContent (Json.JStr text))
                       (Home.update
                          (Home.setResumeFile (Some (restored_file name text)))
                          w))))
              name text now) as (w2 & Hw2);
    [|exact Hname|exact Htext| |].
  - world. unfold persistence_on. rewrite lookup_insert_ne by discriminate.
    exact Hon.
  - world. apply lookup_insert_eq.
  - exists w2. split; [apply fire_upload_saves; assumption|exact Hw2].
Qed.


Lemma upload_survives_reload_witness :
  exists w1 w2,
    Home.fire (C := Toy.provider) (E := Toy.engine)
      (Home.Upload (Some (js "cv.tex", js "\documentclass{article}")) 1700000000000)
      (first_visit Toy.counter) = Some w1
    /\ Home.reload w1 = Some w2
    /\ Home.originalContent (Home.state w2) = Json.JStr (js "\documentclass{article}")
    /\ Home.lastSavedResume (Home.state w2)
       = resume_item (js "cv.tex") (js "\documentclass{article}") 1700000000000
    /\ Home.resumeFile (Home.state w2)
       = (if Home.is_empty (js "\documentclass{article}") then None
          else Some (restored_file (js "cv.tex") (js "\documentclass{article}")))
    /\ Home.persistEnabled (Home.state w2) = true
    /\ Home.storage w2 = Home.storage w1.
Proof.
  apply (upload_survives_reload Toy.provider Toy.engine (first_visit Toy.counter)).
  - reflexivity.
  - left. reflexivity.
  - repeat constructor; unfold unit_range; cbn; lia.
  - repeat constructor; unfold unit_range; cbn; lia.
  - vm_compute. discriminate.
Defined.
(** ** What every session keeps *)

Section SessionFacts.
Context {C : SubtleCrypto} {E : Engine}.

Ltac lookups :=
  repeat first [ rewrite lookup_insert_eq | rewrite lookup_delete_eq
               | rewrite lookup_insert_ne by discriminate
               | rewrite lookup_delete_ne by discriminate ].

Lemma play_step (m : Home.move) (ms : list Home.move) (p p' : Home.Waiting) :
  Home.step m p = Some p' -> Home.play (m :: ms) p = Home.play ms p'.
Proof. intros H. cbn [Home.play]. rewrite H. reflexivity. Qed.

(** An event that waits for nothing, in a session. *)
Lemma step_handled (ev : Home.event) (p : Home.Waiting) (w : Home.World) :
  Home.shown ev (Home.state (Home.page p)) = true ->
  Home.start ev (Home.page p) = Some (w, []) ->
  Home.step (Home.Do ev) p = Some {| Home.page := w; Home.tasks := Home.tasks p |}.
Proof.
  intros Hs Hst. cbn [Home.step]. rewrite Hs, Hst. cbn [mbind option_bind].
  rewrite app_nil_r. reflexivity.
Qed.

(** The saved resume part of the load leaves the flag alone, and shows a
    saved resume only when one is stored. *)
Lemma loadResume_resume (w w2 : Home.World) :
  Home.loadResume w = Some (Some w2) ->
  Home.persistEnabled (Home.state w2) = Home.persistEnabled (Home.state w)
  /\ (Home.lastSavedResume (Home.state w2) = Home.lastSavedResume (Home.state w)
      \/ Home.storage w !! Home.LAST_RESUME <> None).
Proof.
  unfold Home.loadResume, Home.getItem. intros H.
  destruct (Home.storage w !! Home.LAST_RESUME) as [[|c raw]|] eqn:Q;
    [injection H as <-; auto| |injection H as <-; auto].
  split; [|right; discriminate].
  repeat match type of H with
         | match ?x with _ => _ end = _ => destruct x
         end;
    try discriminate; injection H as <-;
    try match goal with |- context [Home.makesFile ?c ?n] =>
          destruct (Home.makesFile c n) end;
    reflexivity.
Qed.

(** The three ends of a handler that waited. *)
Lemma onload_resume_kept (name text : jsstring) (persist : bool) (now : Z)
    (w w' : Home.World) :
  resume_kept w -> Home.onload name text persist now w = Some w' ->
  resume_kept w'.
Proof.
  unfold resume_kept, stored_preference, Home.onload. intros (H1 & H2) H.
  destruct persist.
  - destruct (Json.stringify _) as [text'|]; [|discriminate].
    cbn [mbind option_bind] in H. injection H as <-. world. lookups.
    split; [exact H1|]. discriminate.
  - injection H as <-. world. auto.
Qed.

Lemma settle_resume_kept (t : Home.task) (w w' : Home.World) :
  resume_kept w -> Home.settle t w = Some w' -> resume_kept w'.
Proof.
  intros Hw H. destruct t as [name text persist now|r|r|r]; cbn [Home.settle] in H.
  - exact (onload_resume_kept _ _ _ _ _ _ Hw H).
  - unfold resume_kept, stored_preference in *. destruct Hw as (H1 & H2).
    destruct r as [enc|err|]; cbn [Home.encryptAndSaveThen] in H;
      [| |discriminate]; injection H as <-; world; lookups; auto.
  - unfold resume_kept, stored_preference in *. destruct Hw as (H1 & H2).
    destruct r as [plain|err|]; cbn [Home.unlockThen] in H;
      [| |discriminate]; injection H as <-; world; auto.
  - unfold resume_kept, stored_preference in *. destruct Hw as (H1 & H2).
    destruct r as [enc|err|]; cbn [Home.saveEncryptedThen] in H;
      [| |discriminate]; injection H as <-; world; lookups; auto.
Qed.

Lemma start_resume_kept (ev : Home.event) (w w' : Home.World)
    (ts : list Home.task) :
  resume_kept w -> Home.start ev w = Some (w', ts) -> resume_kept w'.
Proof.
  unfold resume_kept, stored_preference. intros (H1 & H2) H.
  destruct ev as [s|s|[[name text]|] now| | | | | | |v];
    cbn [Home.start Home.handle Home.handleFileUpload mbind option_bind] in H.
  - injection H as <- _. world. auto.
  - injection H as <- _. world. auto.
  - injection H as <- _. unfold Home.chooseFile. world. auto.
  - injection H as <- _. auto.
  - injection H as <- _. world. lookups. split; [exact H1|]. congruence.
  - destruct (Home.is_empty (Home.apiKey (Home.state w)));
      [injection H as <- _; world; auto|].
    destruct (Home.is_empty (Home.passphrase (Home.state w)));
      [injection H as <- _; world; auto|].
    destruct (Vault.encryptText _ _ _) as [r e'].
    injection H as <- _. world. auto.
  - injection H as <- _. world. auto.
  - destruct (Home.is_empty (Home.passphrase (Home.state w)));
      [injection H as <- _; world; auto|].
    destruct (Home.encryptedApiKey (Home.state w)) as [enc|]; [|discriminate].
    injection H as <- _. auto.
  - injection H as <- _. world. lookups. auto.
  - destruct (Home.is_empty (Home.passphrase (Home.state w)));
      [injection H as <- _; world; auto|].
    destruct (Vault.encryptText _ _ _) as [r e'].
    injection H as <- _. world. auto.
  - injection H as <- _. destruct v; world; lookups.
    + split; [reflexivity|exact H2].
    + split; [reflexivity|]. congruence.
Qed.

(** A load, with the preference it reads named. *)
Lemma reload_unfold (w : Home.World) :
  Home.reload w
  = (let w1 := {| Home.state :=
                    Home.setPersistEnabled (stored_preference (Home.storage w))
                      Home.initial;
                  Home.storage := Home.storage w; Home.alerts := [];
                  Home.random := Home.random w |} in
     w' ← (if negb (stored_preference (Home.storage w)) then Some w1
           else
             match Home.loadResume w1 with
             | None => Some w1
             | Some None => None
             | Some (Some w2) =>
                 match Home.getItem Home.API_KEY_ENC w2 with
                 | Some (c :: storedEnc) =>
                     Some (Home.update (Home.setIsApiUnlocked false)
                             (Home.update (Home.setApiKey [])
                                (Home.update
                                   (Home.setEncryptedApiKey (Some (c :: storedEnc)))
                                   w2)))
                 | _ => Some w2
                 end
             end);
     if Home.renders (Home.state w') then Some w' else None).
Proof. reflexivity. Qed.

Lemma reload_resume_kept (w w' : Home.World) :
  resume_kept w -> Home.reload w = Some w' -> resume_kept w'.
Proof.
  unfold resume_kept. rewrite reload_unfold. cbv zeta.
  intros (H1 & H2).
  destruct (stored_preference (Home.storage w)) eqn:Hs; cbn [negb]; intros H.
  - destruct (Home.loadResume _) as [[w2|]|] eqn:El; [|discriminate|].
    + destruct (loadResume_frame _ _ El) as (Hst & _).
      destruct (loadResume_resume _ _ El) as (Hp & Hl).
      world.
      assert (Hw' : Home.storage w' = Home.storage w
                    /\ Home.persistEnabled (Home.state w') = true
                    /\ Home.lastSavedResume (Home.state w')
                       = Home.lastSavedResume (Home.state w2)).
      { destruct (Home.getItem Home.API_KEY_ENC w2) as [[|? ?]|];
          cbn [mbind option_bind] in H;
          destruct (Home.renders _); try discriminate;
          injection H as <-; world; rewrite Hst, Hp; auto. }
      destruct Hw' as (-> & -> & ->). rewrite Hs.
      split; [reflexivity|]. intros Q.
      destruct Hl as [Hl|Hl]; [congruence|exact Hl].
    + cbn [mbind option_bind] in H. destruct (Home.renders _); [|discriminate].
      injection H as <-. world. rewrite Hs.
      split; [reflexivity|]. congruence.
  - cbn [mbind option_bind] in H. destruct (Home.renders _); [|discriminate].
    injection H as <-. world. rewrite Hs.
    split; [reflexivity|]. congruence.
Qed.

Lemma step_resume_kept (m : Home.move) (p p' : Home.Waiting) :
  resume_kept (Home.page p) -> Home.step m p = Some p' ->
  resume_kept (Home.page p').
Proof.
  intros Hp H. destruct m as [ev|i|]; cbn [Home.step] in H.
  - destruct (Home.shown ev _); [|discriminate].
    destruct (Home.start ev (Home.page p)) as [[w ts]|] eqn:Hst; [|discriminate].
    cbn [mbind option_bind] in H. injection H as <-. cbn [Home.page].
    exact (start_resume_kept ev _ _ _ Hp Hst).
  - destruct (Home.tasks p !! i) as [t|]; [|discriminate].
    cbn [mbind option_bind] in H.
    destruct (Home.settle t (Home.page p)) as [w|] eqn:Hs; [|discriminate].
    cbn [mbind option_bind] in H. injection H as <-. cbn [Home.page].
    exact (settle_resume_kept t _ _ Hp Hs).
  - destruct (Home.reload (Home.page p)) as [w|] eqn:Hr; [|discriminate].
    cbn [mbind option_bind] in H. injection H as <-. cbn [Home.page].
    exact (reload_resume_kept _ _ Hp Hr).
Qed.

Lemma play_resume_kept (ms : list Home.move) (p p' : Home.Waiting) :
  resume_kept (Home.page p) -> Home.play ms p = Some p' ->
  resume_kept (Home.page p').
Proof.
  revert p. induction ms as [|m ms IH]; intros p Hp H.
  - injection H as <-. exact Hp.
  - cbn [Home.play] in H.
    destruct (Home.step m p) as [p1|] eqn:Hs; [|discriminate].
    apply (IH p1); [exact (step_resume_kept m p p1 Hp Hs)|exact H].
Qed.

(** Writing what the page writes, and deleting, keep the storage the
    page's own. *)
Lemma written_insert (st : gmap string jsstring) (k0 : string) (v0 : jsstring) :
  (forall k v, st !! k = Some v -> written_by_page k v) ->
  written_by_page k0 v0 ->
  forall k v, <[k0 := v0]> st !! k = Some v -> written_by_page k v.
Proof.
  intros Hst H0 k v Hkv.
  apply lookup_insert_Some in Hkv as [[<- <-]|[_ Hkv]]; [exact H0|].
  apply Hst. exact Hkv.
Qed.

Lemma written_delete (st : gmap string jsstring) (k0 : string) :
  (forall k v, st !! k = Some v -> written_by_page k v) ->
  forall k v, delete k0 st !! k = Some v -> written_by_page k v.
Proof.
  intros Hst k v Hkv. apply lookup_delete_Some in Hkv as [_ Hkv].
  apply Hst. exact Hkv.
Qed.

Lemma written_payload (r : outcome jsstring) (enc : jsstring) :
  called_with_passphrase r -> r = Returns enc ->
  written_by_page Home.API_KEY_ENC enc.
Proof.
  intros (key & pw & e & Hpw & Hr) He. right. right. split; [reflexivity|].
  exists key, pw, e. split; [exact Hpw|]. rewrite <- Hr. exact He.
Qed.

Lemma called (key pw : jsstring) (e : entropy) :
  Home.is_empty pw = false ->
  called_with_passphrase (fst (Vault.encryptText key pw e)).
Proof.
  intros Hpw. exists key, pw, e. split; [|reflexivity].
  destruct pw; discriminate.
Qed.

Lemma settle_written (t : Home.task) (w w' : Home.World) :
  (forall k v, Home.storage w !! k = Some v -> written_by_page k v) ->
  task_kept t -> Home.settle t w = Some w' ->
  forall k v, Home.storage w' !! k = Some v -> written_by_page k v.
Proof.
  intros Hw Ht H. destruct t as [name text persist now|r|r|r];
    cbn [Home.settle task_kept] in H, Ht.
  - unfold Home.onload in H. destruct persist.
    + destruct (Json.stringify _) as [text'|] eqn:Et; [|discriminate].
      cbn [mbind option_bind] in H. injection H as <-. world.
      apply written_insert; [exact Hw|].
      right. left. split; [reflexivity|]. exists name, text, now. exact Et.
    + injection H as <-. world. exact Hw.
  - destruct r as [enc|err|]; cbn [Home.encryptAndSaveThen] in H;
      [| |discriminate]; injection H as <-; world; [|exact Hw].
    apply written_insert; [exact Hw|]. exact (written_payload _ enc Ht eq_refl).
  - destruct r as [plain|err|]; cbn [Home.unlockThen] in H;
      [| |discriminate]; injection H as <-; world; exact Hw.
  - destruct r as [enc|err|]; cbn [Home.saveEncryptedThen] in H;
      [| |discriminate]; injection H as <-; world; [|exact Hw].
    apply written_insert; [exact Hw|]. exact (written_payload _ enc Ht eq_refl).
Qed.

Lemma start_written (ev : Home.event) (w w' : Home.World)
    (ts : list Home.task) :
  (forall k v, Home.storage w !! k = Some v -> written_by_page k v) ->
  Home.start ev w = Some (w', ts) ->
  (forall k v, Home.storage w' !! k = Some v -> written_by_page k v)
  /\ Forall task_kept ts.
Proof.
  intros Hw H.
  destruct ev as [s|s|[[name text]|] now| | | | | | |v];
    cbn [Home.start Home.handle Home.handleFileUpload mbind option_bind] in H.
  - injection H as <- <-. world. auto.
  - injection H as <- <-. world. auto.
  - injection H as <- <-. unfold Home.chooseFile. world.
    split; [exact Hw|]. repeat constructor.
  - injection H as <- <-. auto.
  - injection H as <- <-. world. split; [|constructor].
    apply written_delete, written_delete. exact Hw.
  - destruct (Home.is_empty (Home.apiKey (Home.state w)));
      [injection H as <- <-; world; auto|].
    destruct (Home.is_empty (Home.passphrase (Home.state w))) eqn:Hpw;
      [injection H as <- <-; world; auto|].
    pose proof (called (Home.apiKey (Home.state w))
                  (Home.passphrase (Home.state w)) (Home.random w) Hpw) as Hc.
    destruct (Vault.encryptText _ _ _) as [r e'].
    injection H as <- <-. world. split; [exact Hw|].
    constructor; [exact Hc|constructor].
  - injection H as <- <-. world. auto.
  - destruct (Home.is_empty (Home.passphrase (Home.state w)));
      [injection H as <- <-; world; auto|].
    destruct (Home.encryptedApiKey (Home.state w)) as [enc|]; [|discriminate].
    injection H as <- <-. split; [exact Hw|]. repeat constructor.
  - injection H as <- <-. world. split; [|constructor].
    apply written_delete. exact Hw.
  - destruct (Home.is_empty (Home.passphrase (Home.state w))) eqn:Hpw;
      [injection H as <- <-; world; auto|].
    pose proof (called (Home.apiKey (Home.state w))
                  (Home.passphrase (Home.state w)) (Home.random w) Hpw) as Hc.
    destruct (Vault.encryptText _ _ _) as [r e'].
    injection H as <- <-. world. split; [exact Hw|].
    constructor; [exact Hc|constructor].
  - injection H as <- <-. split; [|constructor]. destruct v; world.
    + apply written_insert; [exact Hw|]. left. auto.
    + apply written_delete, written_delete, written_insert; [exact Hw|].
      left. auto.
Qed.

(** A load leaves the storage as it is. *)
Lemma reload_storage (w w' : Home.World) :
  Home.reload w = Some w' -> Home.storage w' = Home.storage w.
Proof.
  rewrite reload_unfold. cbv zeta.
  destruct (stored_preference (Home.storage w)); cbn [negb]; intros H.
  - destruct (Home.loadResume _) as [[w2|]|] eqn:El; [|discriminate|].
    + destruct (loadResume_frame _ _ El) as (Hst & _).
      destruct (Home.getItem Home.API_KEY_ENC w2) as [[|? ?]|];
        cbn [mbind option_bind] in H;
        destruct (Home.renders _); try discriminate;
        injection H as <-; world; rewrite Hst; reflexivity.
    + cbn [mbind option_bind] in H. destruct (Home.renders _); [|discriminate].
      injection H as <-. reflexivity.
  - cbn [mbind option_bind] in H. destruct (Home.renders _); [|discriminate].
    injection H as <-. reflexivity.
Qed.

Lemma step_key_kept (m : Home.move) (p p' : Home.Waiting) :
  key_kept p -> Home.step m p = Some p' -> key_kept p'.
Proof.
  unfold key_kept. intros (Hw & Ht) H. destruct m as [ev|i|]; cbn [Home.step] in H.
  - destruct (Home.shown ev _); [|discriminate].
    destruct (Home.start ev (Home.page p)) as [[w ts]|] eqn:Hst; [|discriminate].
    cbn [mbind option_bind] in H. injection H as <-. cbn [Home.page Home.tasks].
    destruct (start_written ev _ _ _ Hw Hst) as (Hw' & Hts).
    split; [exact Hw'|]. apply Forall_app. split; assumption.
  - destruct (Home.tasks p !! i) as [t|] eqn:Hi; [|discriminate].
    cbn [mbind option_bind] in H.
    destruct (Home.settle t (Home.page p)) as [w|] eqn:Hs; [|discriminate].
    cbn [mbind option_bind] in H. injection H as <-. cbn [Home.page Home.tasks].
    split.
    + apply (settle_written t (Home.page p) w Hw); [|exact Hs].
      exact (proj1 (Forall_lookup _ _) Ht i t Hi).
    + apply Forall_delete. exact Ht.
  - destruct (Home.reload (Home.page p)) as [w|] eqn:Hr; [|discriminate].
    cbn [mbind option_bind] in H. injection H as <-. cbn [Home.page Home.tasks].
    split; [|constructor]. rewrite (reload_storage _ _ Hr). exact Hw.
Qed.

Lemma play_key_kept (ms : list Home.move) (p p' : Home.Waiting) :
  key_kept p -> Home.play ms p = Some p' -> key_kept p'.
Proof.
  revert p. induction ms as [|m ms IH]; intros p Hp H.
  - injection H as <-. exact Hp.
  - cbn [Home.play] in H.
    destruct (Home.step m p) as [p1|] eqn:Hs; [|discriminate].
    apply (IH p1); [exact (step_key_kept m p p1 Hp Hs)|exact H].
Qed.

End SessionFacts.

(** ** Sessions with events while a handler waits *)

Section StepFacts.
Context {C : SubtleCrypto} {E : Engine}.

Lemma step_settle (i : nat) (t : Home.task) (p : Home.Waiting) (w : Home.World) :
  Home.tasks p !! i = Some t -> Home.settle t (Home.page p) = Some w ->
  Home.step (Home.Settle i) p
  = Some {| Home.page := w; Home.tasks := delete i (Home.tasks p) |}.
Proof. intros Ht Hs. cbn [Home.step]. rewrite Ht. cbn. rewrite Hs. reflexivity. Qed.

Lemma step_load (p : Home.Waiting) (w : Home.World) :
  Home.reload (Home.page p) = Some w ->
  Home.step Home.Load p = Some {| Home.page := w; Home.tasks := [] |}.
Proof. intros Hr. cbn [Home.step]. rewrite Hr. reflexivity. Qed.

Lemma step_encryptAndSave (p : Home.Waiting) :
  Home.nonempty (Home.encryptedApiKey (Home.state (Home.page p))) = false ->
  Home.is_empty (Home.apiKey (Home.state (Home.page p))) = false ->
  Home.is_empty (Home.passphrase (Home.state (Home.page p))) = false ->
  Home.step (Home.Do Home.EncryptAndSave) p
  = Some {| Home.page :=
              Home.setRandom
                (snd (Vault.encryptText (Home.apiKey (Home.state (Home.page p)))
                        (Home.passphrase (Home.state (Home.page p)))
                        (Home.random (Home.page p))))
                (Home.page p);
            Home.tasks :=
              Home.tasks p
              ++ [Home.SavingKey
                    (fst (Vault.encryptText
                            (Home.apiKey (Home.state (Home.page p)))
                            (Home.passphrase (Home.state (Home.page p)))
                            (Home.random (Home.page p))))] |}.
Proof.
  intros Hn Hk Hp. cbn [Home.step Home.shown]. rewrite Hn. cbn [negb].
  unfold Home.start. rewrite Hk, Hp.
  destruct (Vault.encryptText _ _ _) as [r e']. reflexivity.
Qed.

Lemma step_unlock (p : Home.Waiting) (enc : jsstring) :
  Home.encryptedApiKey (Home.state (Home.page p)) = Some enc -> enc <> [] ->
  Home.isApiUnlocked (Home.state (Home.page p)) = false ->
  Home.is_empty (Home.passphrase (Home.state (Home.page p))) = false ->
  Home.step (Home.Do Home.Unlock) p
  = Some {| Home.page := Home.page p;
            Home.tasks :=
              Home.tasks p
              ++ [Home.Unlocking
                    (Vault.decryptText enc
                       (Home.passphrase (Home.state (Home.page p))))] |}.
Proof.
  intros He Hne Hu Hp. cbn [Home.step Home.shown]. rewrite He, Hu.
  destruct enc as [|c enc]; [congruence|]. cbn [Home.nonempty negb andb].
  unfold Home.start. rewrite Hp, He. reflexivity.
Qed.

Lemma step_clearEncryptedKey (p : Home.Waiting) (enc : jsstring) :
  Home.encryptedApiKey (Home.state (Home.page p)) = Some enc -> enc <> [] ->
  Home.step (Home.Do Home.ClearEncryptedKey) p
  = Some {| Home.page := Home.clearEncryptedKey (Home.page p);
            Home.tasks := Home.tasks p |}.
Proof.
  intros He Hne. cbn [Home.step Home.shown]. rewrite He.
  destruct enc as [|c enc]; [congruence|]. cbn [Home.nonempty].
  cbn [Home.start Home.handle mbind option_bind]. rewrite app_nil_r. reflexivity.
Qed.

(** Unlock, then Clear Encrypted Key while [decryptText] is awaited: the
    key comes back into a page that holds no payload. *)
Lemma unlock_after_clear {L : SubtleCryptoLaws C} (e : entropy) :
  exists p,
    Home.play [Home.Do (Home.TypeApiKey (js "AIza-example-key-123"));
               Home.Do (Home.TypePassphrase (js "correct horse"));
               Home.Do Home.EncryptAndSave; Home.Settle 0; Home.Load;
               Home.Do (Home.TypePassphrase (js "correct horse"));
               Home.Do Home.Unlock; Home.Do Home.ClearEncryptedKey;
               Home.Settle 0] (arrival e) = Some p
    /\ Home.tasks p = []
    /\ Home.isApiUnlocked (Home.state (Home.page p)) = true
    /\ Home.apiKey (Home.state (Home.page p)) = js "AIza-example-key-123"
    /\ Home.encryptedApiKey (Home.state (Home.page p)) = None
    /\ Home.storage (Home.page p) !! Home.API_KEY_ENC = None.
Proof.
  destruct (decrypt_encrypt (js "AIza-example-key-123") (js "correct horse") e)
    as (enc & He & Hdec).
  { repeat constructor; unfold unit_range; cbn; lia. }
  { apply sample_key_spreadable. }
  assert (Hne : enc <> []).
  { rewrite encryptText_returns in He by apply sample_key_spreadable.
    cbn [fst] in He. injection He as <-. discriminate. }
  replace (Utf8.normalise (js "AIza-example-key-123"))
    with (js "AIza-example-key-123") in Hdec by reflexivity.
  erewrite play_step by reflexivity.
  erewrite play_step by reflexivity.
  erewrite play_step by (apply step_encryptAndSave; reflexivity).
  cbn [Home.page Home.tasks Home.state Home.update Home.setApiKey
       Home.setPassphrase Home.apiKey Home.passphrase Home.random arrival
       first_visit app].
  rewrite He.
  erewrite play_step by (apply (step_settle 0 (Home.SavingKey (Returns enc)));
                         reflexivity).
  cbn [Home.page Home.tasks].
  match goal with |- context [Home.play _ {| Home.page := ?w4; Home.tasks := _ |}] =>
    destruct (reload_locks w4 enc) as (w5 & Hw5 & (Hek & Hak & Hun) & Hpp & Hst & Hal)
  end.
  { left. world. rewrite lookup_insert_ne by discriminate. apply lookup_empty. }
  { intros raw Hraw.
    cbn [Home.storage Home.say Home.update Home.setItem Home.setRandom
         first_visit] in Hraw.
    rewrite lookup_insert_ne in Hraw by discriminate.
    rewrite lookup_empty in Hraw. discriminate. }
  { world. apply lookup_insert_eq. }
  { exact Hne. }
  erewrite play_step by (apply step_load; exact Hw5).
  erewrite play_step by reflexivity.
  erewrite play_step.
  2:{ apply (step_unlock _ enc); cbn [Home.page]; world;
        [exact Hek | exact Hne | exact Hun | reflexivity]. }
  erewrite play_step.
  2:{ apply (step_clearEncryptedKey _ enc); cbn [Home.page]; world;
        [exact Hek | exact Hne]. }
  cbn [Home.page Home.tasks app]. world. rewrite Hdec.
  erewrite play_step
    by (apply (step_settle 0 (Home.Unlocking (Returns (js "AIza-example-key-123"))));
        reflexivity).
  eexists. split; [reflexivity|]. cbn [Home.page Home.tasks]. world.
  split; [reflexivity|]. split; [reflexivity|]. split; [reflexivity|].
  split; [reflexivity|]. apply lookup_delete_eq.
Qed.

End StepFacts.

(** On a storage that takes every write, the flag of the page and the
    stored preference never part, in any session from a first visit (events
    on the page, handlers that end while other events have come in between,
    and page loads, in any order): [persistEnabled] is what the next load
    would read, and a last saved resume is shown only while a resume is
    stored. The flag does not gate what a reader at work will store: a file
    chosen while persistence is on and read after it was turned off is
    stored and shown with the flag off. *)
Theorem session_keeps_preference (C : SubtleCrypto) (E : Engine) (e : entropy) :
  (forall (ms : list Home.move) (p : Home.Waiting),
     Home.play ms (arrival e) = Some p ->
     Home.persistEnabled (Home.state (Home.page p))
     = stored_preference (Home.storage (Home.page p))
     /\ (Home.lastSavedResume (Home.state (Home.page p)) <> Json.JNull ->
         Home.storage (Home.page p) !! Home.LAST_RESUME <> None))
  /\ exists p,
       Home.play
         [Home.Do (Home.Upload (Some (js "cv.tex", js "\documentclass{article}"))
                     1700000000000);
          Home.Do (Home.TogglePersist false);
          Home.Settle 0] (arrival e) = Some p
       /\ Home.persistEnabled (Home.state (Home.page p)) = false
       /\ Home.storage (Home.page p) !! Home.PERSISTENCE = Some (js "0")
       /\ Home.storage (Home.page p) !! Home.LAST_RESUME
          = Some (resume_text (js "cv.tex") (js "\documentclass{article}")
                    1700000000000)
       /\ Home.lastSavedResume (Home.state (Home.page p))
          = resume_item (js "cv.tex") (js "\documentclass{article}")
              1700000000000.
Proof.
  split.
  - intros ms p H.
    apply (play_resume_kept ms (arrival e) p); [|exact H].
    unfold resume_kept. cbn [arrival Home.page]. world.
    split; [reflexivity|]. congruence.
  - erewrite play_step by reflexivity.
    erewrite play_step by reflexivity.
    erewrite play_step.
    2:{ apply (step_settle 0
                 (Home.Reading (js "cv.tex") (js "\documentclass{article}")
                    true 1700000000000)); [reflexivity|].
        cbn [Home.settle]. unfold Home.onload.
        pose proof (stringify_resume_item (js "cv.tex")
                      (js "\documentclass{article}") 1700000000000) as Hs.
        unfold resume_item in Hs. rewrite Hs by (vm_compute; discriminate).
        reflexivity. }
    eexists. split; [reflexivity|]. cbn [Home.page]. world.
    split; [reflexivity|]. split.
    + rewrite lookup_insert_ne by discriminate.
      rewrite !lookup_delete_ne by discriminate. apply lookup_insert_eq.
    + split; [apply lookup_insert_eq|reflexivity].
Qed.

(** The invariant at the end of that session, and of one that loads the
    page again, under the toy provider. *)
Lemma session_keeps_preference_witness :
  exists p,
    Home.play (C := Toy.provider) (E := Toy.engine)
      [Home.Do (Home.Upload (Some (js "cv.tex", js "\documentclass{article}"))
                  1700000000000);
       Home.Do (Home.TogglePersist false);
       Home.Settle 0;
       Home.Load] (arrival Toy.counter) = Some p
    /\ Home.persistEnabled (Home.state (Home.page p))
       = stored_preference (Home.storage (Home.page p))
    /\ (Home.lastSavedResume (Home.state (Home.page p)) <> Json.JNull ->
        Home.storage (Home.page p) !! Home.LAST_RESUME <> None).
Proof.
  eexists. split; [vm_compute; reflexivity|].
  apply (proj1 (session_keeps_preference Toy.provider Toy.engine Toy.counter)
           [Home.Do (Home.Upload (Some (js "cv.tex", js "\documentclass{article}"))
                       1700000000000);
            Home.Do (Home.TogglePersist false);
            Home.Settle 0;
            Home.Load]).
  vm_compute. reflexivity.
Defined.

(** On a storage that takes every write, in any session from a first visit
    (events, handlers that end while other events have come in between, and
    page loads) the storage holds nothing but what the page wrote: the
    preference is ["0"] or ["1"], the resume is the JSON text of an
    uploaded item, and what is under [resume_wizard_api_key_enc] is a
    payload that [encryptText] returned for a passphrase that is not empty:
    the page writes the key field nowhere else. What the page shows of the
    key does not follow the storage: Clear Encrypted Key pressed while
    Unlock awaits [decryptText] ends with the key in the page, shown as
    unlocked, and no payload held or stored. *)
Theorem session_stores_only_payloads (C : SubtleCrypto) (E : Engine)
    (e : entropy) :
  (forall (ms : list Home.move) (p : Home.Waiting),
     Home.play ms (arrival e) = Some p ->
     forall k v,
       Home.storage (Home.page p) !! k = Some v ->
       (k = Home.PERSISTENCE /\ (v = js "0" \/ v = js "1"))
       \/ (k = Home.LAST_RESUME
           /\ exists name text now,
                Json.stringify (resume_item name text now) = Some v)
       \/ (k = Home.API_KEY_ENC
           /\ exists key pw e',
                pw <> [] /\ fst (Vault.encryptText key pw e') = Returns v))
  /\ (SubtleCryptoLaws C ->
      exists p,
        Home.play [Home.Do (Home.TypeApiKey (js "AIza-example-key-123"));
                   Home.Do (Home.TypePassphrase (js "correct horse"));
                   Home.Do Home.EncryptAndSave; Home.Settle 0; Home.Load;
                   Home.Do (Home.TypePassphrase (js "correct horse"));
                   Home.Do Home.Unlock; Home.Do Home.ClearEncryptedKey;
                   Home.Settle 0] (arrival e) = Some p
        /\ Home.tasks p = []
        /\ Home.isApiUnlocked (Home.state (Home.page p)) = true
        /\ Home.apiKey (Home.state (Home.page p)) = js "AIza-example-key-123"
        /\ Home.encryptedApiKey (Home.state (Home.page p)) = None
        /\ Home.storage (Home.page p) !! Home.API_KEY_ENC = None).
Proof.
  split.
  - intros ms p H.
    destruct (play_key_kept ms (arrival e) p) as (K & _); [|exact H|].
    + unfold key_kept. cbn [arrival Home.page Home.tasks]. world.
      split; [|constructor].
      intros k v Hkv. rewrite lookup_empty in Hkv. discriminate.
    + intros k v Hkv. exact (K k v Hkv).
  - intros L. exact (unlock_after_clear e).
Qed.

(** Both parts under the toy provider: the session that ends unlocked with
    no payload, and the storage at its end. *)
Lemma session_stores_only_payloads_witness :
  exists p,
    Home.play (C := Toy.provider) (E := Toy.engine)
      [Home.Do (Home.TypeApiKey (js "AIza-example-key-123"));
       Home.Do (Home.TypePassphrase (js "correct horse"));
       Home.Do Home.EncryptAndSave; Home.Settle 0; Home.Load;
       Home.Do (Home.TypePassphrase (js "correct horse"));
       Home.Do Home.Unlock; Home.Do Home.ClearEncryptedKey;
       Home.Settle 0] (arrival Toy.counter) = Some p
    /\ Home.isApiUnlocked (Home.state (Home.page p)) = true
    /\ Home.encryptedApiKey (Home.state (Home.page p)) = None
    /\ forall k v,
         Home.storage (Home.page p) !! k = Some v ->
         (k = Home.PERSISTENCE /\ (v = js "0" \/ v = js "1"))
         \/ (k = Home.LAST_RESUME
             /\ exists name text now,
                  Json.stringify (resume_item name text now) = Some v)
         \/ (k = Home.API_KEY_ENC
             /\ exists key pw e',
                  pw <> []
                  /\ fst (Vault.encryptText (C := Toy.provider) (E := Toy.engine)
                            key pw e')
                     = Returns v).
Proof.
  destruct (proj2 (session_stores_only_payloads Toy.provider Toy.engine
                     Toy.counter) toy_laws)
    as (p & Hp & _ & Hu & _ & Hn & _).
  exists p. split; [exact Hp|]. split; [exact Hu|]. split; [exact Hn|].
  exact (proj1 (session_stores_only_payloads Toy.provider Toy.engine Toy.counter)
           _ p Hp).
Defined.

(** ** Strings: [trim], [split], [includes] and the removal of a pattern *)

Lemma trim_start_head (s : jsstring) :
  match Str.trim_start s with
  | [] => True
  | c :: _ => Str.is_white_space c = false
  end.
Proof.
  induction s as [|c s IH]; cbn [Str.trim_start]; [exact I|].
  destruct (Str.is_white_space c) eqn:E; [exact IH|exact E].
Qed.

Lemma trim_start_fixed (s : jsstring) :
  match s with
  | [] => True
  | c :: _ => Str.is_white_space c = false
  end ->
  Str.trim_start s = s.
Proof. destruct s as [|c s]; cbn [Str.trim_start]; [reflexivity|intros ->; reflexivity]. Qed.

Lemma trim_start_suffix (s : jsstring) : exists a, s = a ++ Str.trim_start s.
Proof.
  induction s as [|c s (a & IH)]; [exists []; reflexivity|].
  cbn [Str.trim_start]. destruct (Str.is_white_space c).
  - exists (c :: a). cbn [app]. f_equal. exact IH.
  - exists []. reflexivity.
Qed.

(** What [trim] returns is a part of the string. *)
Lemma trim_part (s : jsstring) : exists a b, s = a ++ Str.trim s ++ b.
Proof.
  unfold Str.trim, Str.trim_end.
  destruct (trim_start_suffix s) as (a & Ha).
  destruct (trim_start_suffix (rev (Str.trim_start s))) as (b & Hb).
  exists a, (rev b). rewrite <- rev_app_distr, <- Hb, rev_involutive. exact Ha.
Qed.

(** [trim] leaves nothing for a second [trim]. *)
Lemma trim_trim (s : jsstring) : Str.trim (Str.trim s) = Str.trim s.
Proof.
  unfold Str.trim, Str.trim_end.
  set (t := Str.trim_start s). set (v := Str.trim_start (rev t)).
  assert (Hv : Str.trim_start v = v) by apply trim_start_fixed, trim_start_head.
  assert (Hu : Str.trim_start (rev v) = rev v).
  { apply trim_start_fixed.
    destruct (trim_start_suffix (rev t)) as (b & Hb). fold v in Hb.
    assert (Ht : t = rev v ++ rev b).
    { rewrite <- rev_app_distr, <- Hb, rev_involutive. reflexivity. }
    pose proof (trim_start_head s) as Hh. fold t in Hh. rewrite Ht in Hh.
    destruct (rev v) as [|c u]; [exact I|exact Hh]. }
  rewrite Hu, rev_involutive, Hv. reflexivity.
Qed.

Lemma starts_with_app (p rest : jsstring) : Str.starts_with p (p ++ rest) = true.
Proof.
  induction p as [|x p IH]; [reflexivity|].
  cbn [app Str.starts_with]. rewrite Z.eqb_refl, IH. reflexivity.
Qed.

Lemma includes_part (p a b : jsstring) : Str.includes p (a ++ p ++ b) = true.
Proof.
  induction a as [|c a IH]; cbn [app].
  - destruct (p ++ b) eqn:E; cbn [Str.includes]; rewrite <- ?E, starts_with_app;
      reflexivity.
  - cbn [Str.includes]. rewrite IH. apply orb_true_r.
Qed.

(** The first field is the start of the string and every field is a part
    of it; no field holds the separator. *)
Lemma split_fields (sep : Z) (s : jsstring) :
  match Str.split sep s with
  | [] => False
  | field :: fields =>
      (exists b, s = field ++ b) /\ ~ In sep field
      /\ Forall (fun f => (exists a b, s = a ++ f ++ b) /\ ~ In sep f) fields
  end.
Proof.
  induction s as [|c s IH]; cbn [Str.split].
  - split; [exists []; reflexivity|]. split; [intros []|constructor].
  - destruct (Str.split sep s) as [|field fields]; [contradiction|].
    destruct IH as ((b & Hb) & Hsep & Hfs).
    assert (Hlater : Forall (fun f => (exists a b0, c :: s = a ++ f ++ b0)
                                      /\ ~ In sep f) fields).
    { eapply List.Forall_impl; [|exact Hfs].
      intros f ((a & b0 & E) & Hf). split; [|exact Hf].
      exists (c :: a), b0. cbn [app]. f_equal. exact E. }
    destruct (Z.eqb_spec c sep) as [->|Hc].
    + split; [exists (sep :: s); reflexivity|]. split; [intros []|].
      constructor; [|exact Hlater]. split; [|exact Hsep].
      exists [sep], b. cbn [app]. f_equal. exact Hb.
    + split; [exists b; cbn [app]; f_equal; exact Hb|].
      split; [|exact Hlater]. intros [E|E]; [congruence|contradiction].
Qed.

Lemma split_all (sep : Z) (s : jsstring) :
  Forall (fun f => (exists a b, s = a ++ f ++ b) /\ ~ In sep f) (Str.split sep s).
Proof.
  pose proof (split_fields sep s) as H.
  destruct (Str.split sep s) as [|field fields]; [contradiction|].
  destruct H as ((b & Hb) & Hsep & Hfs). constructor; [|exact Hfs].
  split; [exists [], b; exact Hb|exact Hsep].
Qed.

Lemma Forall_filter_list {A : Type} (P Q : A -> Prop) (f : A -> bool) (l : list A) :
  Forall Q l -> (forall x, Q x -> f x = true -> P x) ->
  Forall P (List.filter f l).
Proof.
  intros Hl H. induction Hl as [|x l Hx _ IH]; cbn [List.filter]; [constructor|].
  destruct (f x) eqn:E; [constructor; auto|exact IH].
Qed.

(** ** The skills and the text taken from the replies *)

(** The skills shown are at most ten; each one is a part of the reply, is
    not empty, holds no comma and has no white space at either end. *)
Theorem skills_are_trimmed_fields (skillsText : jsstring) :
  (length (Tailor.skills skillsText) <= 10)%nat
  /\ Forall (fun skill =>
               skill <> [] /\ Str.trim skill = skill /\ ~ In 44 skill
               /\ Str.includes skill skillsText = true)
       (Tailor.skills skillsText).
Proof.
  unfold Tailor.skills. split; [rewrite length_take; lia|].
  apply Forall_take.
  apply (Forall_filter_list _
           (fun t => exists f, t = Str.trim f
                               /\ (exists a b, skillsText = a ++ f ++ b)
                               /\ ~ In 44 f)).
  - apply List.Forall_map. eapply List.Forall_impl; [|apply split_all].
    intros f (Hpart & Hsep). exists f. auto.
  - intros t (f & -> & (a & b & Hs) & Hsep) Hne.
    destruct (trim_part f) as (a' & b' & Hf).
    split; [destruct (Str.trim f); [discriminate|discriminate]|].
    split; [apply trim_trim|].
    set (t := Str.trim f) in *. clearbody t. subst f. split.
    + intros Hin. apply Hsep. apply in_or_app. right.
      apply in_or_app. left. exact Hin.
    + rewrite Hs.
      replace (a ++ (a' ++ t ++ b') ++ b) with ((a ++ a') ++ t ++ (b' ++ b))
        by (rewrite <- !app_assoc; reflexivity).
      apply includes_part.
Qed.

(** A match of the pattern is dropped whole. *)
Lemma remove_from_skip (lit : jsstring) (opt : Z) (k : nat) (s : jsstring) :
  Str.remove_from lit opt k s = Str.remove_from lit opt 0 (drop k s).
Proof.
  revert k. induction s as [|c s IH]; intros k.
  - destruct k; reflexivity.
  - destruct k as [|k]; [reflexivity|]. cbn [Str.remove_from drop]. apply IH.
Qed.

Ltac ticks :=
  cbn [Str.starts_with];
  repeat match goal with
         | |- context [(96 =? ?x)] => destruct (96 =? x)
         | H : context [(96 =? ?x)] |- _ => destruct (96 =? x)
         end;
  cbn [andb] in *; intros; try discriminate; try reflexivity.

(** A string that starts with two backticks after the removal started with
    two before it. *)
Lemma remove_fence_two (s : jsstring) :
  Str.starts_with [96; 96] (Str.remove_from Tailor.fence 10 0 s) = true ->
  Str.starts_with [96; 96] s = true.
Proof.
  change Tailor.fence with [96; 96; 96].
  destruct s as [|c s]; [intros H; exact H|].
  cbn [Str.remove_from].
  destruct (Str.starts_with [96; 96; 96] (c :: s)) eqn:Hc.
  - intros _. revert Hc. destruct s as [|d [|e s]]; ticks.
  - destruct s as [|d s]; [ticks|].
    cbn [Str.remove_from].
    destruct (Str.starts_with [96; 96; 96] (d :: s)) eqn:Hd.
    + revert Hd Hc. destruct s as [|e [|e' s]]; ticks.
    + ticks.
Qed.

(** After the removal no fence is left. *)
Lemma remove_fence_none (k : nat) (s : jsstring) :
  Str.includes Tailor.fence (Str.remove_from Tailor.fence 10 k s) = false.
Proof.
  revert k. induction s as [|c s IH]; intros k; [destruct k; reflexivity|].
  destruct k as [|k]; [|cbn [Str.remove_from]; apply IH].
  cbn [Str.remove_from].
  destruct (Str.starts_with Tailor.fence (c :: s)) eqn:Hc; [apply IH|].
  cbn [Str.includes]. rewrite (IH 0%nat), orb_false_r.
  destruct (Str.starts_with [96; 96] (Str.remove_from Tailor.fence 10 0 s)) eqn:Hr.
  - apply remove_fence_two in Hr. revert Hc Hr.
    change Tailor.fence with [96; 96; 96].
    destruct s as [|d [|e s]]; ticks.
  - revert Hr. change Tailor.fence with [96; 96; 96].
    destruct (Str.remove_from [96; 96; 96] 10 0 s) as [|x [|y r]]; ticks.
Qed.

(** When the trimmed reply starts with a Markdown fence, the text handed to
    the editor holds no fence at all; otherwise it is the trimmed reply. *)
Theorem cleaned_has_no_fence (tailoredTex : jsstring) :
  (Str.starts_with Tailor.fence (Str.trim tailoredTex) = true ->
   Str.includes Tailor.fence (Tailor.cleaned tailoredTex) = false)
  /\ (Str.starts_with Tailor.fence (Str.trim tailoredTex) = false ->
      Tailor.cleaned tailoredTex = Str.trim tailoredTex).
Proof.
  unfold Tailor.cleaned. cbv zeta. split; intros H; rewrite H.
  - apply remove_fence_none.
  - reflexivity.
Qed.

Lemma starts_with_fence_app (a rest : jsstring) :
  Str.starts_with [96; 96; 96] (a ++ 10 :: rest) = Str.starts_with [96; 96; 96] a.
Proof.
  destruct a as [|c1 [|c2 [|c3 a]]]; cbn [app Str.starts_with];
    rewrite ?andb_true_r, ?andb_false_r; reflexivity.
Qed.

Lemma starts_with_prefix (p q s : jsstring) :
  Str.starts_with (p ++ q) s = true -> Str.starts_with p s = true.
Proof.
  revert s. induction p as [|x p IH]; intros s; [reflexivity|].
  destruct s as [|y s]; cbn [app Str.starts_with]; [discriminate|].
  intros H. apply andb_prop in H as [-> H]. apply IH. exact H.
Qed.

(** A pattern that starts with a fence finds nothing in a text without
    fences, up to the line feed before the closing fence. *)
Lemma remove_before_closing (lit a : jsstring) :
  (forall s, Str.starts_with lit s = true -> Str.starts_with [96; 96; 96] s = true) ->
  Str.includes [96; 96; 96] a = false ->
  Str.remove_from lit 10 0 (a ++ 10 :: [96; 96; 96])
  = a ++ Str.remove_from lit 10 0 (10 :: [96; 96; 96]).
Proof.
  intros Hlit. induction a as [|c a IH]; intros Ha; [reflexivity|].
  cbn [Str.includes] in Ha. apply orb_false_elim in Ha as [Hc Ha].
  cbn [app]. cbn [Str.remove_from].
  destruct (Str.starts_with lit (c :: a ++ 10 :: [96; 96; 96])) eqn:E.
  - apply Hlit in E. change (c :: a ++ 10 :: [96; 96; 96])
      with ((c :: a) ++ 10 :: [96; 96; 96]) in E.
    rewrite starts_with_fence_app in E. congruence.
  - rewrite IH by exact Ha. reflexivity.
Qed.

Lemma no_tick_no_fence (tag body : jsstring) :
  ~ In 96 tag -> Str.includes [96; 96; 96] body = false ->
  Str.includes [96; 96; 96] (tag ++ 10 :: body) = false.
Proof.
  intros Htag Hbody. induction tag as [|t tag IH]; cbn [app].
  - cbn [Str.includes Str.starts_with]. rewrite Hbody. reflexivity.
  - cbn [Str.includes]. rewrite IH by (intros H; apply Htag; right; exact H).
    rewrite orb_false_r. cbn [Str.starts_with].
    destruct (Z.eqb_spec 96 t) as [<-|?]; [|reflexivity].
    exfalso. apply Htag. left. reflexivity.
Qed.

Lemma trim_fenced (tag body : jsstring) :
  Str.trim (fenced tag body) = fenced tag body.
Proof.
  unfold Str.trim, Str.trim_end, fenced. change Tailor.fence with [96; 96; 96].
  cbn [app]. cbn [Str.trim_start Str.is_white_space]. change (Str.is_white_space 96) with false.
  cbv iota.
  replace (96 :: 96 :: 96 :: tag ++ 10 :: body ++ [10; 96; 96; 96])
    with ((96 :: 96 :: 96 :: tag ++ 10 :: body ++ [10; 96; 96]) ++ [96]).
  2:{ cbn [app]. do 3 f_equal. rewrite <- app_assoc. cbn [app]. f_equal.
      rewrite <- app_assoc. reflexivity. }
  rewrite rev_unit. cbn [Str.trim_start]. change (Str.is_white_space 96) with false.
  cbv iota. rewrite <- rev_unit, rev_involutive. reflexivity.
Qed.

(** The block fenced with [```latex]. *)
Lemma cleaned_fenced_latex (body : jsstring) :
  Str.includes Tailor.fence body = false ->
  Tailor.cleaned (fenced (js "latex") body) = body ++ [10].
Proof.
  change Tailor.fence with [96; 96; 96]. intros Hbody.
  assert (H8 : forall s, Str.starts_with (js "```latex") s = true ->
                         Str.starts_with [96; 96; 96] s = true).
  { intros s. change (js "```latex") with ([96; 96; 96] ++ js "latex").
    apply starts_with_prefix. }
  change (js "```latex") with [96; 96; 96; 108; 97; 116; 101; 120] in H8.
  assert (H3 : forall s, Str.starts_with [96; 96; 96] s = true ->
                         Str.starts_with [96; 96; 96] s = true) by auto.
  unfold Tailor.cleaned. cbv zeta. rewrite trim_fenced.
  unfold fenced, Str.remove_all. change Tailor.fence with [96; 96; 96].
  change (js "latex") with [108; 97; 116; 101; 120].
  change (js "```latex") with [96; 96; 96; 108; 97; 116; 101; 120].
  cbn [app Str.starts_with]. cbn [Z.eqb Pos.eqb andb].
  cbn [Str.remove_from Str.starts_with length drop]. cbn [Z.eqb Pos.eqb andb].
  cbn [Nat.sub Nat.add].
  change (body ++ [10; 96; 96; 96]) with (body ++ 10 :: [96; 96; 96]).
  rewrite (remove_before_closing _ body H8 Hbody).
  change (Str.remove_from [96; 96; 96; 108; 97; 116; 101; 120] 10 0
            (10 :: [96; 96; 96])) with (10 :: [96; 96; 96]).
  rewrite (remove_before_closing _ body H3 Hbody). reflexivity.
Qed.

(** The reply that is one fenced block, with a body that holds no fence:
    after [```latex] and after a bare fence the editor gets the body and a
    line feed; any other tag (one that starts with neither [l] nor a line
    feed and holds no backtick) stays in the text, as its first line. *)
Theorem cleaned_fenced_block (body : jsstring) :
  Str.includes Tailor.fence body = false ->
  Tailor.cleaned (fenced (js "latex") body) = body ++ [10]
  /\ Tailor.cleaned (fenced [] body) = body ++ [10]
  /\ forall (t : Z) (tag : jsstring),
       t <> 108 -> t <> 10 -> ~ In 96 (t :: tag) ->
       Tailor.cleaned (fenced (t :: tag) body) = t :: tag ++ 10 :: body ++ [10].
Proof.
  change Tailor.fence with [96; 96; 96]. intros Hbody.
  assert (H8 : forall s, Str.starts_with (js "```latex") s = true ->
                         Str.starts_with [96; 96; 96] s = true).
  { intros s. change (js "```latex") with ([96; 96; 96] ++ js "latex").
    apply starts_with_prefix. }
  change (js "```latex") with [96; 96; 96; 108; 97; 116; 101; 120] in H8.
  assert (H3 : forall s, Str.starts_with [96; 96; 96] s = true ->
                         Str.starts_with [96; 96; 96] s = true) by auto.
  unfold Tailor.cleaned. cbv zeta.
  split; [|split; [rewrite trim_fenced|]].
  - apply cleaned_fenced_latex. exact Hbody.
  - unfold fenced, Str.remove_all. change Tailor.fence with [96; 96; 96].
    change (js "```latex") with [96; 96; 96; 108; 97; 116; 101; 120].
    cbn [app Str.starts_with]. cbn [Z.eqb Pos.eqb andb].
    cbn [Str.remove_from Str.starts_with]. cbn [Z.eqb Pos.eqb andb].
    change (body ++ [10; 96; 96; 96]) with (body ++ 10 :: [96; 96; 96]).
    rewrite (remove_before_closing _ body H8 Hbody).
    change (Str.remove_from [96; 96; 96; 108; 97; 116; 101; 120] 10 0
              (10 :: [96; 96; 96])) with (10 :: [96; 96; 96]).
    cbn [Str.remove_from Str.starts_with length drop]. cbn [Z.eqb Pos.eqb andb].
    cbn [Nat.sub Nat.add].
    rewrite (remove_before_closing _ body H3 Hbody). reflexivity.
  - intros t tag Hl Hn Htick. rewrite trim_fenced.
    assert (Ht : t <> 96) by (intros ->; apply Htick; left; reflexivity).
    assert (Hin : Str.includes [96; 96; 96] ((t :: tag) ++ 10 :: body) = false)
      by (apply no_tick_no_fence; assumption).
    assert (E108 : (108 =? t) = false) by (apply Z.eqb_neq; congruence).
    assert (E96 : (96 =? t) = false) by (apply Z.eqb_neq; congruence).
    assert (E10 : (10 =? t) = false) by (apply Z.eqb_neq; congruence).
    unfold fenced, Str.remove_all. change Tailor.fence with [96; 96; 96].
    change (js "```latex") with [96; 96; 96; 108; 97; 116; 101; 120].
    cbn [app].
    replace (t :: tag ++ 10 :: body ++ [10; 96; 96; 96])
      with (t :: (tag ++ 10 :: body) ++ 10 :: [96; 96; 96])
      by (rewrite <- app_assoc; reflexivity).
    set (rest := (tag ++ 10 :: body) ++ 10 :: [96; 96; 96]).
    assert (Hfirst : Str.remove_from [96; 96; 96; 108; 97; 116; 101; 120] 10 0
                       (96 :: 96 :: 96 :: t :: rest)
                     = 96 :: 96 :: 96 ::
                       Str.remove_from [96; 96; 96; 108; 97; 116; 101; 120] 10 0
                         (t :: rest)).
    { cbn [Str.remove_from Str.starts_with]. rewrite !Z.eqb_refl, E108, E96.
      reflexivity. }
    rewrite Hfirst. subst rest.
    change (t :: (tag ++ 10 :: body) ++ 10 :: [96; 96; 96])
      with (((t :: tag) ++ 10 :: body) ++ 10 :: [96; 96; 96]).
    rewrite (remove_before_closing _ _ H8 Hin).
    change (Str.remove_from [96; 96; 96; 108; 97; 116; 101; 120] 10 0
              (10 :: [96; 96; 96])) with (10 :: [96; 96; 96]).
    cbn [app]. set (rest := (tag ++ 10 :: body) ++ 10 :: [96; 96; 96]).
    cbn [Str.starts_with]. rewrite !Z.eqb_refl. cbn [andb].
    assert (Hsecond : Str.remove_from [96; 96; 96] 10 0
                        (96 :: 96 :: 96 :: t :: rest)
                      = Str.remove_from [96; 96; 96] 10 0 (t :: rest)).
    { cbn [Str.remove_from Str.starts_with length drop]. rewrite !Z.eqb_refl, E10.
      reflexivity. }
    rewrite Hsecond. subst rest.
    change (t :: (tag ++ 10 :: body) ++ 10 :: [96; 96; 96])
      with (((t :: tag) ++ 10 :: body) ++ 10 :: [96; 96; 96]).
    rewrite (remove_before_closing _ _ H3 Hin).
    cbn [app]. rewrite <- app_assoc. reflexivity.
Qed.

Lemma cleaned_fenced_block_witness :
  Tailor.cleaned (fenced (js "latex") (js "\section{Skills}"))
  = js "\section{Skills}" ++ [10]
  /\ Tailor.cleaned (fenced [] (js "\section{Skills}")) = js "\section{Skills}" ++ [10]
  /\ forall (t : Z) (tag : jsstring),
       t <> 108 -> t <> 10 -> ~ In 96 (t :: tag) ->
       Tailor.cleaned (fenced (t :: tag) (js "\section{Skills}"))
       = t :: tag ++ 10 :: js "\section{Skills}" ++ [10].
Proof.
  apply (cleaned_fenced_block (js "\section{Skills}")). reflexivity.
Defined.

(** ** Tailoring *)

Ltac page :=
  cbn [Tailor.home Tailor.form Tailor.said Tailor.sent Tailor.say Tailor.send
       Tailor.update Tailor.failed Tailor.setJobDescription Tailor.setJobUrl
       Tailor.setIsProcessing Tailor.setProgress Tailor.setExtractedSkills
       Tailor.setTailoredContent Tailor.setShowEditor Tailor.jobDescription
       Tailor.jobUrl Tailor.isProcessing Tailor.progress Tailor.extractedSkills
       Tailor.tailoredContent Tailor.showEditor Tailor.tailoringStrength] in *.

(** What an enabled button says of the page. *)
Lemma enabled_page (p : Tailor.Page) :
  Tailor.disabled p = Some false ->
  Tailor.isProcessing (Tailor.form p) = false
  /\ Tailor.hasResume (Tailor.home p) = Some true
  /\ Tailor.noJob (Tailor.form p) = false.
Proof.
  unfold Tailor.disabled.
  destruct (Tailor.isProcessing (Tailor.form p)); [discriminate|].
  destruct (Tailor.hasResume (Tailor.home p)) as [[|]|]; try discriminate.
  intros H. injection H as H. auto.
Qed.

(** While no key is typed in or unlocked (as after a load that found an
    encrypted key), a click on the enabled button sends nothing and changes
    nothing: the page asks for the key. *)
Theorem tailor_without_key (svc : Tailor.Service) (p : Tailor.Page) :
  Tailor.showEditor (Tailor.form p) = false ->
  Tailor.disabled p = Some false ->
  Home.apiKey (Tailor.home p) = [] ->
  Tailor.click svc p
  = Some (Tailor.say (js "Please provide your Gemini API key in Settings") p).
Proof.
  intros Hed Hen Hkey. destruct (enabled_page p Hen) as (_ & Hres & Hjob).
  unfold Tailor.click. rewrite Hed, Hen. unfold Tailor.handleTailorResume.
  rewrite Hjob, Hres. cbn [mbind option_bind negb]. rewrite Hkey. reflexivity.
Qed.

Lemma tailor_without_key_witness :
  Tailor.click sample_service sample_page
  = Some (Tailor.say (js "Please provide your Gemini API key in Settings")
            sample_page).
Proof.
  apply (tailor_without_key sample_service sample_page); reflexivity.
Defined.

(** A click on the enabled button with a key: the handler always ends with
    [isProcessing] false and the rest of the page's state as it was. The
    editor opens exactly when the client could be made and both calls
    returned text; then nothing is alerted, [progress] is 100, the skills are
    those of the first reply and the editor's text is the second reply,
    cleaned. Otherwise there is one alert, [progress] is 0 and
    [tailoredContent] is as before; the skills are already replaced when it
    was the second call that failed. *)
Theorem tailor_click_outcome (svc : Tailor.Service) (p : Tailor.Page)
    (content : jsstring) :
  Tailor.showEditor (Tailor.form p) = false ->
  Tailor.disabled p = Some false ->
  Home.apiKey (Tailor.home p) <> [] ->
  Json.to_string (Home.originalContent (Tailor.home p)) = Some content ->
  exists p',
    Tailor.click svc p = Some p'
    /\ Tailor.home p' = Tailor.home p
    /\ Tailor.isProcessing (Tailor.form p') = false
    /\ (Tailor.showEditor (Tailor.form p') = true <->
        Tailor.setup svc = None
        /\ exists skillsText tailoredTex,
             Tailor.replies svc 0 = Tailor.Text skillsText
             /\ Tailor.replies svc 1 = Tailor.Text tailoredTex)
    /\ (forall skillsText tailoredTex,
          Tailor.setup svc = None ->
          Tailor.replies svc 0 = Tailor.Text skillsText ->
          Tailor.replies svc 1 = Tailor.Text tailoredTex ->
          Tailor.said p' = Tailor.said p
          /\ Tailor.progress (Tailor.form p') = 100
          /\ Tailor.extractedSkills (Tailor.form p') = Tailor.skills skillsText
          /\ Tailor.tailoredContent (Tailor.form p') = Tailor.cleaned tailoredTex
          /\ Tailor.sent p'
             = Tailor.tailorPrompt (Tailor.jobDescription (Tailor.form p)) content
                 (Tailor.tailoringStrength (Tailor.form p))
               :: Tailor.skillsPrompt (Tailor.jobDescription (Tailor.form p))
               :: Tailor.sent p)
    /\ (Tailor.showEditor (Tailor.form p') = false ->
        (exists a, Tailor.said p' = a :: Tailor.said p)
        /\ Tailor.progress (Tailor.form p') = 0
        /\ Tailor.tailoredContent (Tailor.form p')
           = Tailor.tailoredContent (Tailor.form p)
        /\ forall skillsText,
             Tailor.setup svc = None ->
             Tailor.replies svc 0 = Tailor.Text skillsText ->
             Tailor.extractedSkills (Tailor.form p') = Tailor.skills skillsText).
Proof.
  intros Hed Hen Hkey Hcontent.
  destruct (enabled_page p Hen) as (_ & Hres & Hjob).
  unfold Tailor.click. rewrite Hed, Hen. unfold Tailor.handleTailorResume.
  rewrite Hjob, Hres. cbn [mbind option_bind negb].
  destruct (Home.apiKey (Tailor.home p)) as [|c key] eqn:Ek; [congruence|].
  cbn [Home.is_empty]. rewrite Hcontent. cbn [mbind option_bind].
  destruct (Tailor.setup svc) as [t|] eqn:Es.
  { eexists. split; [reflexivity|]. page. rewrite Hed.
    split; [reflexivity|]. split; [reflexivity|]. split.
    - split; [discriminate|]. intros [E _]. discriminate.
    - split; [intros ? ? E; discriminate|]. intros _.
      split; [eexists; reflexivity|]. split; [reflexivity|].
      split; [reflexivity|]. intros ? E. discriminate. }
  destruct (Tailor.replies svc 0) as [skillsText|t] eqn:E0.
  2:{ eexists. split; [reflexivity|]. page. rewrite Hed.
      split; [reflexivity|]. split; [reflexivity|]. split.
      - split; [discriminate|]. intros [_ (? & ? & E & _)]. discriminate.
      - split; [intros ? ? _ E; discriminate|]. intros _.
        split; [eexists; reflexivity|]. split; [reflexivity|].
        split; [reflexivity|]. intros ? _ E. discriminate. }
  destruct (Tailor.replies svc 1) as [tailoredTex|t] eqn:E1.
  - eexists. split; [reflexivity|]. page.
    split; [reflexivity|]. split; [reflexivity|]. split.
    + split; [|reflexivity]. intros _. split; [reflexivity|]. eauto.
    + split; [|discriminate]. intros s1 s2 _ H0 H1.
      injection H0 as <-. injection H1 as <-. auto 10.
  - eexists. split; [reflexivity|]. page. rewrite Hed.
    split; [reflexivity|]. split; [reflexivity|]. split.
    + split; [discriminate|]. intros [_ (? & ? & _ & E)]. discriminate.
    + split; [intros ? ? _ _ E; discriminate|]. intros _.
      split; [eexists; reflexivity|]. split; [reflexivity|].
      split; [reflexivity|]. intros s1 _ H0. injection H0 as <-. reflexivity.
Qed.

Lemma tailor_click_outcome_witness :
  exists p',
    Tailor.click sample_service sample_page_with_key = Some p'
    /\ Tailor.home p' = Tailor.home sample_page_with_key
    /\ Tailor.isProcessing (Tailor.form p') = false
    /\ (Tailor.showEditor (Tailor.form p') = true <->
        Tailor.setup sample_service = None
        /\ exists skillsText tailoredTex,
             Tailor.replies sample_service 0 = Tailor.Text skillsText
             /\ Tailor.replies sample_service 1 = Tailor.Text tailoredTex)
    /\ (forall skillsText tailoredTex,
          Tailor.setup sample_service = None ->
          Tailor.replies sample_service 0 = Tailor.Text skillsText ->
          Tailor.replies sample_service 1 = Tailor.Text tailoredTex ->
          Tailor.said p' = Tailor.said sample_page_with_key
          /\ Tailor.progress (Tailor.form p') = 100
          /\ Tailor.extractedSkills (Tailor.form p') = Tailor.skills skillsText
          /\ Tailor.tailoredContent (Tailor.form p') = Tailor.cleaned tailoredTex
          /\ Tailor.sent p'
             = Tailor.tailorPrompt
                 (Tailor.jobDescription (Tailor.form sample_page_with_key))
                 (js "\documentclass{article}")
                 (Tailor.tailoringStrength (Tailor.form sample_page_with_key))
               :: Tailor.skillsPrompt
                    (Tailor.jobDescription (Tailor.form sample_page_with_key))
               :: Tailor.sent sample_page_with_key)
    /\ (Tailor.showEditor (Tailor.form p') = false ->
        (exists a, Tailor.said p' = a :: Tailor.said sample_page_with_key)
        /\ Tailor.progress (Tailor.form p') = 0
        /\ Tailor.tailoredContent (Tailor.form p')
           = Tailor.tailoredContent (Tailor.form sample_page_with_key)
        /\ forall skillsText,
             Tailor.setup sample_service = None ->
             Tailor.replies sample_service 0 = Tailor.Text skillsText ->
             Tailor.extractedSkills (Tailor.form p') = Tailor.skills skillsText).
Proof.
  apply (tailor_click_outcome sample_service sample_page_with_key
           (js "\documentclass{article}"));
    [reflexivity | reflexivity | discriminate | reflexivity].
Defined.

(** The job URL is only looked at to see that it is not empty: with a job
    description typed in, or with another URL that is not empty either, the
    handler does the same, alert for alert and prompt for prompt; no prompt
    depends on the URL. *)
Theorem tailor_ignores_job_url (svc : Tailor.Service) (p : Tailor.Page)
    (url : jsstring) :
  Tailor.jobDescription (Tailor.form p) <> []
  \/ (Tailor.jobUrl (Tailor.form p) <> [] /\ url <> []) ->
  Tailor.handleTailorResume svc (Tailor.update (Tailor.setJobUrl url) p)
  = Tailor.update (Tailor.setJobUrl url) <$> Tailor.handleTailorResume svc p.
Proof.
  intros H. unfold Tailor.handleTailorResume. page.
  assert (Hjob : Tailor.noJob (Tailor.setJobUrl url (Tailor.form p)) = false
                 /\ Tailor.noJob (Tailor.form p) = false).
  { unfold Tailor.noJob. page. destruct H as [H|[H1 H2]].
    - destruct (Tailor.jobDescription (Tailor.form p)); [congruence|]. auto.
    - destruct (Tailor.jobUrl (Tailor.form p)); [congruence|].
      destruct url; [congruence|]. rewrite !andb_false_r. auto. }
  destruct Hjob as [-> ->].
  destruct (Tailor.hasResume (Tailor.home p)) as [[|]|]; cbn [mbind option_bind negb];
    [|reflexivity|reflexivity].
  destruct (Home.is_empty (Home.apiKey (Tailor.home p))); [reflexivity|].
  destruct (Tailor.setup svc); [reflexivity|].
  destruct (Tailor.replies svc 0); [|reflexivity].
  destruct (Json.to_string (Home.originalContent (Tailor.home p)));
    cbn [mbind option_bind]; [|reflexivity].
  destruct (Tailor.replies svc 1); reflexivity.
Qed.

Lemma tailor_ignores_job_url_witness :
  Tailor.handleTailorResume sample_service
    (Tailor.update (Tailor.setJobUrl (js "https://example.com/job-posting"))
       sample_page_with_key)
  = Tailor.update (Tailor.setJobUrl (js "https://example.com/job-posting"))
    <$> Tailor.handleTailorResume sample_service sample_page_with_key.
Proof.
  apply (tailor_ignores_job_url sample_service sample_page_with_key).
  left. discriminate.
Defined.

(** ** The preview *)

Lemma starts_with_ci_app (p rest : jsstring) :
  Str.starts_with_ci p (p ++ rest) = true.
Proof.
  induction p as [|x p IH]; [reflexivity|].
  cbn [app Str.starts_with_ci]. rewrite Z.eqb_refl, IH. reflexivity.
Qed.

Lemma test_ci_part (p a b : jsstring) : Str.test_ci p (a ++ p ++ b) = true.
Proof.
  induction a as [|c a IH]; cbn [app].
  - destruct (p ++ b) eqn:E; cbn [Str.test_ci]; rewrite <- ?E, starts_with_ci_app;
      reflexivity.
  - cbn [Str.test_ci]. rewrite IH. apply orb_true_r.
Qed.

(** What the parser of latex.js is given always has a [\begin{document}]:
    a source that has one, in any case of letters, goes as it is, any other
    goes between the three lines and the last line of a minimal document.
    Wrapping what was wrapped changes nothing. *)
Theorem toRender_has_document (source : jsstring) :
  Editor.hasBegin (Editor.toRender source) = true
  /\ (Editor.hasBegin source = true -> Editor.toRender source = source)
  /\ (Editor.hasBegin source = false ->
      Editor.toRender source
      = js "\documentclass{article}" ++ 10 :: js "\usepackage[utf8]{inputenc}"
        ++ 10 :: js "\begin{document}" ++ 10 :: source
        ++ 10 :: js "\end{document}")
  /\ Editor.toRender (Editor.toRender source) = Editor.toRender source.
Proof.
  assert (H : Editor.hasBegin (Editor.toRender source) = true).
  { unfold Editor.toRender. destruct (Editor.hasBegin source) eqn:E; [exact E|].
    unfold Editor.hasBegin. cbn [Str.lines].
    replace (js "\documentclass{article}" ++ 10 :: js "\usepackage[utf8]{inputenc}"
             ++ 10 :: js "\begin{document}" ++ 10 :: source
             ++ 10 :: js "\end{document}")
      with ((js "\documentclass{article}" ++ 10 :: js "\usepackage[utf8]{inputenc}"
             ++ [10]) ++ js "\begin{document}"
             ++ (10 :: source ++ 10 :: js "\end{document}")).
    - apply test_ci_part.
    - rewrite <- !app_assoc. cbn [app]. rewrite <- !app_assoc. reflexivity. }
  split; [exact H|]. split; [|split].
  - unfold Editor.toRender. intros ->. reflexivity.
  - unfold Editor.toRender. intros ->. reflexivity.
  - unfold Editor.toRender at 1. rewrite H. reflexivity.
Qed.

(** ** Passphrases that are one key *)

Lemma to_scalars_nul (s : jsstring) :
  Utf8.to_scalars (s ++ [0]) = Utf8.to_scalars s ++ [0].
Proof.
  induction s as [|x|x y l IHl IHy] using list_ind_pairs.
  - reflexivity.
  - cbn [app Utf8.to_scalars]. change (Utf8.is_low 0) with false.
    change (Utf8.is_high 0) with false. cbv iota.
    destruct (Utf8.is_high x); [reflexivity|].
    destruct (Utf8.is_low x); reflexivity.
  - change ((x :: y :: l) ++ [0]) with (x :: y :: (l ++ [0])).
    change (Utf8.to_scalars (x :: y :: l ++ [0])) with
      (if Utf8.is_high x then
         if Utf8.is_low y
         then (0x10000 + (x - 0xD800) * 0x400 + (y - 0xDC00))
              :: Utf8.to_scalars (l ++ [0])
         else 0xFFFD :: Utf8.to_scalars ((y :: l) ++ [0])
       else if Utf8.is_low x then 0xFFFD :: Utf8.to_scalars ((y :: l) ++ [0])
       else x :: Utf8.to_scalars ((y :: l) ++ [0])).
    change (Utf8.to_scalars (x :: y :: l)) with
      (if Utf8.is_high x then
         if Utf8.is_low y
         then (0x10000 + (x - 0xD800) * 0x400 + (y - 0xDC00)) :: Utf8.to_scalars l
         else 0xFFFD :: Utf8.to_scalars (y :: l)
       else if Utf8.is_low x then 0xFFFD :: Utf8.to_scalars (y :: l)
       else x :: Utf8.to_scalars (y :: l)).
    rewrite IHl, IHy.
    destruct (Utf8.is_high x); [destruct (Utf8.is_low y); reflexivity|].
    destruct (Utf8.is_low x); reflexivity.
Qed.

Lemma encode_nul (s : jsstring) : Utf8.encode (s ++ [0]) = Utf8.encode s ++ [x00].
Proof.
  unfold Utf8.encode. rewrite to_scalars_nul, flat_map_app, map_app. reflexivity.
Qed.

Section NulFacts.
Context {C : SubtleCrypto}.

Lemma deriveKey_nul (password : jsstring) (salt : list byte) :
  (length (Utf8.encode password) < 64)%nat ->
  Vault.deriveKey (password ++ [0]) salt = Vault.deriveKey password salt.
Proof.
  intros H. rewrite !deriveKey_returns, encode_nul.
  rewrite (pbkdf2_same_hmac (Utf8.encode password ++ [x00]) (Utf8.encode password)
             salt 200000 32 (fun msg => hmac_zero _ msg H)).
  reflexivity.
Qed.

Lemma bind_Throws {A B : Type} (e : exn) (k : A -> outcome B) :
  (Throws e ≫= k) = Throws e.
Proof. reflexivity. Qed.

Lemma bind_Unmodelled {A B : Type} (k : A -> outcome B) :
  (Unmodelled ≫= k) = Unmodelled.
Proof. reflexivity. Qed.

End NulFacts.

(** A passphrase of fewer than 64 bytes of UTF-8 and the same passphrase
    followed by U+0000 are one passphrase to the vault: [encryptText]
    returns the same payload for both from the same random bytes, and
    [decryptText] does the same with both on every text. *)
Theorem passphrase_ignores_trailing_nul (C : SubtleCrypto) (E : Engine)
    (password : jsstring) :
  (length (Utf8.encode password) < 64)%nat ->
  (forall (plain : jsstring) (e : entropy),
     Vault.encryptText plain (password ++ [0]) e
     = Vault.encryptText plain password e)
  /\ (forall encrypted : jsstring,
        Vault.decryptText encrypted (password ++ [0])
        = Vault.decryptText encrypted password).
Proof.
  intros Hlen. split.
  - intros plain e. unfold Vault.encryptText.
    destruct (getRandomValues 16 e) as [salt e1].
    destruct (getRandomValues 12 e1) as [iv e2].
    rewrite deriveKey_nul by exact Hlen. reflexivity.
  - intros encrypted. unfold Vault.decryptText.
    destruct (Json.parse encrypted) as [parsed|err|];
      [rewrite !bind_Returns
      | rewrite !bind_Throws; reflexivity
      | rewrite !bind_Unmodelled; reflexivity].
    unfold Vault.decryptParsed.
    destruct (Vault.guard parsed) as [[|]|]; [reflexivity| |reflexivity].
    destruct (Vault.base64_arg (Json.prop parsed (js "salt")) ≫= Vault.fromBase64)
      as [salt|err|];
      [rewrite !bind_Returns
      | rewrite !bind_Throws; reflexivity
      | rewrite !bind_Unmodelled; reflexivity].
    destruct (Vault.base64_arg (Json.prop parsed (js "iv")) ≫= Vault.fromBase64)
      as [iv|err|];
      [rewrite !bind_Returns
      | rewrite !bind_Throws; reflexivity
      | rewrite !bind_Unmodelled; reflexivity].
    destruct (Vault.base64_arg (Json.prop parsed (js "data")) ≫= Vault.fromBase64)
      as [data|err|];
      [rewrite !bind_Returns
      | rewrite !bind_Throws; reflexivity
      | rewrite !bind_Unmodelled; reflexivity].
    rewrite deriveKey_nul by exact Hlen. reflexivity.
Qed.

Lemma passphrase_ignores_trailing_nul_witness :
  (forall (plain : jsstring) (e : entropy),
     Vault.encryptText (C := Toy.provider) (E := Toy.engine) plain
       (js "correct horse" ++ [0]) e
     = Vault.encryptText (C := Toy.provider) (E := Toy.engine) plain
         (js "correct horse") e)
  /\ (forall encrypted : jsstring,
        Vault.decryptText (C := Toy.provider) encrypted (js "correct horse" ++ [0])
        = Vault.decryptText (C := Toy.provider) encrypted (js "correct horse")).
Proof.
  apply (passphrase_ignores_trailing_nul Toy.provider Toy.engine
           (js "correct horse")).
  vm_compute. lia.
Defined.

(** ** From the reply to the preview *)

Lemma starts_with_ci_app_l (p s r : jsstring) :
  Str.starts_with_ci p s = true -> Str.starts_with_ci p (s ++ r) = true.
Proof.
  revert s. induction p as [|x p IH]; intros s; [reflexivity|].
  destruct s as [|y s]; cbn [app Str.starts_with_ci]; [discriminate|].
  intros H. apply andb_prop in H as [-> H]. apply IH. exact H.
Qed.

Lemma test_ci_app_l (p s r : jsstring) :
  Str.test_ci p s = true -> Str.test_ci p (s ++ r) = true.
Proof.
  induction s as [|c s IH]; cbn [Str.test_ci app].
  - destruct p as [|x p]; [|discriminate].
    intros _. destruct r; reflexivity.
  - intros H. apply orb_prop in H as [H|H].
    + pose proof (starts_with_ci_app_l p (c :: s) r H) as H'.
      cbn [app] in H'. rewrite H'. reflexivity.
    + rewrite (IH H). apply orb_true_r.
Qed.

(** From the click to the parser: when the second reply is a block fenced
    with [```latex] whose body is a LaTeX document (it has a
    [\begin{document}] and no fence), the editor opens on the tab of the
    tailored text, and the first rendering hands the parser the body
    followed by a line feed, and shows what the parser made of it. *)
Theorem tailor_then_preview (p : Tailor.Page) (skillsText body content : jsstring)
    (latex : jsstring -> Editor.rendering) :
  Tailor.showEditor (Tailor.form p) = false ->
  Tailor.disabled p = Some false ->
  Home.apiKey (Tailor.home p) <> [] ->
  Json.to_string (Home.originalContent (Tailor.home p)) = Some content ->
  Str.includes Tailor.fence body = false ->
  Editor.hasBegin body = true ->
  exists p',
    Tailor.click (fenced_service skillsText body) p = Some p'
    /\ Tailor.showEditor (Tailor.form p') = true
    /\ Editor.source (editor_props p' content) Editor.initial = body ++ [10]
    /\ Editor.toRender (body ++ [10]) = body ++ [10]
    /\ Editor.renderPreview latex true (editor_props p' content) Editor.initial
       = match latex (body ++ [10]) with
         | Editor.Html html =>
             {| Editor.copied := false; Editor.activeTab := Editor.Tailored;
                Editor.previewHtml := Some html; Editor.isRendering := false;
                Editor.renderError := None |}
         | Editor.Failed msg =>
             {| Editor.copied := false; Editor.activeTab := Editor.Tailored;
                Editor.previewHtml := None; Editor.isRendering := false;
                Editor.renderError := Some (Editor.errorText msg) |}
         end.
Proof.
  intros Hed Hen Hkey Hcontent Hbody Hbegin.
  destruct (enabled_page p Hen) as (_ & Hres & Hjob).
  pose proof (cleaned_fenced_latex body Hbody) as Hclean.
  assert (Hrender : Editor.toRender (body ++ [10]) = body ++ [10]).
  { unfold Editor.toRender. unfold Editor.hasBegin in *.
    rewrite (test_ci_app_l _ _ _ Hbegin). reflexivity. }
  unfold Tailor.click. rewrite Hed, Hen. unfold Tailor.handleTailorResume.
  rewrite Hjob, Hres. cbn [mbind option_bind negb].
  destruct (Home.apiKey (Tailor.home p)) as [|c key] eqn:Ek; [congruence|].
  cbn [Home.is_empty]. rewrite Hcontent.
  cbn [mbind option_bind fenced_service Tailor.setup Tailor.replies].
  eexists. split; [reflexivity|]. split; [reflexivity|].
  assert (Hsrc : Editor.source
                   (editor_props
                      (Tailor.update (Tailor.setShowEditor true)
                         (Tailor.update (Tailor.setIsProcessing false)
                            (Tailor.update (Tailor.setProgress 100)
                               (Tailor.update
                                  (Tailor.setTailoredContent
                                     (Tailor.cleaned (fenced (js "latex") body)))
                                  (Tailor.send
                                     (Tailor.tailorPrompt
                                        (Tailor.jobDescription (Tailor.form p))
                                        content
                                        (Tailor.tailoringStrength (Tailor.form p)))
                                     (Tailor.update
                                        (Tailor.setExtractedSkills
                                           (Tailor.skills skillsText))
                                        (Tailor.send
                                           (Tailor.skillsPrompt
                                              (Tailor.jobDescription (Tailor.form p)))
                                           p)))))))
                      content) Editor.initial
                 = body ++ [10]).
  { unfold Editor.source, editor_props. cbn [Editor.activeTab Editor.initial
      Editor.texCode]. page. exact Hclean. }
  split; [exact Hsrc|]. split; [exact Hrender|].
  unfold Editor.renderPreview. rewrite Hsrc, Hrender.
  destruct (latex (body ++ [10])); reflexivity.
Qed.

Lemma tailor_then_preview_witness :
  exists p',
    Tailor.click
      (fenced_service (js "Rust, SQL") (js "\begin{document}Hi\end{document}"))
      sample_page_with_key = Some p'
    /\ Tailor.showEditor (Tailor.form p') = true
    /\ Editor.source (editor_props p' (js "\documentclass{article}")) Editor.initial
       = js "\begin{document}Hi\end{document}" ++ [10]
    /\ Editor.toRender (js "\begin{document}Hi\end{document}" ++ [10])
       = js "\begin{document}Hi\end{document}" ++ [10]
    /\ Editor.renderPreview (fun _ => Editor.Html (js "<p>Hi</p>")) true
         (editor_props p' (js "\documentclass{article}")) Editor.initial
       = match (fun _ : jsstring => Editor.Html (js "<p>Hi</p>"))
                 (js "\begin{document}Hi\end{document}" ++ [10]) with
         | Editor.Html html =>
             {| Editor.copied := false; Editor.activeTab := Editor.Tailored;
                Editor.previewHtml := Some html; Editor.isRendering := false;
                Editor.renderError := None |}
         | Editor.Failed msg =>
             {| Editor.copied := false; Editor.activeTab := Editor.Tailored;
                Editor.previewHtml := None; Editor.isRendering := false;
                Editor.renderError := Some (Editor.errorText msg) |}
         end.
Proof.
  apply (tailor_then_preview sample_page_with_key (js "Rust, SQL")
           (js "\begin{document}Hi\end{document}") (js "\documentclass{article}")
           (fun _ => Editor.Html (js "<p>Hi</p>")));
    [reflexivity | reflexivity | discriminate | reflexivity | reflexivity
    | reflexivity].
Defined.

(** ** More of the key lifecycle *)

Section RekeyFacts.
Context {C : SubtleCrypto} {E : Engine} {L : SubtleCryptoLaws C}.

Lemma fire_saveEncrypted (w : Home.World) :
  spreadable (Home.apiKey (Home.state w)) ->
  Home.nonempty (Home.encryptedApiKey (Home.state w)) = true ->
  Home.isApiUnlocked (Home.state w) = true ->
  Home.is_empty (Home.passphrase (Home.state w)) = false ->
  exists enc e',
    enc <> []
    /\ fst (Vault.encryptText (Home.apiKey (Home.state w))
              (Home.passphrase (Home.state w)) (Home.random w)) = Returns enc
    /\ Home.fire Home.SaveEncrypted w
       = Some (Home.say Home.KeySaved
                 (Home.update (Home.setEncryptedApiKey (Some enc))
                    (Home.setItem Home.API_KEY_ENC enc (Home.setRandom e' w)))).
Proof.
  intros Hsp Hn Hu Hp.
  destruct (encryptText_total C E L (Home.apiKey (Home.state w))
              (Home.passphrase (Home.state w)) (Home.random w) Hsp)
    as (text & e' & He & Hne).
  exists text, e'. split; [exact Hne|]. split; [rewrite He; reflexivity|].
  unfold Home.fire. cbn [Home.shown]. rewrite Hn, Hu. cbn [andb Home.handle].
  unfold Home.saveEncrypted. cbv zeta. rewrite Hp, He. reflexivity.
Qed.

End RekeyFacts.

(** Save Encrypted, with nothing else happening while it waits,
    re-encrypts the key field as it is, even empty, under the passphrase now
    typed in, whatever passphrase unlocked it, and replaces the stored
    payload. When persistence is on and the stored resume, if any, is JSON
    text that the page can show, the page is locked on the new payload after
    the next load, and typing that passphrase and unlocking gives the key
    back. The key is well-formed UTF-16 without a leading U+FEFF, and short
    enough for the engine to spread its cipher. *)
Theorem save_encrypted_rekeys (C : SubtleCrypto) (E : Engine)
    (L : SubtleCryptoLaws C) (w : Home.World) (key pw : jsstring) :
  Home.nonempty (Home.encryptedApiKey (Home.state w)) = true ->
  Home.isApiUnlocked (Home.state w) = true ->
  Home.apiKey (Home.state w) = key -> Home.passphrase (Home.state w) = pw ->
  pw <> [] -> Utf8.well_formed key = true -> Utf8.no_bom key = true ->
  spreadable key ->
  persistence_on (Home.storage w) -> resume_loads (Home.storage w) ->
  exists w1 enc,
    Home.fire Home.SaveEncrypted w = Some w1
    /\ Home.storage w1 = <[Home.API_KEY_ENC := enc]> (Home.storage w)
    /\ Home.encryptedApiKey (Home.state w1) = Some enc
    /\ Home.alerts w1 = Home.KeySaved :: Home.alerts w
    /\ exists w2,
         Home.reload w1 = Some w2
         /\ encrypted_locked enc (Home.state w2)
         /\ exists w3,
              Home.run [Home.TypePassphrase pw; Home.Unlock] w2 = Some w3
              /\ Home.apiKey (Home.state w3) = key
              /\ Home.isApiUnlocked (Home.state w3) = true.
Proof.
  intros Hn Hu Hk Hp Hpw Hwf Hbom Hsp Hon Hr.
  assert (Hpe : Home.is_empty (Home.passphrase (Home.state w)) = false)
    by (rewrite Hp; destruct pw; [congruence|reflexivity]).
  assert (Hsp' : spreadable (Home.apiKey (Home.state w)))
    by (rewrite Hk; exact Hsp).
  destruct (fire_saveEncrypted w Hsp' Hn Hu Hpe) as (enc & e' & Hne & He & Hf).
  rewrite Hk, Hp in He.
  assert (Hdec : Vault.decryptText enc pw = Returns key).
  { destruct (decrypt_encrypt key pw (Home.random w) (well_formed_range key Hwf)
                Hsp)
      as (text & He' & Hd).
    rewrite He in He'. injection He' as <-.
    rewrite Hd, normalise_well_formed by assumption. reflexivity. }
  eexists. exists enc. split; [exact Hf|]. world.
  split; [reflexivity|]. split; [reflexivity|]. split; [reflexivity|].
  match goal with |- exists w2, Home.reload ?w1 = _ /\ _ =>
    destruct (reload_locks w1 enc) as (w2 & Hw2 & (Hek & Hak & Hun) & Hpp & _)
  end.
  - unfold persistence_on. world. rewrite lookup_insert_ne by discriminate.
    exact Hon.
  - unfold resume_loads. world. intros raw. rewrite lookup_insert_ne by discriminate.
    apply Hr.
  - world. apply lookup_insert_eq.
  - exact Hne.
  - exists w2. split; [exact Hw2|]. split; [repeat split; assumption|].
    erewrite run_step by reflexivity.
    erewrite run_step.
    2:{ apply (fire_unlock_returns _ enc key); world;
          [exact Hek | exact Hne | exact Hun
          | destruct pw; [congruence|reflexivity] | exact Hdec]. }
    eexists. split; [reflexivity|]. world. auto.
Qed.

Lemma save_encrypted_rekeys_witness :
  exists w1 enc,
    Home.fire (C := Toy.provider) (E := Toy.engine) Home.SaveEncrypted
      (unlocked_page (js "AIza-example-key-123") (js "new passphrase") Toy.counter)
    = Some w1
    /\ Home.storage w1
       = <[Home.API_KEY_ENC := enc]>
           (Home.storage
              (unlocked_page (js "AIza-example-key-123") (js "new passphrase")
                 Toy.counter))
    /\ Home.encryptedApiKey (Home.state w1) = Some enc
    /\ Home.alerts w1
       = Home.KeySaved
         :: Home.alerts
              (unlocked_page (js "AIza-example-key-123") (js "new passphrase")
                 Toy.counter)
    /\ exists w2,
         Home.reload w1 = Some w2
         /\ encrypted_locked enc (Home.state w2)
         /\ exists w3,
              Home.run (C := Toy.provider) (E := Toy.engine)
                [Home.TypePassphrase (js "new passphrase"); Home.Unlock] w2 = Some w3
              /\ Home.apiKey (Home.state w3) = js "AIza-example-key-123"
              /\ Home.isApiUnlocked (Home.state w3) = true.
Proof.
  apply (save_encrypted_rekeys Toy.provider Toy.engine toy_laws
           (unlocked_page (js "AIza-example-key-123") (js "new passphrase")
              Toy.counter)).
  - reflexivity.
  - reflexivity.
  - reflexivity.
  - reflexivity.
  - discriminate.
  - reflexivity.
  - reflexivity.
  - spread.
  - left. apply lookup_singleton_ne. discriminate.
  - intros raw Hraw. cbn [Home.storage unlocked_page] in Hraw.
    rewrite lookup_singleton_ne in Hraw by discriminate. discriminate.
Defined.

(** A stored resume that is not JSON text hides the stored key: the load
    stops at the error of [JSON.parse], so the page starts with no saved
    resume and no encrypted key, although persistence is on and the payload
    is still in the storage. *)
Theorem corrupt_resume_hides_key (prev : Home.World) (raw enc : jsstring)
    (err : exn) :
  persistence_on (Home.storage prev) ->
  Home.storage prev !! Home.LAST_RESUME = Some raw -> raw <> [] ->
  Json.parse raw = Throws err ->
  Home.storage prev !! Home.API_KEY_ENC = Some enc ->
  exists w,
    Home.reload prev = Some w
    /\ Home.persistEnabled (Home.state w) = true
    /\ Home.encryptedApiKey (Home.state w) = None
    /\ Home.lastSavedResume (Home.state w) = Json.JNull
    /\ Home.resumeFile (Home.state w) = None
    /\ Home.storage w = Home.storage prev
    /\ Home.storage w !! Home.API_KEY_ENC = Some enc.
Proof.
  intros Hon Hk Hne Hparse Henc. rewrite reload_unfold. cbv zeta.
  assert (Hs : stored_preference (Home.storage prev) = true).
  { unfold stored_preference. destruct Hon as [-> | ->]; reflexivity. }
  rewrite Hs. cbn [negb].
  unfold Home.loadResume, Home.getItem. cbn [Home.storage]. rewrite Hk.
  destruct raw as [|c raw]; [congruence|]. rewrite Hparse.
  eexists. split; [reflexivity|]. world. auto 10.
Qed.

Lemma corrupt_resume_hides_key_witness :
  exists w,
    Home.reload
      {| Home.state := Home.initial;
         Home.storage := <[Home.LAST_RESUME := js "{"]> {[ Home.API_KEY_ENC := js "x" ]};
         Home.alerts := []; Home.random := Toy.counter |} = Some w
    /\ Home.persistEnabled (Home.state w) = true
    /\ Home.encryptedApiKey (Home.state w) = None
    /\ Home.lastSavedResume (Home.state w) = Json.JNull
    /\ Home.resumeFile (Home.state w) = None
    /\ Home.storage w
       = Home.storage
           {| Home.state := Home.initial;
              Home.storage :=
                <[Home.LAST_RESUME := js "{"]> {[ Home.API_KEY_ENC := js "x" ]};
              Home.alerts := []; Home.random := Toy.counter |}
    /\ Home.storage w !! Home.API_KEY_ENC = Some (js "x").
Proof.
  apply (corrupt_resume_hides_key _ (js "{") (js "x") SyntaxError).
  - left. reflexivity.
  - reflexivity.
  - discriminate.
  - reflexivity.
  - reflexivity.
Defined.

(** A stored resume that the page cannot show takes the page down. With
    persistence on, the load effect sets [lastSavedResume] to what it
    parsed, and the render that follows throws when its [name] is an object
    (or an array that holds one) or its [savedAt] is an object with a member
    named [toString]: no page is left, the key controls included. A load
    leaves no page in no other case. *)
Theorem unshowable_resume_takes_page_down (prev : Home.World) :
  (forall (raw : jsstring) (parsed : Json.json),
     persistence_on (Home.storage prev) ->
     Home.storage prev !! Home.LAST_RESUME = Some raw -> raw <> [] ->
     Json.parse raw = Returns parsed ->
     ~ resume_shows parsed ->
     Home.reload prev = None)
  /\ (Home.reload prev = None ->
      exists w,
        Home.loadEffect {| Home.state := Home.initial;
                           Home.storage := Home.storage prev;
                           Home.alerts := []; Home.random := Home.random prev |}
        = Some w
        /\ Home.renders (Home.state w) = false)
  /\ (forall (members : list (jsstring * Json.json)),
        resume_shows (Json.JObj members)
        <-> match Json.lookup (js "name") members with
            | Some name => Home.child name = true
            | None => True
            end
            /\ match Json.lookup (js "savedAt") members with
               | Some savedAt => Json.stringable savedAt = true
               | None => True
               end).
Proof.
  split; [|split].
  - intros raw parsed Hon Hraw Hne Hp Hs.
    apply (reload_crashes prev raw parsed Hon Hraw Hne Hp).
    unfold resume_shows in Hs. destruct (Home.renders _); [|reflexivity].
    exfalso. apply Hs. reflexivity.
  - unfold Home.reload.
    destruct (loadEffect_returns
                {| Home.state := Home.initial; Home.storage := Home.storage prev;
                   Home.alerts := []; Home.random := Home.random prev |})
      as (w & Hw).
    rewrite Hw. cbn [mbind option_bind].
    destruct (Home.renders (Home.state w)) eqn:Hr; [discriminate|].
    intros _. exists w. split; [reflexivity|exact Hr].
  - intros members. unfold resume_shows, Home.renders.
    cbn [Home.lastSavedResume Home.setLastSavedResume Json.truthy Json.prop].
    destruct (Json.lookup (js "name") members) as [name|];
      destruct (Json.lookup (js "savedAt") members) as [savedAt|];
      rewrite ?andb_true_iff; intuition.
Qed.

(** A resume whose name is an object, beside a stored key. *)
Lemma unshowable_resume_takes_page_down_witness :
  Home.reload
    {| Home.state := Home.initial;
       Home.storage :=
         <[Home.LAST_RESUME :=
             js "{" ++ 34 :: js "name" ++ 34 :: js ":{}," ++ 34 :: js "content"
             ++ 34 :: js ":" ++ 34 :: js "x" ++ 34 :: js "}"]>
           {[ Home.API_KEY_ENC := js "x" ]};
       Home.alerts := []; Home.random := Toy.counter |} = None.
Proof.
  apply (proj1 (unshowable_resume_takes_page_down _)
           (js "{" ++ 34 :: js "name" ++ 34 :: js ":{}," ++ 34 :: js "content"
            ++ 34 :: js ":" ++ 34 :: js "x" ++ 34 :: js "}")
           (Json.JObj [(js "name", Json.JObj []);
                       (js "content", Json.JStr (js "x"))])).
  - left. reflexivity.
  - reflexivity.
  - discriminate.
  - vm_compute. reflexivity.
  - unfold resume_shows. vm_compute. discriminate.
Defined.

(** ** The choice of the model *)

Lemma includes_methods (x : jsstring) (e : jsstring * list jsstring) :
  Listing.includes (Json.JArr (map Json.JStr (snd e))) x = Listing.Done (supports x e).
Proof.
  unfold Listing.includes, supports. f_equal.
  induction (snd e) as [|s l IH]; [reflexivity|].
  cbn [map existsb]. rewrite IH. reflexivity.
Qed.

Lemma entry_name (e : jsstring * list jsstring) :
  Listing.either_or (Some (model_entry e)) (js "name") (js "model") (Json.JStr [])
  = Listing.Done (Json.JStr (fst e)).
Proof.
  unfold Listing.either_or, Listing.either, Listing.get, model_entry.
  replace (Json.prop
             (Json.JObj [(js "name", Json.JStr (fst e));
                         (js "supportedMethods",
                          Json.JArr (map Json.JStr (snd e)))]) (js "name"))
    with (Some (Json.JStr (fst e))) by reflexivity.
  destruct (fst e) as [|c n]; reflexivity.
Qed.

Lemma entry_methods (e : jsstring * list jsstring) :
  Listing.either_or (Some (model_entry e)) (js "supportedMethods") (js "methods")
    (Json.JArr [])
  = Listing.Done (Json.JArr (map Json.JStr (snd e))).
Proof. reflexivity. Qed.

Lemma is_gemini_entry (e : jsstring * list jsstring) :
  Listing.is_gemini (model_entry e) = Listing.Done (gemini_generator e).
Proof.
  unfold Listing.is_gemini, gemini_generator.
  rewrite (entry_name e), entry_methods.
  cbn [mbind Listing.attempt_bind Listing.decided Json.to_string].
  rewrite !includes_methods.
  destruct (Str.test_ci (js "gemini") (fst e)); [|reflexivity].
  destruct (supports (js "generateContent") e); reflexivity.
Qed.

Lemma generates_entry (e : jsstring * list jsstring) :
  Listing.generates (model_entry e)
  = Listing.Done (supports (js "generateContent") e).
Proof.
  unfold Listing.generates. rewrite entry_methods.
  cbn [mbind Listing.attempt_bind]. apply includes_methods.
Qed.

Lemma find_entries (f : Json.json -> Listing.attempt bool)
    (g : jsstring * list jsstring -> bool)
    (entries : list (jsstring * list jsstring)) :
  Forall (fun e => f (model_entry e) = Listing.Done (g e)) entries ->
  Listing.find f (map model_entry entries)
  = Listing.Done (option_map model_entry (List.find g entries)).
Proof.
  induction 1 as [|e l He _ IH]; [reflexivity|].
  cbn [map Listing.find List.find]. rewrite He. cbn [Listing.when].
  destruct (g e); [reflexivity|exact IH].
Qed.

Lemma name_of_entry (e : jsstring * list jsstring) :
  Listing.either (Some (model_entry e)) (js "name") (js "model")
  = Listing.Done (if Home.is_empty (fst e) then None
                  else Some (Json.JStr (fst e))).
Proof.
  unfold Listing.either, Listing.get, model_entry.
  replace (Json.prop
             (Json.JObj [(js "name", Json.JStr (fst e));
                         (js "supportedMethods",
                          Json.JArr (map Json.JStr (snd e)))]) (js "name"))
    with (Some (Json.JStr (fst e))) by reflexivity.
  destruct (fst e) as [|c n]; reflexivity.
Qed.

Lemma gemini_named (e : jsstring * list jsstring) :
  gemini_generator e = true -> Home.is_empty (fst e) = false.
Proof.
  unfold gemini_generator. destruct (fst e) as [|c n]; [|reflexivity].
  intros H. apply andb_prop in H as [H _]. discriminate H.
Qed.

Lemma chosen_entries (listResp : Listing.value)
    (entries : list (jsstring * list jsstring)) (default : jsstring) :
  Listing.modelsArr listResp
  = Listing.Done (Some (Json.JArr (map model_entry entries))) ->
  Listing.chosen listResp (Some (Json.JStr default))
  = Listing.Done (preferred entries default).
Proof.
  intros Harr. unfold Listing.chosen. rewrite Harr. clear Harr.
  cbn [mbind Listing.attempt_bind].
  destruct entries as [|e0 entries0]; [reflexivity|].
  cbn [map].
  change (model_entry e0 :: map model_entry entries0)
    with (map model_entry (e0 :: entries0)).
  set (entries := e0 :: entries0) in *.
  rewrite (find_entries Listing.is_gemini gemini_generator).
  2:{ apply List.Forall_forall. intros e _. apply is_gemini_entry. }
  rewrite (find_entries Listing.generates (supports (js "generateContent"))).
  2:{ apply List.Forall_forall. intros e _. apply generates_entry. }
  unfold preferred. cbn [mbind Listing.attempt_bind].
  destruct (List.find gemini_generator entries) as [e|] eqn:Eg; cbn [option_map].
  - cbn [Listing.truth Json.truthy model_entry Listing.decided Listing.when].
    rewrite (name_of_entry e).
    apply List.find_some in Eg as [_ Eg]. rewrite (gemini_named e Eg). reflexivity.
  - cbn [Listing.truth Listing.when].
    destruct (List.find (supports (js "generateContent")) entries) as [e|] eqn:Ea;
      cbn [option_map].
    + cbn [Listing.truth Json.truthy model_entry Listing.decided Listing.when].
      apply (name_of_entry e).
    + reflexivity.
Qed.

(** On a listing of models with names and supported methods, given as an
    array or under [models], the block chooses the first model whose name
    has [gemini] in it (in any case of letters) and that supports
    [generateContent] or [generate]; if there is none, the first model that
    supports [generateContent], and [undefined] if that model's name is
    empty; if there is none, the default. With a client that has no
    [listModels], as with a listing that fails, the default stays. *)
Theorem listing_prefers_gemini (entries : list (jsstring * list jsstring))
    (default : jsstring) :
  Listing.chosenModelName
    (Some (Listing.Done (Some (Json.JArr (map model_entry entries))))) default
  = Some (preferred entries default)
  /\ Listing.chosenModelName
       (Some (Listing.Done
                (Some (Json.JObj [(js "models",
                                   Json.JArr (map model_entry entries))]))))
       default
     = Some (preferred entries default)
  /\ Listing.chosenModelName None default = Some (Some (Json.JStr default))
  /\ Listing.chosenModelName (Some Listing.Thrown) default
     = Some (Some (Json.JStr default)).
Proof.
  split; [|split; [|split; reflexivity]].
  - unfold Listing.chosenModelName. cbv zeta.
    cbn [mbind Listing.attempt_bind].
    rewrite (chosen_entries (Some (Json.JArr (map model_entry entries)))
               entries default eq_refl).
    reflexivity.
  - unfold Listing.chosenModelName. cbv zeta.
    cbn [mbind Listing.attempt_bind].
    rewrite (chosen_entries
               (Some (Json.JObj [(js "models",
                                  Json.JArr (map model_entry entries))]))
               entries default eq_refl).
    reflexivity.
Qed.
